(** * CellOpt: the SHELXL instruction-file parser (cellopt/shelxlParser.py)

    A shallow embedding of [shelxlParser.py] and the properties of its
    symmetry algebra, dispatcher, field sub-parsers, restraint table and
    distance function.

    Conventions of the embedding.
    - Python [str] values are [string]s of 8-bit characters.
    - Python floats are exact rationals ([Q], kept reduced by [Qred]): a
      numeric token denotes its decimal value and arithmetic does not round.
      The tokens [inf], [infinity], [nan], digit groups with underscores and
      arguments of [eval] other than a quotient of two integers are outside
      this fragment; the model raises [OutOfModel] on them.
    - Exceptions are values of [exn]; functions that touch no object are
      plain functions into [result], functions that read or write objects
      run in the monad [M] over the [World] of live objects.
    - The distance function is stated over the real numbers. *)

From Stdlib Require Import ZArith QArith Qround Qreduction String Ascii List Bool Lia.
From Stdlib Require Import Reals Lra.
From stdpp Require Import base option list gmap strings.

Local Open Scope string_scope.
Local Open Scope Z_scope.

(** ** Exceptions *)

Inductive exn : Set :=
| ValueError
| KeyError
| IndexError
| TypeError
| ZeroDivisionError
| AttributeError
| FileNotFoundError
| OutOfModel
| OutOfFuel.

#[global] Instance exn_eq_dec : EqDecision exn.
Proof. solve_decision. Defined.

Inductive result (A : Type) : Type :=
| Ok (a : A)
| Raise (e : exn).
Arguments Ok {A} a.
Arguments Raise {A} e.

Definition rbind {A B} (r : result A) (k : A -> result B) : result B :=
  match r with
  | Ok a => k a
  | Raise e => Raise e
  end.

(** [[f(x) for x in l]] with a fallible [f]: the first exception wins. *)
Fixpoint rmap {A B} (f : A -> result B) (l : list A) : result (list B) :=
  match l with
  | [] => Ok []
  | x :: t => rbind (f x) (fun y => rbind (rmap f t) (fun ys => Ok (y :: ys)))
  end.

(** ** Python string methods *)

Module PyStr.

(** White space as [split], [strip] and [rstrip] see it, among the
    characters below 128. Python also counts the characters 133 and 160 as
    white space; lines that hold them are not covered. *)
Definition is_space (c : ascii) : bool :=
  let n := nat_of_ascii c in
  ((9 <=? n)%nat && (n <=? 13)%nat) || ((28 <=? n)%nat && (n <=? 32)%nat).

Definition lower_char (c : ascii) : ascii :=
  let n := nat_of_ascii c in
  if ((65 <=? n)%nat && (n <=? 90)%nat) then ascii_of_nat (n + 32) else c.

Definition upper_char (c : ascii) : ascii :=
  let n := nat_of_ascii c in
  if ((97 <=? n)%nat && (n <=? 122)%nat) then ascii_of_nat (n - 32) else c.

Fixpoint smap (f : ascii -> ascii) (s : string) : string :=
  match s with
  | EmptyString => EmptyString
  | String c t => String (f c) (smap f t)
  end.

(** [s.lower()], [s.upper()] *)
Definition lower : string -> string := smap lower_char.
Definition upper : string -> string := smap upper_char.

Definition is_empty (s : string) : bool :=
  match s with EmptyString => true | _ => false end.

(** [s.replace(c, r)] for a one-character [c] *)
Fixpoint replace (c : ascii) (r : string) (s : string) : string :=
  match s with
  | EmptyString => EmptyString
  | String a t =>
      if Ascii.eqb a c then r ++ replace c r t else String a (replace c r t)
  end.

(** [c in s] *)
Fixpoint contains (c : ascii) (s : string) : bool :=
  match s with
  | EmptyString => false
  | String a t => Ascii.eqb a c || contains c t
  end.

(** [s.partition(c)]: text before the first [c], the separator, the text
    after it; [(s, '', '')] when [c] does not occur. *)
Fixpoint partition (c : ascii) (s : string) : string * string * string :=
  match s with
  | EmptyString => (EmptyString, EmptyString, EmptyString)
  | String a t =>
      if Ascii.eqb a c then (EmptyString, String c EmptyString, t)
      else let '(b, sep, r) := partition c t in (String a b, sep, r)
  end.

Fixpoint split_ws_from (cur : string) (s : string) : list string :=
  match s with
  | EmptyString => if is_empty cur then [] else [cur]
  | String c t =>
      if is_space c
      then (if is_empty cur then split_ws_from EmptyString t
            else cur :: split_ws_from EmptyString t)
      else split_ws_from (cur ++ String c EmptyString) t
  end.

(** [s.split()] *)
Definition split : string -> list string := split_ws_from EmptyString.

Fixpoint split_on_from (c : ascii) (cur : string) (s : string) : list string :=
  match s with
  | EmptyString => [cur]
  | String a t =>
      if Ascii.eqb a c then cur :: split_on_from c EmptyString t
      else split_on_from c (cur ++ String a EmptyString) t
  end.

(** [s.split(c)] *)
Definition split_on (c : ascii) : string -> list string :=
  split_on_from c EmptyString.

(** [sep.join(l)] *)
Fixpoint join (sep : string) (l : list string) : string :=
  match l with
  | [] => EmptyString
  | [x] => x
  | x :: t => x ++ sep ++ join sep t
  end.

Fixpoint rstrip_by (p : ascii -> bool) (s : string) : string :=
  match s with
  | EmptyString => EmptyString
  | String a t =>
      let t' := rstrip_by p t in
      if is_empty t' && p a then EmptyString else String a t'
  end.

Fixpoint lstrip_by (p : ascii -> bool) (s : string) : string :=
  match s with
  | EmptyString => EmptyString
  | String a t => if p a then lstrip_by p t else s
  end.

(** [s.rstrip()], [s.rstrip(c)], [s.strip()] *)
Definition rstrip : string -> string := rstrip_by is_space.
Definition rstrip_char (c : ascii) : string -> string := rstrip_by (Ascii.eqb c).
Definition strip (s : string) : string := lstrip_by is_space (rstrip s).

(** [s[-1]] *)
Fixpoint last (s : string) : option ascii :=
  match s with
  | EmptyString => None
  | String a EmptyString => Some a
  | String _ t => last t
  end.

(** [s[:-1]] *)
Fixpoint init (s : string) : string :=
  match s with
  | EmptyString => EmptyString
  | String _ EmptyString => EmptyString
  | String a t => String a (init t)
  end.

(** [s.endswith(c)] *)
Definition endswith (c : ascii) (s : string) : bool :=
  match last s with
  | Some a => Ascii.eqb a c
  | None => false
  end.

(** [s[:n]], [s[n:]] *)
Fixpoint take (n : nat) (s : string) : string :=
  match n, s with
  | S k, String a t => String a (take k t)
  | _, _ => EmptyString
  end.

Fixpoint drop (n : nat) (s : string) : string :=
  match n, s with
  | S k, String _ t => drop k t
  | _, _ => s
  end.

(** [s[0]] *)
Definition head (s : string) : option ascii :=
  match s with
  | EmptyString => None
  | String a _ => Some a
  end.

End PyStr.

(** ** Python numbers *)

Module PyNum.

Definition digit (c : ascii) : option Z :=
  let n := nat_of_ascii c in
  if ((48 <=? n)%nat && (n <=? 57)%nat) then Some (Z.of_nat (n - 48)) else None.

(** Reads a maximal run of decimal digits: its value, its length and the
    rest of the text. *)
Fixpoint digits (acc : Z) (len : nat) (s : string) : Z * nat * string :=
  match s with
  | EmptyString => (acc, len, s)
  | String c t =>
      match digit c with
      | Some d => digits (10 * acc + d) (S len) t
      | None => (acc, len, s)
      end
  end.

(** An optional sign: [true] for [-]. *)
Definition sign (s : string) : bool * string :=
  match s with
  | String "-" t => (true, t)
  | String "+" t => (false, t)
  | _ => (false, s)
  end.

Definition pow10 (e : Z) : Q :=
  if (0 <=? e)%Z then inject_Z (10 ^ e) else / inject_Z (10 ^ (- e)).

Definition apply_sign (neg : bool) (q : Q) : Q := if neg then Qopp q else q.

Definition special (s : string) : bool :=
  let l := PyStr.lower s in
  String.eqb l "inf" || String.eqb l "infinity" || String.eqb l "nan".

(** The exponent part of a float literal, if any. *)
Definition exponent (s : string) : result Z :=
  match s with
  | EmptyString => Ok 0
  | String c t =>
      if Ascii.eqb c "e" || Ascii.eqb c "E" then
        let '(neg, t1) := sign t in
        let '(v, n, rest) := digits 0 0 t1 in
        if (n =? 0)%nat then Raise ValueError
        else if PyStr.is_empty rest then Ok (if neg then - v else v)
        else Raise ValueError
      else Raise ValueError
  end.

(** [float(s)] for a string: surrounding white space is ignored, then
    [[sign] (digits [. [digits]] | . digits) [e [sign] digits]]. The value
    is the exact rational that the text denotes: the rounding to a double,
    with overflow to [inf] and underflow to zero, is not modelled. A text
    with an underscore, which Python accepts between digits and refuses
    elsewhere, and the texts [inf] and [nan] are outside the model. *)
Definition float (s : string) : result Q :=
  let s0 := PyStr.strip s in
  if PyStr.contains "_" s0 then Raise OutOfModel else
  let '(neg, s1) := sign s0 in
  if special s1 then Raise OutOfModel else
  let '(ip, ni, s2) := digits 0 0 s1 in
  let '(fp, nf, s3) :=
    match s2 with
    | String "." t => digits 0 0 t
    | _ => (0, 0%nat, s2)
    end in
  if ((ni + nf)%nat =? 0)%nat then Raise ValueError else
  rbind (exponent s3) (fun e =>
    let mant := (inject_Z (ip * 10 ^ Z.of_nat nf + fp) * pow10 (- Z.of_nat nf))%Q in
    Ok (Qred (apply_sign neg (mant * pow10 e)%Q))).

(** [int(s)] for a string. *)
Definition int_of_str (s : string) : result Z :=
  let s0 := PyStr.strip s in
  if PyStr.contains "_" s0 then Raise OutOfModel else
  let '(neg, s1) := sign s0 in
  let '(v, n, rest) := digits 0 0 s1 in
  if (n =? 0)%nat then Raise ValueError
  else if PyStr.is_empty rest then Ok (if neg then - v else v)
  else Raise ValueError.

(** [int(x)] for a float: truncation towards zero. *)
Definition int_of_float (q : Q) : Z :=
  if Qle_bool 0 q then Qfloor q else Qceiling q.

(** [x // 1] and [x % 1] for a float, on exact rationals: the remainder is
    below 1 here, whereas on doubles it is rounded and can be 1.0 (for
    [-1e-20]). *)
Definition floordiv1 (q : Q) : Q := inject_Z (Qfloor q).
Definition mod1 (q : Q) : Q := Qred (q - inject_Z (Qfloor q)).

Definition fadd (a b : Q) : Q := Qred (a + b).
Definition fneg (a : Q) : Q := Qred (- a).
Definition is_zero (a : Q) : bool := Qeq_bool a 0.

Definition digit_char (d : Z) : ascii := ascii_of_nat (48 + Z.to_nat d).

Fixpoint nat_digits (fuel : nat) (n : Z) (acc : string) : string :=
  match fuel with
  | O => acc
  | S k =>
      let acc' := String (digit_char (n mod 10)) acc in
      if (n <? 10)%Z then acc' else nat_digits k (n / 10) acc'
  end.

(** Decimal numeral of a natural number. *)
Definition str_nat (n : Z) : string :=
  nat_digits (S (Z.to_nat (Z.log2 n))) n EmptyString.

(** The least [k <= fuel] with [d] dividing [10 ^ k]. *)
Fixpoint dec_places (fuel : nat) (k : Z) (d : Z) : option Z :=
  if (10 ^ k mod d =? 0)%Z then Some k else
  match fuel with
  | O => None
  | S f => dec_places f (k + 1) d
  end.

Fixpoint zeros (n : nat) (s : string) : string :=
  match n with
  | O => s
  | S k => String "0" (zeros k s)
  end.

Definition pad_zeros (width : nat) (s : string) : string :=
  zeros (width - String.length s) s.

(** [str(x)] for a float, in the range where Python prints fixed notation
    and the value has a short terminating decimal expansion:
    [1e-4 <= |x| < 1e16] or [x = 0], at most 15 significant digits. *)
Definition str_float (q : Q) : result string :=
  let q := Qred q in
  let n := Qnum q in
  let d := Zpos (Qden q) in
  if (n =? 0)%Z then Ok "0.0" else
  match dec_places 19 0 d with
  | None => Raise OutOfModel
  | Some k =>
      let m := (Z.abs n * (10 ^ k / d))%Z in
      if negb ((m <? 10 ^ 15)%Z && (10 ^ k <=? m * 10 ^ 4)%Z && (m <? 10 ^ (16 + k))%Z)
      then Raise OutOfModel
      else
        let ip := (m / 10 ^ k)%Z in
        let fp := (m mod 10 ^ k)%Z in
        let fs := if (k =? 0)%Z then "0" else pad_zeros (Z.to_nat k) (str_nat fp) in
        Ok ((if (n <? 0)%Z then "-" else "") ++ str_nat ip ++ "." ++ fs)
  end.

End PyNum.


(** ** Data model *)

(** Objects that the program shares between several owners are kept in the
    [World] and named by their address. *)
Definition ref := nat.

(** [SymmetryElement]: [se_matrix] is the list of rows of [self.matrix],
    [se_trans] the entries of [self.trans] ([None] is Python's [None]). *)
Record SymmetryElement : Type := {
  se_symms : list string;
  se_ID : Z;
  se_matrix : list (list Z);
  se_trans : list (option Q);
}.

(** [ShelxlAtom] *)
Record ShelxlAtom : Type := {
  at_name : string;
  at_sfac : Q;
  at_frac : list Q;
  at_occ : Q * Q;
  at_adp : list Q;
  at_qPeak : bool;
}.

(** [ShelxlMolecule]. [mol_waveLength] and [mol_z] do not exist before
    their setters run. A distance restraint holds the address of its list
    of pairs. *)
Record ShelxlMolecule : Type := {
  mol_sfacs : list string;
  mol_customSfacData : gmap string (string * list Q);
  mol_atoms : list ShelxlAtom;
  mol_qPeaks : list ShelxlAtom;
  mol_cell : list Q;
  mol_cerr : list Q;
  mol_lattOps : list ref;
  mol_symms : list ref;
  mol_centric : bool;
  mol_eqivs : gmap string ref;
  mol_dfixs : list (Q * option Q * ref);
  mol_dfixErr : Q;
  mol_waveLength : option Q;
  mol_z : option Z;
}.

(** The live objects: the class attribute [SymmetryElement.symm_ID], the
    [SymmetryElement] instances, the lists of pairs built by [DfixParser],
    the [ShelxlMolecule] instances, and the class attribute
    [ShelxlParser.CURRENTMOLECULE] ([None] or the address of a molecule). *)
Record World : Type := {
  symm_ID : Z;
  elements : list SymmetryElement;
  pair_lists : list (list (string * string));
  molecules : list ShelxlMolecule;
  CURRENTMOLECULE : option ref;
}.

Definition with_symm_ID (v : Z) (w : World) : World :=
  {| symm_ID := v; elements := elements w; pair_lists := pair_lists w;
     molecules := molecules w; CURRENTMOLECULE := CURRENTMOLECULE w |}.
Definition with_elements (v : list SymmetryElement) (w : World) : World :=
  {| symm_ID := symm_ID w; elements := v; pair_lists := pair_lists w;
     molecules := molecules w; CURRENTMOLECULE := CURRENTMOLECULE w |}.
Definition with_pair_lists (v : list (list (string * string))) (w : World) : World :=
  {| symm_ID := symm_ID w; elements := elements w; pair_lists := v;
     molecules := molecules w; CURRENTMOLECULE := CURRENTMOLECULE w |}.
Definition with_molecules (v : list ShelxlMolecule) (w : World) : World :=
  {| symm_ID := symm_ID w; elements := elements w; pair_lists := pair_lists w;
     molecules := v; CURRENTMOLECULE := CURRENTMOLECULE w |}.
Definition with_CURRENTMOLECULE (v : option ref) (w : World) : World :=
  {| symm_ID := symm_ID w; elements := elements w; pair_lists := pair_lists w;
     molecules := molecules w; CURRENTMOLECULE := v |}.

(** ** The monad of stateful, fallible code *)

Definition M (A : Type) : Type := World -> result A * World.

Definition ret {A} (a : A) : M A := fun w => (Ok a, w).
Definition raise {A} (e : exn) : M A := fun w => (Raise e, w).
Definition bind {A B} (c : M A) (k : A -> M B) : M B :=
  fun w => match c w with
           | (Ok a, w') => k a w'
           | (Raise e, w') => (Raise e, w')
           end.
Definition lift {A} (r : result A) : M A := fun w => (r, w).
Definition get_world : M World := fun w => (Ok w, w).
Definition put_world (w : World) : M unit := fun _ => (Ok tt, w).

(** [try: c except e: h] *)
Definition try_except {A} (c : M A) (e : exn) (h : M A) : M A :=
  fun w => match c w with
           | (Raise e', w') => if decide (e' = e) then h w' else (Raise e', w')
           | r => r
           end.

Declare Scope py_scope.
Delimit Scope py_scope with py.
Notation "x <- c ;; k" := (bind c (fun x => k))
  (at level 100, c at next level, right associativity) : py_scope.
Notation "c ;; k" := (bind c (fun _ => k))
  (at level 100, right associativity) : py_scope.
Local Open Scope py_scope.

(** [for x in l: body(x)] *)
Fixpoint for_each {A} (l : list A) (body : A -> M unit) : M unit :=
  match l with
  | [] => ret tt
  | x :: t => body x ;; for_each t body
  end.

(** [l[i]] on a Python list or array *)
Definition index {A} (l : list A) (i : nat) : result A :=
  match l !! i with
  | Some a => Ok a
  | None => Raise IndexError
  end.

(** ** SymmetryElement *)

Module SymmetryElementM.

(** [_partition(symm, char)]. The source compares [sign is '-']; one
    character strings are unique objects, so this is equality. *)
Definition _partition (symm : string) (char : ascii) : Z * string :=
  let '(p0, p1, p2) := PyStr.partition char symm in
  if negb (PyStr.is_empty p1) then
    let sign := match PyStr.last p0 with Some c => c | None => "+"%char end in
    if Ascii.eqb sign "-" then (-1, PyStr.init p0 ++ p2)
    else (1, PyStr.replace "+" "" (p0 ++ p2))
  else (0, symm).

(** [eval] of [a./b.], the text that [_float] builds from [a/b]. *)
Definition eval_quotient (s : string) : result Q :=
  let '(na, s1) := PyNum.sign s in
  let '(a, la, s2) := PyNum.digits 0 0 s1 in
  match s2 with
  | String "." (String "/" s3) =>
      let '(nb, s4) := PyNum.sign s3 in
      let '(b, lb, s5) := PyNum.digits 0 0 s4 in
      if ((la =? 0)%nat || (lb =? 0)%nat || negb (String.eqb s5 "."))
      then Raise OutOfModel
      else if (b =? 0)%Z then Raise ZeroDivisionError
      else Ok (Qred (PyNum.apply_sign na (inject_Z a) / PyNum.apply_sign nb (inject_Z b))%Q)
  | _ => Raise OutOfModel
  end.

(** [_float(string)]: [Ok None] when the function falls off its end. *)
Definition _float (s : string) : result (option Q) :=
  match PyNum.float s with
  | Ok q => Ok (Some q)
  | Raise ValueError =>
      if PyStr.contains "/" s
      then rbind (eval_quotient (PyStr.replace "/" "./" s ++ ".")) (fun q => Ok (Some q))
      else Ok None
  | Raise e => Raise e
  end.

(** [_parse_line(symm)] *)
Definition _parse_line (symm : string) : result (list Z * option Q) :=
  let symm := PyStr.replace " " "" (PyStr.lower symm) in
  let '(ex, symm) := _partition symm "x" in
  let '(ey, symm) := _partition symm "y" in
  let '(ez, symm) := _partition symm "z" in
  let line := [ex; ey; ez] in
  if negb (PyStr.is_empty symm)
  then rbind (_float symm) (fun t => Ok (line, t))
  else Ok (line, Some 0%Q).

(** Column [j] of a list of rows, and [np.matrix(lines).transpose()] for
    a non-empty list of rows of three entries (the program never builds
    an element from an empty list of expressions). *)
Definition column (lines : list (list Z)) (j : nat) : list Z :=
  map (fun l => nth j l 0) lines.
Definition transpose (lines : list (list Z)) : list (list Z) :=
  [column lines 0; column lines 1; column lines 2].

(** [self.trans *= -1] *)
Definition negate_trans (t : list (option Q)) : result (list (option Q)) :=
  rmap (fun x => match x with
                 | Some q => Ok (Some (PyNum.fneg q))
                 | None => Raise TypeError
                 end) t.

Definition alloc (e : SymmetryElement) : M ref :=
  fun w => (Ok (length (elements w)), with_elements (elements w ++ [e]) w).

(** [self.ID = SymmetryElement.symm_ID; SymmetryElement.symm_ID += 1] *)
Definition fresh_ID : M Z :=
  fun w => (Ok (symm_ID w), with_symm_ID (symm_ID w + 1) w).

(** Reading the object at an address; every address the program holds
    is live. *)
Definition deref (r : ref) : M SymmetryElement :=
  fun w => match elements w !! r with
           | Some e => (Ok e, w)
           | None => (Raise OutOfModel, w)
           end.

Definition with_trans (t : list (option Q)) (e : SymmetryElement) : SymmetryElement :=
  {| se_symms := se_symms e; se_ID := se_ID e; se_matrix := se_matrix e; se_trans := t |}.

(** [r.trans = t] *)
Definition set_trans (r : ref) (t : list (option Q)) : M unit :=
  fun w => match elements w !! r with
           | Some e => (Ok tt, with_elements (<[r := with_trans t e]> (elements w)) w)
           | None => (Raise OutOfModel, w)
           end.

(** [SymmetryElement(symms, centric)] *)
Definition __init__ (symms : list string) (centric : bool) : M ref :=
  id <- fresh_ID ;;
  parsed <- lift (rmap _parse_line symms) ;;
  let lines := map fst parsed in
  let trans := map snd parsed in
  let matrix := transpose lines in
  if centric then
    let matrix := map (map Z.opp) matrix in
    trans <- lift (negate_trans trans) ;;
    alloc {| se_symms := symms; se_ID := id; se_matrix := matrix; se_trans := trans |}
  else
    alloc {| se_symms := symms; se_ID := id; se_matrix := matrix; se_trans := trans |}.

(** Truth value of a translation entry. *)
Definition truthy (t : option Q) : bool :=
  match t with
  | Some q => negb (PyNum.is_zero q)
  | None => false
  end.

Definition axes : list string := ["X"; "Y"; "Z"].

(** One pass of the inner loop of [toShelxl]: the text for entry
    [matrix[i, j]]. *)
Definition axis_text (m : Z) (axis : string) : string :=
  let s := if (m =? 0)%Z then "" else axis in
  if (m <? 0)%Z then "-" ++ s
  else if negb (PyStr.is_empty s) then "+" ++ s
  else s.

Definition line_text (e : SymmetryElement) (i : nat) : result string :=
  rbind (index (se_matrix e) i) (fun op =>
  rbind (index (se_trans e) i) (fun t =>
  rbind (if truthy t
         then match t with Some q => PyNum.str_float q | None => Ok "" end
         else Ok "") (fun text =>
  rbind (index op 0) (fun m0 =>
  rbind (index op 1) (fun m1 =>
  rbind (index op 2) (fun m2 =>
  Ok (text ++ axis_text m0 "X" ++ axis_text m1 "Y" ++ axis_text m2 "Z"))))))).

(** [toShelxl()] *)
Definition toShelxl (e : SymmetryElement) : result string :=
  rbind (rmap (line_text e) [0; 1; 2]%nat) (fun lines => Ok (PyStr.join ", " lines)).

(** [(a + b)/1] on translation entries *)
Definition add_entry (a b : option Q) : result (option Q) :=
  match a, b with
  | Some x, Some y => Ok (Some (PyNum.fadd x y))
  | _, _ => Raise TypeError
  end.

(** [self.applyLattSymm(lattSymm)] *)
Definition applyLattSymm (self lattSymm : ref) : M ref :=
  e <- deref self ;;
  text <- lift (toShelxl e) ;;
  newSymm <- __init__ (PyStr.split_on "," text) false ;;
  e <- deref self ;;
  l <- deref lattSymm ;;
  t0 <- lift (rbind (index (se_trans e) 0) (fun a =>
              rbind (index (se_trans l) 0) (fun b => add_entry a b))) ;;
  t1 <- lift (rbind (index (se_trans e) 1) (fun a =>
              rbind (index (se_trans l) 1) (fun b => add_entry a b))) ;;
  t2 <- lift (rbind (index (se_trans e) 2) (fun a =>
              rbind (index (se_trans l) 2) (fun b => add_entry a b))) ;;
  set_trans newSymm [t0; t1; t2] ;;
  ret newSymm.

End SymmetryElementM.

Definition empty_world : World :=
  {| symm_ID := 1; elements := []; pair_lists := []; molecules := [];
     CURRENTMOLECULE := None |}.

(** ** ShelxlLine and the tokens of the dispatcher

    A call of a parser returns a pair of the next parser and a token: a
    [ShelxlLine], a [ShelxlAtom], the raw text of a line, or [None]. *)
Inductive token : Type :=
| TokLine (line : string)
| TokAtom (a : ShelxlAtom)
| TokStr (s : string)
| TokNone.

(** ** ShelxlMolecule *)

Module ShelxlMoleculeM.

Definition set_sfacs v m :=
  {| mol_sfacs := v; mol_customSfacData := mol_customSfacData m; mol_atoms := mol_atoms m;
     mol_qPeaks := mol_qPeaks m; mol_cell := mol_cell m; mol_cerr := mol_cerr m;
     mol_lattOps := mol_lattOps m; mol_symms := mol_symms m; mol_centric := mol_centric m;
     mol_eqivs := mol_eqivs m; mol_dfixs := mol_dfixs m; mol_dfixErr := mol_dfixErr m;
     mol_waveLength := mol_waveLength m; mol_z := mol_z m |}.
Definition set_customSfacData v m :=
  {| mol_sfacs := mol_sfacs m; mol_customSfacData := v; mol_atoms := mol_atoms m;
     mol_qPeaks := mol_qPeaks m; mol_cell := mol_cell m; mol_cerr := mol_cerr m;
     mol_lattOps := mol_lattOps m; mol_symms := mol_symms m; mol_centric := mol_centric m;
     mol_eqivs := mol_eqivs m; mol_dfixs := mol_dfixs m; mol_dfixErr := mol_dfixErr m;
     mol_waveLength := mol_waveLength m; mol_z := mol_z m |}.
Definition set_atoms v m :=
  {| mol_sfacs := mol_sfacs m; mol_customSfacData := mol_customSfacData m; mol_atoms := v;
     mol_qPeaks := mol_qPeaks m; mol_cell := mol_cell m; mol_cerr := mol_cerr m;
     mol_lattOps := mol_lattOps m; mol_symms := mol_symms m; mol_centric := mol_centric m;
     mol_eqivs := mol_eqivs m; mol_dfixs := mol_dfixs m; mol_dfixErr := mol_dfixErr m;
     mol_waveLength := mol_waveLength m; mol_z := mol_z m |}.
Definition set_qPeaks v m :=
  {| mol_sfacs := mol_sfacs m; mol_customSfacData := mol_customSfacData m;
     mol_atoms := mol_atoms m;
     mol_qPeaks := v; mol_cell := mol_cell m; mol_cerr := mol_cerr m;
     mol_lattOps := mol_lattOps m; mol_symms := mol_symms m; mol_centric := mol_centric m;
     mol_eqivs := mol_eqivs m; mol_dfixs := mol_dfixs m; mol_dfixErr := mol_dfixErr m;
     mol_waveLength := mol_waveLength m; mol_z := mol_z m |}.
Definition set_cell v m :=
  {| mol_sfacs := mol_sfacs m; mol_customSfacData := mol_customSfacData m;
     mol_atoms := mol_atoms m;
     mol_qPeaks := mol_qPeaks m; mol_cell := v; mol_cerr := mol_cerr m;
     mol_lattOps := mol_lattOps m; mol_symms := mol_symms m; mol_centric := mol_centric m;
     mol_eqivs := mol_eqivs m; mol_dfixs := mol_dfixs m; mol_dfixErr := mol_dfixErr m;
     mol_waveLength := mol_waveLength m; mol_z := mol_z m |}.
Definition set_cerr v m :=
  {| mol_sfacs := mol_sfacs m; mol_customSfacData := mol_customSfacData m;
     mol_atoms := mol_atoms m;
     mol_qPeaks := mol_qPeaks m; mol_cell := mol_cell m; mol_cerr := v;
     mol_lattOps := mol_lattOps m; mol_symms := mol_symms m; mol_centric := mol_centric m;
     mol_eqivs := mol_eqivs m; mol_dfixs := mol_dfixs m; mol_dfixErr := mol_dfixErr m;
     mol_waveLength := mol_waveLength m; mol_z := mol_z m |}.
Definition set_lattOps v m :=
  {| mol_sfacs := mol_sfacs m; mol_customSfacData := mol_customSfacData m;
     mol_atoms := mol_atoms m;
     mol_qPeaks := mol_qPeaks m; mol_cell := mol_cell m; mol_cerr := mol_cerr m;
     mol_lattOps := v; mol_symms := mol_symms m; mol_centric := mol_centric m;
     mol_eqivs := mol_eqivs m; mol_dfixs := mol_dfixs m; mol_dfixErr := mol_dfixErr m;
     mol_waveLength := mol_waveLength m; mol_z := mol_z m |}.
Definition set_symms v m :=
  {| mol_sfacs := mol_sfacs m; mol_customSfacData := mol_customSfacData m;
     mol_atoms := mol_atoms m;
     mol_qPeaks := mol_qPeaks m; mol_cell := mol_cell m; mol_cerr := mol_cerr m;
     mol_lattOps := mol_lattOps m; mol_symms := v; mol_centric := mol_centric m;
     mol_eqivs := mol_eqivs m; mol_dfixs := mol_dfixs m; mol_dfixErr := mol_dfixErr m;
     mol_waveLength := mol_waveLength m; mol_z := mol_z m |}.
Definition set_centric v m :=
  {| mol_sfacs := mol_sfacs m; mol_customSfacData := mol_customSfacData m;
     mol_atoms := mol_atoms m;
     mol_qPeaks := mol_qPeaks m; mol_cell := mol_cell m; mol_cerr := mol_cerr m;
     mol_lattOps := mol_lattOps m; mol_symms := mol_symms m; mol_centric := v;
     mol_eqivs := mol_eqivs m; mol_dfixs := mol_dfixs m; mol_dfixErr := mol_dfixErr m;
     mol_waveLength := mol_waveLength m; mol_z := mol_z m |}.
Definition set_eqivs v m :=
  {| mol_sfacs := mol_sfacs m; mol_customSfacData := mol_customSfacData m;
     mol_atoms := mol_atoms m;
     mol_qPeaks := mol_qPeaks m; mol_cell := mol_cell m; mol_cerr := mol_cerr m;
     mol_lattOps := mol_lattOps m; mol_symms := mol_symms m; mol_centric := mol_centric m;
     mol_eqivs := v; mol_dfixs := mol_dfixs m; mol_dfixErr := mol_dfixErr m;
     mol_waveLength := mol_waveLength m; mol_z := mol_z m |}.
Definition set_dfixs v m :=
  {| mol_sfacs := mol_sfacs m; mol_customSfacData := mol_customSfacData m;
     mol_atoms := mol_atoms m;
     mol_qPeaks := mol_qPeaks m; mol_cell := mol_cell m; mol_cerr := mol_cerr m;
     mol_lattOps := mol_lattOps m; mol_symms := mol_symms m; mol_centric := mol_centric m;
     mol_eqivs := mol_eqivs m; mol_dfixs := v; mol_dfixErr := mol_dfixErr m;
     mol_waveLength := mol_waveLength m; mol_z := mol_z m |}.
Definition set_waveLength v m :=
  {| mol_sfacs := mol_sfacs m; mol_customSfacData := mol_customSfacData m;
     mol_atoms := mol_atoms m;
     mol_qPeaks := mol_qPeaks m; mol_cell := mol_cell m; mol_cerr := mol_cerr m;
     mol_lattOps := mol_lattOps m; mol_symms := mol_symms m; mol_centric := mol_centric m;
     mol_eqivs := mol_eqivs m; mol_dfixs := mol_dfixs m; mol_dfixErr := mol_dfixErr m;
     mol_waveLength := v; mol_z := mol_z m |}.
Definition set_z v m :=
  {| mol_sfacs := mol_sfacs m; mol_customSfacData := mol_customSfacData m;
     mol_atoms := mol_atoms m;
     mol_qPeaks := mol_qPeaks m; mol_cell := mol_cell m; mol_cerr := mol_cerr m;
     mol_lattOps := mol_lattOps m; mol_symms := mol_symms m; mol_centric := mol_centric m;
     mol_eqivs := mol_eqivs m; mol_dfixs := mol_dfixs m; mol_dfixErr := mol_dfixErr m;
     mol_waveLength := mol_waveLength m; mol_z := v |}.

(** The attribute values set by [ShelxlMolecule.__init__]; [dfixErr] is
    0.02. *)
Definition fresh : ShelxlMolecule :=
  {| mol_sfacs := []; mol_customSfacData := ∅; mol_atoms := []; mol_qPeaks := [];
     mol_cell := []; mol_cerr := []; mol_lattOps := []; mol_symms := [];
     mol_centric := false; mol_eqivs := ∅; mol_dfixs := []; mol_dfixErr := 1 # 50;
     mol_waveLength := None; mol_z := None |}.

(** [ShelxlMolecule()] *)
Definition __init__ : M ref :=
  fun w => (Ok (length (molecules w)), with_molecules (molecules w ++ [fresh]) w).

Definition load (self : ref) : M ShelxlMolecule :=
  fun w => match molecules w !! self with
           | Some m => (Ok m, w)
           | None => (Raise OutOfModel, w)
           end.

(** An assignment to attributes of [self], or an in-place change of one
    of its lists. *)
Definition update (self : ref) (f : ShelxlMolecule -> ShelxlMolecule) : M unit :=
  fun w => match molecules w !! self with
           | Some m => (Ok tt, with_molecules (<[self := f m]> (molecules w)) w)
           | None => (Raise OutOfModel, w)
           end.

Definition addAtom (self : ref) (atom : ShelxlAtom) : M unit :=
  update self (fun m => set_atoms (mol_atoms m ++ [atom]) m).

Definition addQPeak (self : ref) (qPeak : ShelxlAtom) : M unit :=
  update self (fun m => set_qPeaks (mol_qPeaks m ++ [qPeak]) m).

(** The arguments of the next four setters are arrays of floats already;
    [float(c)] on a float is the identity, [int(z)] truncates. *)
Definition setCell (self : ref) (cell : list Q) : M unit :=
  update self (set_cell cell).

Definition setWavelength (self : ref) (w : Q) : M unit :=
  update self (set_waveLength (Some w)).

Definition setZ (self : ref) (z : Q) : M unit :=
  update self (set_z (Some (PyNum.int_of_float z))).

Definition setCerr (self : ref) (cerr : list Q) : M unit :=
  update self (set_cerr cerr).

Definition addSfac (self : ref) (sfac : string) : M unit :=
  update self (fun m => set_sfacs (mol_sfacs m ++ [sfac]) m).

Definition addCustomSfac (self : ref) (data : list string) : M unit :=
  symbol <- lift (index data 0) ;;
  nums <- lift (rmap PyNum.float (tail data)) ;;
  update self (fun m => set_customSfacData (<[symbol := (symbol, nums)]> (mol_customSfacData m)) m) ;;
  update self (fun m => set_sfacs (mol_sfacs m ++ [symbol]) m).

Definition append_symm (self : ref) (s : ref) : M unit :=
  update self (fun m => set_symms (mol_symms m ++ [s]) m).

Definition addSymm (self : ref) (symmData : list string) : M unit :=
  newSymm <- SymmetryElementM.__init__ symmData false ;;
  append_symm self newSymm ;;
  m <- load self ;;
  for_each (mol_lattOps m) (fun symm =>
    lattSymm <- SymmetryElementM.applyLattSymm newSymm symm ;;
    append_symm self lattSymm) ;;
  m <- load self ;;
  if mol_centric m then
    c <- SymmetryElementM.__init__ symmData true ;;
    append_symm self c ;;
    m <- load self ;;
    for_each (mol_lattOps m) (fun symm =>
      lattSymm <- SymmetryElementM.applyLattSymm newSymm symm ;;
      append_symm self lattSymm)
  else ret tt.

Definition setCentric (self : ref) (value : bool) : M unit :=
  update self (set_centric value).

Definition setLattOps (self : ref) (lattOps : list ref) : M unit :=
  update self (set_lattOps lattOps).

Definition addDfix (self : ref) (value : Q) (err : option Q) (targets : ref) : M unit :=
  update self (fun m => set_dfixs (mol_dfixs m ++ [(value, err, targets)]) m).

Definition addEqiv (self : ref) (name : string) (data : list string) : M unit :=
  symm <- SymmetryElementM.__init__ data false ;;
  update self (fun m => set_eqivs (<[name := symm]> (mol_eqivs m)) m).

(** *** The restraint table *)

Definition load_pairs (p : ref) : M (list (string * string)) :=
  fun w => match pair_lists w !! p with
           | Some l => (Ok l, w)
           | None => (Raise OutOfModel, w)
           end.

(** One half of the body of the inner loop of [_finalizeDfix]: fetch the
    row of [row_key], creating it when missing, and store [v] under
    [field_key] unless that field exists. *)
Definition record (row_key field_key : string) (v : Q * Q)
    (t : gmap string (gmap string (Q * Q))) : gmap string (gmap string (Q * Q)) :=
  let row := match t !! row_key with Some r => r | None => ∅ end in
  match row !! field_key with
  | Some _ => <[row_key := row]> t
  | None => <[row_key := <[field_key := v]> row]> t
  end.

(** The body of the inner loop: [atom2] is used as a field key before it
    is put in upper case. *)
Definition record_pair (v : Q * Q) (t : gmap string (gmap string (Q * Q)))
    (p : string * string) : gmap string (gmap string (Q * Q)) :=
  let '(atom1, atom2) := p in
  let atom1 := PyStr.upper atom1 in
  let t := record atom1 atom2 v t in
  let atom2 := PyStr.upper atom2 in
  record atom2 atom1 v t.

(** [if not err: err = self.dfixErr] *)
Definition effective_err (err : option Q) (dfixErr : Q) : Q :=
  match err with
  | Some e => if PyNum.is_zero e then dfixErr else e
  | None => dfixErr
  end.

Definition initial_table (atoms : list ShelxlAtom) : gmap string (gmap string (Q * Q)) :=
  foldl (fun t a => <[PyStr.upper (at_name a) := ∅]> t) ∅ atoms.

(** [_finalizeDfix()]. The source builds the table in a local variable and
    prints it; the model returns it. *)
Fixpoint _finalizeDfix_loop (dfixErr : Q) (dfixs : list (Q * option Q * ref))
    (t : gmap string (gmap string (Q * Q))) : M (gmap string (gmap string (Q * Q))) :=
  match dfixs with
  | [] => ret t
  | (target, err, pairs) :: rest =>
      let err := effective_err err dfixErr in
      ps <- load_pairs pairs ;;
      _finalizeDfix_loop dfixErr rest (foldl (record_pair (target, err)) t ps)
  end.

Definition _finalizeDfix (self : ref) : M (gmap string (gmap string (Q * Q))) :=
  m <- load self ;;
  _finalizeDfix_loop (mol_dfixErr m) (mol_dfixs m) (initial_table (mol_atoms m)).

(** [finalize()] *)
Definition finalize (self : ref) : M unit :=
  _finalizeDfix self ;; ret tt.

End ShelxlMoleculeM.

(** [ShelxlParser.CURRENTMOLECULE.method(...)]: an attribute access on
    [None] raises [AttributeError]. *)
Definition current : M ref :=
  fun w => match CURRENTMOLECULE w with
           | Some r => (Ok r, w)
           | None => (Raise AttributeError, w)
           end.

Definition set_current (v : option ref) : M unit :=
  fun w => (Ok tt, with_CURRENTMOLECULE v w).

(** ** ShelxlAtom *)

Module ShelxlAtomM.

(** [data[a:b]] *)
Definition slice {A} (a b : nat) (l : list A) : list A := take (b - a) (drop a l).

(** [ShelxlAtom(line)]: the first word is the name, every other word is
    converted by [float]. *)
Definition __init__ (line : string) : M ShelxlAtom :=
  let words := PyStr.split line in
  nums <- lift (rmap PyNum.float (tail words)) ;;
  name <- lift (index words 0) ;;
  sfac <- lift (index nums 0) ;;
  let frac := slice 1 4 nums in
  d5 <- lift (index nums 4) ;;
  let occ := (PyNum.floordiv1 d5, PyNum.mod1 d5) in
  let adp := drop 5 nums in
  let first := match PyStr.head name with Some c => c | None => " "%char end in
  if Ascii.eqb (PyStr.upper_char first) "Q" then
    let self := {| at_name := name; at_sfac := sfac; at_frac := frac; at_occ := occ;
                   at_adp := adp; at_qPeak := true |} in
    mol <- current ;;
    ShelxlMoleculeM.addQPeak mol self ;;
    ret self
  else
    let self := {| at_name := name; at_sfac := sfac; at_frac := frac; at_occ := occ;
                   at_adp := adp; at_qPeak := false |} in
    mol <- current ;;
    ShelxlMoleculeM.addAtom mol self ;;
    ret self.

End ShelxlAtomM.

(** ** The field sub-parsers *)

(** The parser classes that [LineParser] opens. *)
Inductive kind : Set :=
| AtomParser
| CellParser
| CerrParser
| SfacParser
| LattParser
| SymmParser
| DfixParser
| EqivParser.

#[global] Instance kind_eq_dec : EqDecision kind.
Proof. solve_decision. Defined.

(** A parser object: the idle [LineParser], or a sub-parser with its
    [body]. *)
Inductive parser : Type :=
| LineParser
| Sub (k : kind) (body : string).

(** [LattParser.LATTDICT], built once when the class is defined: the
    centering translations are [SymmetryElement]s with the first seven
    identity labels. *)
Definition build_LATTDICT : M (gmap Z (list ref)) :=
  a2 <- SymmetryElementM.__init__ [".5"; ".5"; ".5"] false ;;
  a4 <- SymmetryElementM.__init__ [".5"; ".5"; "0"] false ;;
  b4 <- SymmetryElementM.__init__ [".5"; "0"; ".5"] false ;;
  c4 <- SymmetryElementM.__init__ ["0"; ".5"; ".5"] false ;;
  a5 <- SymmetryElementM.__init__ ["0"; ".5"; ".5"] false ;;
  a6 <- SymmetryElementM.__init__ [".5"; "0"; ".5"] false ;;
  a7 <- SymmetryElementM.__init__ [".5"; ".5"; "0"] false ;;
  ret (<[7 := [a7]]> (<[6 := [a6]]> (<[5 := [a5]]> (<[4 := [a4; b4; c4]]>
        (<[3 := []]> (<[2 := [a2]]> (<[1 := []]> ∅))))))).

(** The world after the module is loaded, and the table. *)
Definition initial_world : World := snd (build_LATTDICT empty_world).

Definition LATTDICT : gmap Z (list ref) :=
  match fst (build_LATTDICT empty_world) with
  | Ok d => d
  | Raise _ => ∅
  end.

Module Parsers.

(** [[float(word) for word in self.body.split()[1:] if word]] *)
Definition floats_after_keyword (body : string) : result (list Q) :=
  rmap PyNum.float (tail (PyStr.split body)).

(** [CellParser.finished] *)
Definition cell_finished (body : string) : M unit :=
  data <- lift (floats_after_keyword body) ;;
  mol <- current ;;
  ShelxlMoleculeM.setCell mol (tail data) ;;
  d0 <- lift (index data 0) ;;
  mol <- current ;;
  ShelxlMoleculeM.setWavelength mol d0.

(** [CerrParser.finished] *)
Definition cerr_finished (body : string) : M unit :=
  data <- lift (floats_after_keyword body) ;;
  mol <- current ;;
  ShelxlMoleculeM.setCerr mol (tail data) ;;
  d0 <- lift (index data 0) ;;
  mol <- current ;;
  ShelxlMoleculeM.setZ mol d0.

(** The first loop of [SfacParser.finished]: whether some word converts
    by [float]; an exception other than [ValueError] escapes. *)
Fixpoint any_float (words : list string) : result bool :=
  match words with
  | [] => Ok false
  | word :: rest =>
      match PyNum.float word with
      | Ok _ => Ok true
      | Raise ValueError => any_float rest
      | Raise e => Raise e
      end
  end.

(** [SfacParser.finished] *)
Definition sfac_finished (body : string) : M unit :=
  let words := tail (PyStr.split body) in
  custom <- lift (any_float words) ;;
  if negb custom then
    for_each words (fun sfac => mol <- current ;; ShelxlMoleculeM.addSfac mol sfac)
  else
    mol <- current ;; ShelxlMoleculeM.addCustomSfac mol words.

(** [int(data[-1])] for the words [data] of the body *)
Definition latt_number (body : string) : result Z :=
  let data := PyStr.split body in
  rbind (match List.last (map Some data) None with
         | Some x => Ok x
         | None => Raise IndexError
         end) PyNum.int_of_str.

(** [LattParser.finished] *)
Definition latt_finished (body : string) : M unit :=
  latt <- lift (latt_number body) ;;
  (if (0 <? latt)%Z
   then mol <- current ;; ShelxlMoleculeM.setCentric mol true
   else ret tt) ;;
  lattOps <- lift (match LATTDICT !! Z.abs latt with
                   | Some l => Ok l
                   | None => Raise KeyError
                   end) ;;
  mol <- current ;;
  ShelxlMoleculeM.setLattOps mol lattOps.

(** [SymmParser.finished] *)
Definition symm_finished (body : string) : M unit :=
  let symmData := PyStr.split_on "," (PyStr.drop 4 body) in
  mol <- current ;;
  ShelxlMoleculeM.addSymm mol symmData.

Definition new_pairs : M ref :=
  fun w => (Ok (length (pair_lists w)), with_pair_lists (pair_lists w ++ [[]]) w).

(** [pairs.append(p)] on the list object at address [r] *)
Definition append_pair (r : ref) (p : string * string) : M unit :=
  fun w => match pair_lists w !! r with
           | Some l => (Ok tt, with_pair_lists (<[r := (l ++ [p])%list]> (pair_lists w)) w)
           | None => (Raise OutOfModel, w)
           end.

(** The loop of [DfixParser.finished] over [i] in [range(len(data)//2)]:
    each pass appends one pair to the one list [pairs] and registers a
    restraint that holds that same list. *)
Fixpoint dfix_loop (value : Q) (err : option Q) (pairs : ref) (data : list string)
    (indices : list nat) : M unit :=
  match indices with
  | [] => ret tt
  | i :: rest =>
      a <- lift (index data (2 * i)) ;;
      b <- lift (index data (2 * i + 1)) ;;
      append_pair pairs (a, b) ;;
      mol <- current ;;
      ShelxlMoleculeM.addDfix mol value err pairs ;;
      dfix_loop value err pairs data rest
  end.

(** [DfixParser.finished] *)
Definition dfix_finished (body : string) : M unit :=
  let data := PyStr.split (PyStr.drop 4 body) in
  d0 <- lift (index data 0) ;;
  value <- lift (PyNum.float d0) ;;
  let data := tail data in
  d0 <- lift (index data 0) ;;
  ed <- lift (match PyNum.float d0 with
              | Ok e => Ok (Some e, tail data)
              | Raise ValueError => Ok (None, data)
              | Raise e => Raise e
              end) ;;
  let '(err, data) := ed in
  pairs <- new_pairs ;;
  dfix_loop value err pairs data (seq 0 (length data / 2)).

(** [EqivParser.finished] *)
Definition eqiv_finished (body : string) : M unit :=
  let data := tail (PyStr.split body) in
  name <- lift (index data 0) ;;
  let data := PyStr.split_on "," (PyStr.join " " (tail data)) in
  mol <- current ;;
  ShelxlMoleculeM.addEqiv mol name data.

(** [finished()] of each class; [AtomParser] inherits [pass]. *)
Definition finished (k : kind) (body : string) : M unit :=
  match k with
  | AtomParser => ret tt
  | CellParser => cell_finished body
  | CerrParser => cerr_finished body
  | SfacParser => sfac_finished body
  | LattParser => latt_finished body
  | SymmParser => symm_finished body
  | DfixParser => dfix_finished body
  | EqivParser => eqiv_finished body
  end.

(** [self.RETURNTYPE(self.body)] *)
Definition RETURNTYPE (k : kind) (body : string) : M token :=
  match k with
  | AtomParser => a <- ShelxlAtomM.__init__ body ;; ret (TokAtom a)
  | _ => ret (TokLine body)
  end.

(** [BaseParser.get(previousParser)] *)
Definition get (k : kind) (body : string) (previousParser : parser) : M (parser * token) :=
  if negb (PyStr.endswith "=" body) then
    finished k body ;;
    tok <- RETURNTYPE k body ;;
    ret (previousParser, tok)
  else
    ret (Sub k (PyStr.init body), TokNone).

End Parsers.

(** ** The dispatcher *)

(** What a keyword is mapped to: the bound method [doNothing] or a parser
    class ([isinstance(action, type)]). *)
Inductive action : Set :=
| doNothing
| Open (k : kind).

Module LineParserM.

(** The entries of the dictionary display in [LineParser.__init__], in
    the order of the source. Some keys occur twice. *)
Definition COMMANDS_items : list (string * action) :=
  [("REM", doNothing); ("BEDE", doNothing); ("MOLE", doNothing); ("TITL", doNothing);
   ("CELL", Open CellParser); ("ZERR", Open CerrParser); ("LATT", doNothing); ("SYMM", Open SymmParser);
   ("SFAC", Open SfacParser); ("UNIT", doNothing); ("TEMP", doNothing); ("L.S.", doNothing);
   ("BOND", doNothing); ("ACTA", doNothing); ("LIST", doNothing); ("FMAP", doNothing);
   ("PLAN", doNothing); ("WGHT", doNothing); ("FVAR", doNothing); ("SIMU", doNothing);
   ("RIGU", doNothing); ("SADI", doNothing); ("SAME", doNothing); ("DANG", doNothing);
   ("AFIX", doNothing); ("PART", doNothing); ("HKLF", doNothing); ("ABIN", doNothing);
   ("ANIS", doNothing); ("ANSC", doNothing); ("ANSR", doNothing); ("BASF", doNothing);
   ("BIND", doNothing); ("BLOC", doNothing); ("BUMP", doNothing); ("CGLS", doNothing);
   ("CHIV", doNothing); ("CONF", doNothing); ("CONN", doNothing); ("DAMP", doNothing);
   ("DEFS", doNothing); ("DELU", doNothing); ("DFIX", Open DfixParser); ("DISP", doNothing);
   ("EADP", doNothing); ("EQIV", Open EqivParser); ("EXTI", doNothing); ("EXYZ", doNothing);
   ("FEND", doNothing); ("FLAT", doNothing); ("FMAP", doNothing); ("FRAG", doNothing);
   ("FREE", doNothing); ("GRID", doNothing); ("HFIX", doNothing); ("HTAB", doNothing);
   ("ISOR", doNothing); ("LATT", Open LattParser); ("LAUE", doNothing); ("MERG", doNothing);
   ("MORE", doNothing); ("MPLA", doNothing); ("NCSY", doNothing); ("NEUT", doNothing);
   ("OMIT", doNothing); ("PLAN", doNothing); ("PRIG", doNothing); ("RESI", doNothing);
   ("RTAB", doNothing); ("SADI", doNothing); ("SAME", doNothing); ("SHEL", doNothing);
   ("SIMU", doNothing); ("SIZE", doNothing); ("SPEC", doNothing); ("STIR", doNothing);
   ("SUMP", doNothing); ("SWAT", doNothing); ("TWIN", doNothing); ("TWST", doNothing);
   ("WIGL", doNothing); ("WPDB", doNothing); ("XNPD", doNothing); ("REM", doNothing);
   ("Q", doNothing); ("END", doNothing); ("BEDE", doNothing); ("LONE", doNothing);
   ("+", doNothing)].

(** A dictionary display evaluates its entries from left to right: a
    later entry replaces an earlier one with the same key. *)
Definition COMMANDS : gmap string action :=
  foldl (fun d kv => <[fst kv := snd kv]> d) ∅ COMMANDS_items.

(** [self.doNothing(line)] *)
Definition do_nothing (line : string) : M (parser * token) :=
  ret (LineParser, TokLine line).

(** [LineParser.__call__(line)]. The call [parser.get(self)] is inside
    the [try] block, so a [KeyError] raised by a finisher is handled like
    one raised by the lookup. *)
Definition __call__ (line : string) : M (parser * token) :=
  let line := PyStr.rstrip_char "010" line in
  if PyStr.is_empty line then do_nothing line else
  let command := PyStr.take 4 line in
  if (match PyStr.head command with Some c => Ascii.eqb c " " | None => false end)
  then do_nothing line
  else
    match COMMANDS !! PyStr.rstrip command with
    | Some (Open k) =>
        try_except (Parsers.get k line LineParser) KeyError
                   (Parsers.get AtomParser line LineParser)
    | Some doNothing => do_nothing line
    | None => Parsers.get AtomParser line LineParser
    end.

End LineParserM.

(** [parser(line)] for any parser object: [LineParser.__call__],
    [AtomParser.__call__], or the inherited [BaseParser.__call__]. *)
Definition call (p : parser) (line : string) : M (parser * token) :=
  match p with
  | LineParser => LineParserM.__call__ line
  | Sub AtomParser body =>
      a <- ShelxlAtomM.__init__ (body ++ line) ;;
      ret (LineParser, TokAtom a)
  | Sub k body =>
      Parsers.finished k body ;;
      ret (LineParser, TokStr line)
  end.

(** ** Reader: the line source

    The files are a finite map from names to their lines, each line with
    its terminator as [readline] returns it. A reader holds what is left
    of the base file and of the inserted file, if one was opened. *)
Record Reader : Type := {
  rd_fp : list string;
  rd_inserted : option (list string);
}.

Module ReaderM.

(** One step of the generator [readlines]: the next line and the reader
    after it, or [None] at the end of the base file. *)
Definition next (rd : Reader) : option (string * Reader) :=
  match rd_inserted rd with
  | Some (n :: rest) => Some (n, {| rd_fp := rd_fp rd; rd_inserted := Some rest |})
  | _ =>
      match rd_fp rd with
      | n :: rest => Some (n, {| rd_fp := rest; rd_inserted := rd_inserted rd |})
      | [] => None
      end
  end.

(** [insert(fileName)]: a missing file is reported and ignored. *)
Definition insert (files : gmap string (list string)) (fileName : string) (rd : Reader)
    : Reader :=
  match files !! fileName with
  | Some content => {| rd_fp := rd_fp rd; rd_inserted := Some content |}
  | None => rd
  end.

End ReaderM.

(** ** ShelxlParser *)

Record ShelxlParser : Type := {
  lines : list token;
  atoms : list ShelxlAtom;
}.

Module ShelxlParserM.

(** Truth value of a token, as tested by [if line:]. *)
Definition truthy (t : token) : bool :=
  match t with
  | TokNone => false
  | TokStr s => negb (PyStr.is_empty s)
  | _ => true
  end.

(** The loop of [read] over [reader.readlines()]. It ends when the
    generator is exhausted; [fuel] bounds the number of lines read, since
    a file that inserts itself is read for ever. *)
Fixpoint read_loop (fuel : nat) (files : gmap string (list string)) (rd : Reader)
    (p : parser) (acc : list token) : M (list token) :=
  match ReaderM.next rd with
  | None => ret acc
  | Some (line, rd) =>
      match fuel with
      | O => raise OutOfFuel
      | S fuel =>
          let plus := match PyStr.head line with
                      | Some c => Ascii.eqb c "+"
                      | None => false
                      end in
          let rd := if plus then ReaderM.insert files (PyStr.init (PyStr.drop 1 line)) rd
                    else rd in
          let line := if plus then "+    " ++ PyStr.drop 1 line else line in
          pt <- call p line ;;
          let '(p, tok) := pt in
          read_loop fuel files rd p (if truthy tok then (acc ++ [tok])%list else acc)
      end
  end.

(** [read(fileName)]: the updated parser object and the value returned to
    the caller. The function has no [return] statement, so that value is
    [None]. *)
Definition read (fuel : nat) (files : gmap string (list string)) (self : ShelxlParser)
    (fileName : string) : M (ShelxlParser * option ref) :=
  mol <- ShelxlMoleculeM.__init__ ;;
  set_current (Some mol) ;;
  content <- lift (match files !! fileName with
                   | Some c => Ok c
                   | None => Raise FileNotFoundError
                   end) ;;
  toks <- read_loop fuel files {| rd_fp := content; rd_inserted := None |}
                    LineParser (lines self) ;;
  w <- get_world ;;
  match CURRENTMOLECULE w with
  | None => raise AttributeError
  | Some molecule =>
      ShelxlMoleculeM.finalize molecule ;;
      set_current None ;;
      ret ({| lines := toks; atoms := atoms self |}, None)
  end.

End ShelxlParserM.

(** ** The geometry engine *)

Module Geometry.

Local Open Scope R_scope.

(** [x % 1] on floats: the result lies in [[0, 1)]. *)
Definition mod1 (x : R) : R := x - IZR (Int_part x).

(** [ShelxlMolecule.distance(atom1, atom2)] for fractional coordinates
    [(x, y, z)] and [(x2, y2, z2)] and [self.cell = (a, b, c, alpha, beta,
    gamma)], over the real numbers; [cosine] and [pi] stand for [np.cos]
    and [np.pi]. The rounding of doubles is not modelled, so only what is
    exact in doubles carries over to the code; where the quadratic form is
    negative the square root is 0 here and [nan] in the code. *)
Definition distance_with (cosine : R -> R) (pi : R)
    (cell : R * R * R * R * R * R) (frac1 frac2 : R * R * R) : R :=
  let '(x, y, z) := frac1 in
  let '(x2, y2, z2) := frac2 in
  let xx := x2 + 99.5 in
  let yy := y2 + 99.5 in
  let zz := z2 + 99.5 in
  let dx := mod1 (xx - x) - 0.5 in
  let dy := mod1 (yy - y) - 0.5 in
  let dz := mod1 (zz - z) - 0.5 in
  let '(a, b, c, alpha, beta, gamma) := cell in
  let alpha := alpha / 180 * pi in
  let beta := beta / 180 * pi in
  let gamma := gamma / 180 * pi in
  let dd := a ^ 2 * dx ^ 2 + b ^ 2 * dy ^ 2 + c ^ 2 * dz ^ 2
            + 2 * b * c * cosine alpha * dy * dz
            + 2 * a * c * cosine beta * dx * dz
            + 2 * a * b * cosine gamma * dx * dy in
  sqrt dd.

Definition distance : R * R * R * R * R * R -> R * R * R -> R * R * R -> R :=
  distance_with cos PI.

(** The unpacking assignments [x, y, z = atom.frac] and
    [a, b, c, alpha, beta, gamma = self.cell]. *)
Definition unpack3 (l : list Q) : result (R * R * R) :=
  match l with
  | [x; y; z] => Ok (Q2R x, Q2R y, Q2R z)
  | _ => Raise ValueError
  end.

Definition unpack6 (l : list Q) : result (R * R * R * R * R * R) :=
  match l with
  | [a; b; c; al; be; ga] => Ok (Q2R a, Q2R b, Q2R c, Q2R al, Q2R be, Q2R ga)
  | _ => Raise ValueError
  end.

(** [self.distance(atom1, atom2)] on the objects of the data model. *)
Definition molecule_distance (self : ShelxlMolecule) (atom1 atom2 : ShelxlAtom) : result R :=
  rbind (unpack3 (at_frac atom1)) (fun f1 =>
  rbind (unpack3 (at_frac atom2)) (fun f2 =>
  rbind (unpack6 (mol_cell self)) (fun cell =>
  Ok (distance cell f1 f2)))).

End Geometry.

(** ** Running the parser on a text

    [nl] is the line terminator; [run ls] reads a file whose lines are
    [ls], in the world that exists once the module is loaded, with enough
    fuel for a file without insertions. *)
Definition nl : string := String "010" EmptyString.

Definition file_of (ls : list string) : gmap string (list string) :=
  {[ "s1.ins" := map (fun l => l ++ nl) ls ]}.

Definition new_parser : ShelxlParser := {| lines := []; atoms := [] |}.

Definition run (ls : list string) : result (ShelxlParser * option ref) * World :=
  ShelxlParserM.read (length ls) (file_of ls) new_parser "s1.ins" initial_world.

(** The world in which the sub-parsers run during a parse: the module is
    loaded and [CURRENTMOLECULE] is a fresh molecule. *)
Definition parsing_world : World :=
  snd ((mol <- ShelxlMoleculeM.__init__ ;; set_current (Some mol)) initial_world).

(** The operations of a run, as (matrix, translation) pairs. *)
Definition operations (w : World) : option (list (list (list Z) * list (option Q))) :=
  m ← molecules w !! 0%nat;
  mapM (fun r => e ← elements w !! r; Some (se_matrix e, se_trans e)) (mol_symms m).

(** The restraint table of a run: [_finalizeDfix] on the molecule that the
    run has built. *)
Definition table_of (ls : list string) : result (gmap string (gmap string (Q * Q))) :=
  fst (ShelxlMoleculeM._finalizeDfix 0%nat (snd (run ls))).

Definition field (row col : string) (t : result (gmap string (gmap string (Q * Q))))
    : option (Q * Q) :=
  match t with
  | Ok t => r ← t !! row; r !! col
  | Raise _ => None
  end.

Definition row_size (row : string) (t : result (gmap string (gmap string (Q * Q))))
    : option nat :=
  match t with
  | Ok t => size <$> t !! row
  | Raise _ => None
  end.

(** ** Predicates of the statements *)

(** A matrix entry is -1, 0 or 1. *)
Definition tri (z : Z) : bool := (z =? -1)%Z || (z =? 0)%Z || (z =? 1)%Z.

(** The matrix of an element has three rows, one entry per expression in
    each row, and every entry is -1, 0 or 1. *)
Definition grid_ok (e : SymmetryElement) : bool :=
  (length (se_matrix e) =? 3)%nat &&
  forallb (fun row => (length row =? length (se_symms e))%nat && forallb tri row) (se_matrix e).

(** A three by three matrix with entries -1, 0 or 1. *)
Definition grid9 (e : SymmetryElement) : bool :=
  grid_ok e && (length (se_symms e) =? 3)%nat.

(** From [w] to [w'] no existing element was changed, and every element
    created in between has a well-formed matrix. *)
Definition grows (w w' : World) : Prop :=
  exists new, elements w' = (elements w ++ new)%list /\ forallb grid_ok new = true.

(** The atom [a] was appended to the atoms, or to the peaks, of the current
    molecule between [w] and [w']. *)
Definition registered (a : ShelxlAtom) (w w' : World) : Prop :=
  exists mol m,
    CURRENTMOLECULE w = Some mol /\
    molecules w !! mol = Some m /\
    molecules w' !! mol =
      Some (if at_qPeak a
            then ShelxlMoleculeM.set_qPeaks (mol_qPeaks m ++ [a])%list m
            else ShelxlMoleculeM.set_atoms (mol_atoms m ++ [a])%list m).

(** A computation is safe when every run of it grows the world. *)
Definition safe {A} (c : M A) : Prop := forall w, grows w (snd (c w)).

(** ** The restraint table as a first-filed lookup *)

(** [table[row][col]] when both keys exist. *)
Definition entry (t : gmap string (gmap string (Q * Q))) (row col : string) : option (Q * Q) :=
  r ← t !! row; r !! col.

(** The keys under which [record_pair] files a pair, in the order of the
    two stores. *)
Definition pair_keys (p : string * string) : list (string * string) :=
  [(PyStr.upper (fst p), snd p); (PyStr.upper (snd p), PyStr.upper (fst p))].

(** The first value filed under a key in a list of keyed values. *)
Fixpoint first_filed (k : string * string) (l : list (string * string * (Q * Q)))
    : option (Q * Q) :=
  match l with
  | [] => None
  | (k', v) :: rest => if decide (k' = k) then Some v else first_filed k rest
  end.

(** All keyed values of a list of restraints, in the order in which
    [_finalizeDfix] meets them. *)
Definition restraint_entries (store : list (list (string * string))) (dfixErr : Q)
    (d : Q * option Q * ref) : list (string * string * (Q * Q)) :=
  let '(target, err, pairs) := d in
  let v := (target, ShelxlMoleculeM.effective_err err dfixErr) in
  flat_map (fun p => map (fun k => (k, v)) (pair_keys p))
           (match store !! pairs with Some ps => ps | None => [] end).

(** The consecutive pairs of a list of words; an odd last word is left
    out. *)
Fixpoint chunk2 (l : list string) : list (string * string) :=
  match l with
  | a :: b :: t => (a, b) :: chunk2 t
  | _ => []
  end.

(** Both names of every pair are in upper case already. *)
Definition upper_pairs (ps : list (string * string)) : Prop :=
  Forall (fun p => PyStr.upper (fst p) = fst p /\ PyStr.upper (snd p) = snd p) ps.

(** ** Frame properties

    A computation keeps a relation [R] between worlds when every run of it
    takes [w] to a world related to [w]. *)
Definition keeps (R : World -> World -> Prop) {A} (c : M A) : Prop :=
  forall w, R w (snd (c w)).

(** Nothing outside the symmetry elements changes: the molecules, the
    lists of pairs and the current molecule are the same. *)
Definition same_molecules (w w' : World) : Prop :=
  molecules w' = molecules w /\
  pair_lists w' = pair_lists w /\
  CURRENTMOLECULE w' = CURRENTMOLECULE w.

(** The current molecule is the same and no molecule was created or
    dropped. *)
Definition same_current (w w' : World) : Prop :=
  CURRENTMOLECULE w' = CURRENTMOLECULE w /\
  length (molecules w') = length (molecules w).

(** From [w] to [w'] the labels of the existing elements are the same, and
    the elements created in between carry distinct labels taken from the
    counter values in between. *)
Definition id_step (w w' : World) : Prop :=
  exists ids,
    map se_ID (elements w') = (map se_ID (elements w) ++ ids)%list /\
    NoDup ids /\
    Forall (fun i => symm_ID w <= i < symm_ID w') ids /\
    symm_ID w <= symm_ID w'.

(** Every label is below the counter and no label occurs twice. *)
Definition ids_ok (w : World) : Prop :=
  Forall (fun i => i < symm_ID w) (map se_ID (elements w)) /\
  NoDup (map se_ID (elements w)).

(** The keywords that open a sub-parser. *)
Definition structured_keywords : list (string * kind) :=
  [("CELL", CellParser); ("ZERR", CerrParser); ("SFAC", SfacParser); ("LATT", LattParser);
   ("SYMM", SymmParser); ("DFIX", DfixParser); ("EQIV", EqivParser)].

(** ** More of the line source *)

Module ReaderOps.

(** [remove()]: the reader forgets the inserted file; without one the
    attribute access on [None] raises. *)
Definition remove (rd : Reader) : result Reader :=
  match rd_inserted rd with
  | Some _ => Ok {| rd_fp := rd_fp rd; rd_inserted := None |}
  | None => Raise AttributeError
  end.

(** [fileInserted()]: the truth value of [self.inserted]; a file object is
    true also at its end. *)
Definition fileInserted (rd : Reader) : bool :=
  match rd_inserted rd with
  | Some _ => true
  | None => false
  end.

(** The lines that [readlines] yields when the loop body leaves the reader
    alone, at most [fuel] of them. *)
Fixpoint readlines (fuel : nat) (rd : Reader) : list string :=
  match fuel with
  | O => []
  | S fuel =>
      match ReaderM.next rd with
      | Some (n, rd') => n :: readlines fuel rd'
      | None => []
      end
  end.

(** The lines of the inserted file that are still to be read. *)
Definition pending (rd : Reader) : list string :=
  match rd_inserted rd with
  | Some l => l
  | None => []
  end.

End ReaderOps.

(** ** Scaffolding for the serialized form of an element *)

(** Every character of a string passes a test. *)
Fixpoint all_chars (p : ascii -> bool) (s : string) : bool :=
  match s with
  | EmptyString => true
  | String c t => p c && all_chars p t
  end.

(** The characters of a printed number: digits, the point and the minus
    sign. *)
Definition number_char (c : ascii) : bool :=
  match PyNum.digit c with
  | Some _ => true
  | None => Ascii.eqb c "." || Ascii.eqb c "-"
  end.

Definition digit_only (c : ascii) : bool :=
  match PyNum.digit c with
  | Some _ => true
  | None => false
  end.

(** The row that [_parse_line] reads from an expression, before it turns
    to the translation. *)
Definition row_of (symm : string) : list Z :=
  let symm := PyStr.replace " " "" (PyStr.lower symm) in
  let '(ex, symm) := SymmetryElementM._partition symm "x" in
  let '(ey, symm) := SymmetryElementM._partition symm "y" in
  let '(ez, symm) := SymmetryElementM._partition symm "z" in
  [ex; ey; ez].

(** ** Sanity checks of the Python primitives *)

Example float_ex1 : PyNum.float "1.54" = Ok (77 # 50). Proof. reflexivity. Qed.
Example float_ex2 : PyNum.float ".5" = Ok (1 # 2). Proof. reflexivity. Qed.
Example float_ex3 : PyNum.float "foo" = Raise ValueError. Proof. reflexivity. Qed.
Example float_ex4 : PyNum.float "-1e-2" = Ok (-1 # 100). Proof. reflexivity. Qed.
Example float_ex5 : PyNum.float "1/2" = Raise ValueError. Proof. reflexivity. Qed.
Example str_ex1 : PyNum.str_float (1 # 2) = Ok "0.5". Proof. reflexivity. Qed.
Example str_ex2 : PyNum.str_float (-5 # 4) = Ok "-1.25". Proof. reflexivity. Qed.
Example str_ex3 : PyNum.str_float (100 # 1) = Ok "100.0". Proof. reflexivity. Qed.
Example str_ex4 : PyNum.str_float (1 # 3) = Raise OutOfModel. Proof. reflexivity. Qed.
Example str_ex5 : PyNum.str_float (1 # 200) = Ok "0.005". Proof. reflexivity. Qed.
Example split_ex1 : PyStr.split " a  b c " = ["a"; "b"; "c"]. Proof. reflexivity. Qed.
Example split_ex2 : PyStr.split_on "," "a,,b" = ["a"; ""; "b"]. Proof. reflexivity. Qed.
Example part_ex1 : PyStr.partition "x" "1/2-x" = ("1/2-", "x", ""). Proof. reflexivity. Qed.
Example part_ex2 : PyStr.partition "y" "1/2" = ("1/2", "", ""). Proof. reflexivity. Qed.
Example init_ex1 :
  fst (SymmetryElementM.__init__ ["1/2-X"; "+Y"; "1/2+Z"] false empty_world) = Ok 0%nat.
Proof. reflexivity. Qed.
Example init_ex2 :
  elements (snd (SymmetryElementM.__init__ ["1/2-X"; "+Y"; "1/2+Z"] false empty_world)) =
  [ {| se_symms := ["1/2-X"; "+Y"; "1/2+Z"]; se_ID := 1;
       se_matrix := [[-1;0;0];[0;1;0];[0;0;1]];
       se_trans := [Some (1#2); Some 0%Q; Some (1#2)] |} ].
Proof. reflexivity. Qed.
Example toShelxl_ex1 :
  SymmetryElementM.toShelxl {| se_symms := []; se_ID := 1;
       se_matrix := [[-1;0;0];[0;1;0];[0;0;1]];
       se_trans := [Some (1#2); Some 0%Q; Some (1#2)] |} = Ok "0.5-X, +Y, 0.5+Z".
Proof. reflexivity. Qed.

(** ** The symmetry algebra on concrete expressions *)

(** C6: parsing [1/2-X,+Y,1/2+Z] gives the matrix diag(-1, 1, 1) and the
    translation (1/2, 0, 1/2); the parsed operation serializes to
    [0.5-X, +Y, 0.5+Z], and parsing that text gives the same matrix and
    the same translation. *)
Theorem parse_serialize_reparse :
  let parsed := SymmetryElementM.__init__ (PyStr.split_on "," "1/2-X,+Y,1/2+Z") false empty_world in
  exists e text e',
    fst parsed = Ok 0%nat /\
    elements (snd parsed) !! 0%nat = Some e /\
    se_matrix e = [[-1; 0; 0]; [0; 1; 0]; [0; 0; 1]] /\
    se_trans e = [Some (1 # 2); Some 0%Q; Some (1 # 2)] /\
    SymmetryElementM.toShelxl e = Ok text /\
    text = "0.5-X, +Y, 0.5+Z" /\
    elements (snd (SymmetryElementM.__init__ (PyStr.split_on "," text) false (snd parsed)))
      !! 1%nat = Some e' /\
    se_matrix e' = se_matrix e /\
    se_trans e' = se_trans e.
Proof.
  eexists _, _, _.
  repeat split; try reflexivity.
Qed.

(** ** The geometry engine *)

Section Distance.

Local Open Scope R_scope.

Lemma mod1_integer (z : Z) : Geometry.mod1 (IZR z) = 0.
Proof.
  unfold Geometry.mod1.
  rewrite <- (Int_part_spec (IZR z) z); [ring | lra].
Qed.

Lemma mod1_half (z : Z) : Geometry.mod1 (IZR z + 0.5) = 0.5.
Proof.
  unfold Geometry.mod1.
  rewrite <- (Int_part_spec (IZR z + 0.5) z); [ring | lra].
Qed.

(** On the cubic example only the first term of the sum is not zero, so
    the result does not depend on the values of the cosine. *)
Lemma distance_cubic_any_cosine (cosine : R -> R) (pi : R) :
  Geometry.distance_with cosine pi (10, 10, 10, 90, 90, 90) (0, 0, 0) (0.5, 0, 0) = 5.
Proof.
  unfold Geometry.distance_with.
  replace (0.5 + 99.5 - 0) with (IZR 100) by lra.
  replace (0 + 99.5 - 0) with (IZR 99 + 0.5) by lra.
  rewrite mod1_integer, mod1_half.
  apply sqrt_lem_1; lra.
Qed.


(** The same on the objects of the data model. *)
Lemma molecule_distance_cubic :
  Geometry.molecule_distance
    (ShelxlMoleculeM.set_cell [10; 10; 10; 90; 90; 90]%Q ShelxlMoleculeM.fresh)
    {| at_name := "A"; at_sfac := 1; at_frac := [0; 0; 0]%Q; at_occ := (11, 0)%Q;
       at_adp := []; at_qPeak := false |}
    {| at_name := "B"; at_sfac := 1; at_frac := [1 # 2; 0; 0]%Q; at_occ := (11, 0)%Q;
       at_adp := []; at_qPeak := false |} = Ok 5.
Proof.
  unfold Geometry.molecule_distance. simpl. f_equal.
  unfold Q2R. simpl.
  replace (10 * / 1) with 10 by field.
  replace (90 * / 1) with 90 by field.
  replace (0 * / 1) with 0 by field.
  replace (1 * / 2) with 0.5 by lra.
  apply distance_cubic_any_cosine.
Qed.

End Distance.

(** ** Runs of the parser on concrete files *)

(** C1: [read] runs [finalize] on the molecule and clears
    [CURRENTMOLECULE], but the value it returns is [None]: the populated
    molecule (here with the cell of the CELL line) is left in the heap with
    no reference to it. *)
Theorem read_returns_None :
  let r := run ["CELL 1.54 10 10 10 90 90 90"] in
  fst r = Ok ({| lines := [TokLine "CELL 1.54 10 10 10 90 90 90"]; atoms := [] |}, None) /\
  CURRENTMOLECULE (snd r) = None /\
  mol_cell <$> molecules (snd r) !! 0%nat = Some [10; 10; 10; 90; 90; 90]%Q /\
  mol_waveLength <$> molecules (snd r) !! 0%nat = Some (Some (77 # 50)).
Proof. vm_compute. repeat split; reflexivity. Qed.

(** C3: a CELL body that ends in [=] is kept open, but the next line is not
    appended to it: the finisher runs on the four numbers of the first line
    (wavelength 1.54 and three cell values) and the second line comes back
    as a raw text token. An atom record split the same way is joined. *)
Theorem cell_continuation_not_joined :
  let r := run ["CELL 1.54 10 10 10="; " 90 90 90"] in
  fst r = Ok ({| lines := [TokStr (" 90 90 90" ++ nl)]; atoms := [] |}, None) /\
  mol_cell <$> molecules (snd r) !! 0%nat = Some [10; 10; 10]%Q /\
  mol_waveLength <$> molecules (snd r) !! 0%nat = Some (Some (77 # 50)) /\
  let r' := run ["C1 1 0.1 0.2 0.3 11.0="; " 0.05"] in
  map at_adp <$> (mol_atoms <$> molecules (snd r') !! 0%nat) = Some [[1 # 20]].
Proof. vm_compute. repeat split; reflexivity. Qed.

(** C4: with one lattice translation (LATT 2) and the centrosymmetric flag
    set, SYMM X,Y,Z appends four operations; the fourth is again the
    translated copy of the parsed element (matrix +1), not a translated
    copy of the negated element (matrix -1). With no lattice translation
    (LATT 1) the instruction yields exactly the operation and its
    negation. *)
Theorem addSymm_centric_copies :
  operations (snd (run ["LATT 2"; "SYMM X,Y,Z"])) =
    Some [ ([[1; 0; 0]; [0; 1; 0]; [0; 0; 1]], [Some 0; Some 0; Some 0]%Q);
           ([[1; 0; 0]; [0; 1; 0]; [0; 0; 1]], [Some (1 # 2); Some (1 # 2); Some (1 # 2)]);
           ([[-1; 0; 0]; [0; -1; 0]; [0; 0; -1]], [Some 0; Some 0; Some 0]%Q);
           ([[1; 0; 0]; [0; 1; 0]; [0; 0; 1]], [Some (1 # 2); Some (1 # 2); Some (1 # 2)]) ] /\
  operations (snd (run ["LATT 1"; "SYMM X,Y,Z"])) =
    Some [ ([[1; 0; 0]; [0; 1; 0]; [0; 0; 1]], [Some 0; Some 0; Some 0]%Q);
           ([[-1; 0; 0]; [0; -1; 0]; [0; 0; -1]], [Some 0; Some 0; Some 0]%Q) ].
Proof. vm_compute. split; reflexivity. Qed.

(** C5: the lattice-translated copy of -Y,X,Z by (1/2, 1/2, 1/2) has the
    sum of the translations and leaves the original as it was, but its
    matrix is the transpose of the original matrix: [toShelxl] writes row
    [i] of the stored matrix as expression [i], while the constructor
    stores the expressions as columns. *)
Theorem applyLattSymm_transposes :
  let w0 := snd (SymmetryElementM.__init__ ["-Y"; "X"; "Z"] false initial_world) in
  let r := SymmetryElementM.applyLattSymm 7%nat 0%nat w0 in
  fst r = Ok 8%nat /\
  se_matrix <$> elements w0 !! 7%nat = Some [[0; 1; 0]; [-1; 0; 0]; [0; 0; 1]] /\
  se_matrix <$> elements (snd r) !! 8%nat = Some [[0; -1; 0]; [1; 0; 0]; [0; 0; 1]] /\
  se_trans <$> elements (snd r) !! 8%nat = Some [Some (1 # 2); Some (1 # 2); Some (1 # 2)] /\
  elements (snd r) !! 7%nat = elements w0 !! 7%nat.
Proof. vm_compute. repeat split; reflexivity. Qed.

(** C8: two restraints on the pair c1, c2 written in lower case, the second
    with the names in the other order: the second field key of a pair is
    used before it is put in upper case, so the rows of C1 and C2 hold the
    first target 1.5 under one spelling and the later target 1.6 under the
    other. With the names in upper case only the first target is kept. *)
Theorem dfix_later_value_retained :
  let t := table_of ["DFIX 1.5 c1 c2"; "DFIX 1.6 c2 c1"] in
  field "C1" "c2" t = Some (3 # 2, 1 # 50) /\
  field "C1" "C2" t = Some (8 # 5, 1 # 50) /\
  field "C2" "C1" t = Some (3 # 2, 1 # 50) /\
  field "C2" "c1" t = Some (8 # 5, 1 # 50) /\
  let t' := table_of ["DFIX 1.5 C1 C2"; "DFIX 1.6 C2 C1"] in
  field "C1" "C2" t' = Some (3 # 2, 1 # 50) /\
  field "C2" "C1" t' = Some (3 # 2, 1 # 50) /\
  row_size "C1" t' = Some 1%nat /\
  row_size "C2" t' = Some 1%nat.
Proof. vm_compute. repeat split; reflexivity. Qed.

(** C2, as stated, fails: the keyword XYZZ is in no entry of the table, the
    line is handed to the atom parser, [float('foo')] raises and the run
    ends there; the CELL line after it is never read. *)
Lemma unknown_keyword_aborts :
  LineParserM.COMMANDS !! "XYZZ" = None /\
  fst (LineParserM.__call__ "XYZZ foo bar" parsing_world) = Raise ValueError /\
  let r := run ["XYZZ foo bar"; "CELL 1.54 10 10 10 90 90 90"] in
  fst r = Raise ValueError /\
  mol_cell <$> molecules (snd r) !! 0%nat = Some [].
Proof. vm_compute. repeat split; reflexivity. Qed.

(** C7, as stated, fails for a second lattice-type instruction: after
    LATT 1 the instruction LATT -1 has a negative N, and the flag is still
    set. *)
Lemma latt_negative_keeps_flag :
  let r := run ["LATT 1"; "LATT -1"] in
  fst r = Ok ({| lines := [TokLine "LATT 1"; TokLine "LATT -1"]; atoms := [] |}, None) /\
  mol_centric <$> molecules (snd r) !! 0%nat = Some true.
Proof. vm_compute. split; reflexivity. Qed.

(** ** The monad *)

Lemma bind_Ok {A B} (c : M A) (k : A -> M B) w a w1 :
  c w = (Ok a, w1) -> bind c k w = k a w1.
Proof. intros H. unfold bind. now rewrite H. Qed.

Lemma bind_Raise {A B} (c : M A) (k : A -> M B) w e w1 :
  c w = (Raise e, w1) -> bind c k w = (Raise e, w1).
Proof. intros H. unfold bind. now rewrite H. Qed.

Lemma bind_assoc {A B C} (c : M A) (k : A -> M B) (h : B -> M C) w :
  bind (bind c k) h w = bind c (fun a => bind (k a) h) w.
Proof. unfold bind. destruct (c w) as [[a|e] w1]; reflexivity. Qed.

Lemma update_Ok (self : ref) f w m :
  molecules w !! self = Some m ->
  ShelxlMoleculeM.update self f w =
    (Ok tt, with_molecules (<[self := f m]> (molecules w)) w).
Proof. intros H. unfold ShelxlMoleculeM.update. now rewrite H. Qed.

Lemma current_Ok w mol : CURRENTMOLECULE w = Some mol -> current w = (Ok mol, w).
Proof. intros H. unfold current. now rewrite H. Qed.

(** ** The lattice-type instruction *)

Lemma LATTDICT_sizes :
  map (fun n => length <$> LATTDICT !! n) [1; 2; 3; 4; 5; 6; 7] =
  map Some [0; 1; 0; 3; 1; 1; 1]%nat.
Proof. vm_compute. reflexivity. Qed.

Lemma latt_number_examples :
  map Parsers.latt_number
      ["LATT 1"; "LATT 2"; "LATT 3"; "LATT 4"; "LATT 5"; "LATT 6"; "LATT 7";
       "LATT -1"; "LATT -2"; "LATT -3"; "LATT -4"; "LATT -5"; "LATT -6"; "LATT -7"] =
  map Ok [1; 2; 3; 4; 5; 6; 7; -1; -2; -3; -4; -5; -6; -7].
Proof. vm_compute. reflexivity. Qed.

(** The finisher of a lattice-type instruction, run on a world with a
    current molecule. *)
Lemma latt_run (body : string) (N : Z) ops (w : World) (mol : ref) (m : ShelxlMolecule) :
  Parsers.latt_number body = Ok N ->
  LATTDICT !! Z.abs N = Some ops ->
  CURRENTMOLECULE w = Some mol ->
  molecules w !! mol = Some m ->
  Parsers.latt_finished body w =
    (Ok tt,
     with_molecules
       (<[mol := ShelxlMoleculeM.set_lattOps ops
                   (if (0 <? N)%Z then ShelxlMoleculeM.set_centric true m else m)]>
          (molecules w)) w).
Proof.
  intros HN HL Hcur Hm.
  assert (Hlt : (mol < length (molecules w))%nat) by (eapply lookup_lt_Some; eauto).
  unfold Parsers.latt_finished, ShelxlMoleculeM.setCentric, ShelxlMoleculeM.setLattOps.
  rewrite (bind_Ok _ _ w N w) by (unfold lift; now rewrite HN).
  rewrite HL.
  destruct w as [sid els pls mols cur]; cbn in Hcur, Hm, Hlt; subst cur.
  destruct (0 <? N)%Z;
    unfold bind, lift, ret, current, ShelxlMoleculeM.update, with_molecules; cbn;
    rewrite Hm; cbn.
  - rewrite list_lookup_insert_eq by lia. cbn.
    rewrite list_insert_insert_eq. reflexivity.
  - reflexivity.
Qed.

(** C7, amended: for a lattice-type instruction with number [N],
    [1 <= |N| <= 7], the finisher registers the table entry of [|N|], whose
    sizes for 1..7 are 0, 1, 0, 3, 1, 1, 1; it sets the centrosymmetric
    flag when [N] is positive and leaves the flag as it was when [N] is
    negative. *)
Theorem latt_finished_effect (body : string) (N : Z) (w : World) (mol : ref)
    (m : ShelxlMolecule) :
  Parsers.latt_number body = Ok N ->
  1 <= Z.abs N <= 7 ->
  CURRENTMOLECULE w = Some mol ->
  molecules w !! mol = Some m ->
  exists ops m',
    LATTDICT !! Z.abs N = Some ops /\
    Some (length ops) = [0; 1; 0; 3; 1; 1; 1]%nat !! (Z.to_nat (Z.abs N) - 1)%nat /\
    fst (Parsers.latt_finished body w) = Ok tt /\
    molecules (snd (Parsers.latt_finished body w)) !! mol = Some m' /\
    mol_lattOps m' = ops /\
    mol_centric m' = ((0 <? N) || mol_centric m).
Proof.
  intros HN Habs Hcur Hm.
  assert (Hlt : (mol < length (molecules w))%nat) by (eapply lookup_lt_Some; eauto).
  assert (Hcases : N = 1 \/ N = 2 \/ N = 3 \/ N = 4 \/ N = 5 \/ N = 6 \/ N = 7 \/
                   N = -1 \/ N = -2 \/ N = -3 \/ N = -4 \/ N = -5 \/ N = -6 \/ N = -7)
    by lia.
  assert (Htable : exists ops, LATTDICT !! Z.abs N = Some ops /\
            Some (length ops) = [0; 1; 0; 3; 1; 1; 1]%nat !! (Z.to_nat (Z.abs N) - 1)%nat).
  { repeat (destruct Hcases as [-> | Hcases]); try subst N;
      (eexists; split; [vm_compute; reflexivity | reflexivity]). }
  destruct Htable as (ops & HL & Hlen).
  exists ops. eexists. split; [exact HL |]. split; [exact Hlen |].
  rewrite (latt_run body N ops w mol m HN HL Hcur Hm). cbn [fst snd].
  split; [reflexivity |].
  split; [unfold with_molecules; cbn [molecules]; apply list_lookup_insert_eq; exact Hlt |].
  split; [reflexivity |].
  destruct (0 <? N); reflexivity.
Qed.

(** A witness: LATT -2 in the world of a parse that has read nothing. *)
Lemma latt_finished_effect_witness :
  (Parsers.latt_number "LATT -2" = Ok (-2) /\
   1 <= Z.abs (-2) <= 7 /\
   CURRENTMOLECULE parsing_world = Some 0%nat /\
   molecules parsing_world !! 0%nat = Some ShelxlMoleculeM.fresh) /\
  exists ops m',
    LATTDICT !! Z.abs (-2) = Some ops /\
    Some (length ops) = [0; 1; 0; 3; 1; 1; 1]%nat !! (Z.to_nat (Z.abs (-2)) - 1)%nat /\
    fst (Parsers.latt_finished "LATT -2" parsing_world) = Ok tt /\
    molecules (snd (Parsers.latt_finished "LATT -2" parsing_world)) !! 0%nat = Some m' /\
    mol_lattOps m' = ops /\
    mol_centric m' = ((0 <? -2) || mol_centric ShelxlMoleculeM.fresh).
Proof.
  assert (H1 : Parsers.latt_number "LATT -2" = Ok (-2)) by (vm_compute; reflexivity).
  assert (H2 : 1 <= Z.abs (-2) <= 7) by (simpl; lia).
  assert (H3 : CURRENTMOLECULE parsing_world = Some 0%nat) by reflexivity.
  assert (H4 : molecules parsing_world !! 0%nat = Some ShelxlMoleculeM.fresh) by reflexivity.
  split; [repeat split; assumption || apply H2 |].
  exact (latt_finished_effect "LATT -2" (-2) parsing_world 0%nat ShelxlMoleculeM.fresh
           H1 H2 H3 H4).
Defined.

(** ** Unknown keywords *)

Lemma lift_bind {A B} (r : result A) (k : A -> M B) w :
  bind (lift r) k w = match r with Ok a => k a w | Raise e => (Raise e, w) end.
Proof. unfold bind, lift. destruct r; reflexivity. Qed.

(** The constructor of an atom either registers the atom with the current
    molecule or raises and leaves the world as it was. *)
Lemma atom_init_outcome (line : string) (w : World) :
  match ShelxlAtomM.__init__ line w with
  | (Ok a, w') => registered a w w'
  | (Raise e, w') => w' = w
  end.
Proof.
  unfold ShelxlAtomM.__init__.
  repeat (rewrite lift_bind;
          match goal with
          | |- context [match ?r with Ok _ => _ | Raise _ => _ end] =>
              destruct r; [| reflexivity]
          end).
  match goal with |- context [if ?b then _ else _] => destruct b end.
  all: unfold bind at 1; unfold current;
    destruct (CURRENTMOLECULE w) as [mol|] eqn:Hcur; [| reflexivity];
    unfold bind, ShelxlMoleculeM.addQPeak, ShelxlMoleculeM.addAtom, ShelxlMoleculeM.update;
    destruct (molecules w !! mol) as [m|] eqn:Hm; [| reflexivity];
    cbn; exists mol, m; repeat split; try assumption;
    apply list_lookup_insert_eq; eapply lookup_lt_Some; eauto.
Qed.

(** C2, amended: a non-empty line that does not start with a space and
    whose keyword is in no entry of the table is handed to the atom parser.
    If the line ends in [=] the atom parser stays open and nothing else
    happens. Otherwise the outcome is that of building an atom from the
    line: an atom token, with the atom appended to the atoms or the peaks
    of the current molecule, or an exception, which ends the parse and
    leaves the world as it was. No inert token is produced. *)
Theorem unknown_keyword_is_atom_record (line : string) (w : World) :
  let l := PyStr.rstrip_char "010" line in
  PyStr.is_empty l = false ->
  PyStr.head l <> Some " "%char ->
  LineParserM.COMMANDS !! PyStr.rstrip (PyStr.take 4 l) = None ->
  match LineParserM.__call__ line w with
  | (Ok (p, tok), w') =>
      (PyStr.endswith "=" l = true /\ p = Sub AtomParser (PyStr.init l) /\
       tok = TokNone /\ w' = w) \/
      (PyStr.endswith "=" l = false /\ p = LineParser /\
       exists a, tok = TokAtom a /\ ShelxlAtomM.__init__ l w = (Ok a, w') /\
                 registered a w w')
  | (Raise e, w') =>
      PyStr.endswith "=" l = false /\ ShelxlAtomM.__init__ l w = (Raise e, w') /\ w' = w
  end.
Proof.
  intros l Hne Hsp Hkey.
  unfold LineParserM.__call__. fold l. rewrite Hne.
  assert (Hhead : match PyStr.head (PyStr.take 4 l) with
                  | Some c => Ascii.eqb c " "
                  | None => false
                  end = false).
  { destruct l as [| c t]; [reflexivity |]. cbn.
    destruct (Ascii.eqb_spec c " "); [| reflexivity].
    subst c. exfalso. apply Hsp. reflexivity. }
  rewrite Hhead, Hkey.
  unfold Parsers.get.
  destruct (PyStr.endswith "=" l) eqn:He; cbn [negb].
  - left. repeat split; reflexivity.
  - cbn [Parsers.finished Parsers.RETURNTYPE].
    pose proof (atom_init_outcome l w) as Hat.
    unfold bind, ret.
    destruct (ShelxlAtomM.__init__ l w) as [[a | e] w'].
    + right. repeat split; try reflexivity. exists a. repeat split; auto.
    + repeat split; auto.
Qed.

(** A witness: an atom record named C1, in the world of a parse that has
    read nothing. *)
Lemma unknown_keyword_is_atom_record_witness :
  let line := "C1 1 0.1 0.2 0.3 11.0 0.05" ++ nl in
  let l := PyStr.rstrip_char "010" line in
  (PyStr.is_empty l = false /\
   PyStr.head l <> Some " "%char /\
   LineParserM.COMMANDS !! PyStr.rstrip (PyStr.take 4 l) = None) /\
  match LineParserM.__call__ line parsing_world with
  | (Ok (p, tok), w') =>
      (PyStr.endswith "=" l = true /\ p = Sub AtomParser (PyStr.init l) /\
       tok = TokNone /\ w' = parsing_world) \/
      (PyStr.endswith "=" l = false /\ p = LineParser /\
       exists a, tok = TokAtom a /\ ShelxlAtomM.__init__ l parsing_world = (Ok a, w') /\
                 registered a parsing_world w')
  | (Raise e, w') =>
      PyStr.endswith "=" l = false /\ ShelxlAtomM.__init__ l parsing_world = (Raise e, w') /\
      w' = parsing_world
  end.
Proof.
  intros line l.
  assert (H1 : PyStr.is_empty l = false) by reflexivity.
  assert (H2 : PyStr.head l <> Some " "%char) by (vm_compute; discriminate).
  assert (H3 : LineParserM.COMMANDS !! PyStr.rstrip (PyStr.take 4 l) = None)
    by (vm_compute; reflexivity).
  split; [repeat split; assumption |].
  exact (unknown_keyword_is_atom_record line parsing_world H1 H2 H3).
Defined.

(** ** Symmetry elements are well formed and never changed *)

Lemma grows_refl w : grows w w.
Proof. exists []. split; [now rewrite app_nil_r | reflexivity]. Qed.

Lemma grows_trans w1 w2 w3 : grows w1 w2 -> grows w2 w3 -> grows w1 w3.
Proof.
  intros (n1 & E1 & G1) (n2 & E2 & G2).
  exists (n1 ++ n2)%list. split.
  - rewrite E2, E1. now rewrite <- app_assoc.
  - rewrite forallb_app, G1, G2. reflexivity.
Qed.

Lemma grows_same w w' : elements w' = elements w -> grows w w'.
Proof. intros E. exists []. split; [now rewrite app_nil_r | reflexivity]. Qed.

Lemma safe_ret {A} (a : A) : safe (ret a).
Proof. intros w. apply grows_refl. Qed.

Lemma safe_raise {A} e : safe (@raise A e).
Proof. intros w. apply grows_refl. Qed.

Lemma safe_lift {A} (r : result A) : safe (lift r).
Proof. intros w. apply grows_refl. Qed.

Lemma safe_bind {A B} (c : M A) (k : A -> M B) :
  safe c -> (forall a, safe (k a)) -> safe (bind c k).
Proof.
  intros Hc Hk w. unfold bind.
  specialize (Hc w). destruct (c w) as [[a | e] w1]; cbn in *.
  - eapply grows_trans; [exact Hc | apply Hk].
  - exact Hc.
Qed.

Lemma safe_try_except {A} (c h : M A) e : safe c -> safe h -> safe (try_except c e h).
Proof.
  intros Hc Hh w. unfold try_except.
  specialize (Hc w). destruct (c w) as [[a | e'] w1]; cbn in *.
  - exact Hc.
  - destruct (decide (e' = e)); cbn.
    + eapply grows_trans; [exact Hc | apply Hh].
    + exact Hc.
Qed.

Lemma safe_for_each {A} (l : list A) (body : A -> M unit) :
  (forall a, safe (body a)) -> safe (for_each l body).
Proof.
  intros Hb. induction l as [| x t IH]; cbn.
  - apply safe_ret.
  - apply safe_bind; [apply Hb | intros _; exact IH].
Qed.

Ltac safe_same :=
  let w := fresh "w" in
  intros w; apply grows_same;
  repeat match goal with
         | |- context [match ?x with _ => _ end] => destruct x
         end; reflexivity.

Lemma safe_fresh_ID : safe SymmetryElementM.fresh_ID.
Proof. safe_same. Qed.
Lemma safe_deref r : safe (SymmetryElementM.deref r).
Proof. unfold SymmetryElementM.deref. safe_same. Qed.
Lemma safe_load r : safe (ShelxlMoleculeM.load r).
Proof. unfold ShelxlMoleculeM.load. safe_same. Qed.
Lemma safe_update r f : safe (ShelxlMoleculeM.update r f).
Proof. unfold ShelxlMoleculeM.update. safe_same. Qed.
Lemma safe_mol_init : safe ShelxlMoleculeM.__init__.
Proof. safe_same. Qed.
Lemma safe_load_pairs r : safe (ShelxlMoleculeM.load_pairs r).
Proof. unfold ShelxlMoleculeM.load_pairs. safe_same. Qed.
Lemma safe_current : safe current.
Proof. unfold current. safe_same. Qed.
Lemma safe_set_current v : safe (set_current v).
Proof. safe_same. Qed.
Lemma safe_get_world : safe get_world.
Proof. safe_same. Qed.
Lemma safe_new_pairs : safe Parsers.new_pairs.
Proof. safe_same. Qed.
Lemma safe_append_pair r p : safe (Parsers.append_pair r p).
Proof. unfold Parsers.append_pair. safe_same. Qed.

(** *** Matrix entries *)
Lemma tri_opp z : tri (- z) = tri z.
Proof.
  unfold tri.
  destruct (Z.eqb_spec z (-1)), (Z.eqb_spec z 0), (Z.eqb_spec z 1); subst; try reflexivity;
  destruct (Z.eqb_spec (- z) (-1)), (Z.eqb_spec (- z) 0), (Z.eqb_spec (- z) 1); try reflexivity; lia.
Qed.

Lemma partition_tri s c : tri (fst (SymmetryElementM._partition s c)) = true.
Proof.
  unfold SymmetryElementM._partition.
  destruct (PyStr.partition c s) as [[p0 p1] p2].
  destruct (negb (PyStr.is_empty p1)); [| reflexivity].
  destruct (Ascii.eqb _ "-"); reflexivity.
Qed.

Lemma parse_line_ok s (p : list Z * option Q) :
  SymmetryElementM._parse_line s = Ok p ->
  length (fst p) = 3%nat /\ forallb tri (fst p) = true.
Proof.
  unfold SymmetryElementM._parse_line.
  set (s0 := PyStr.replace " " "" (PyStr.lower s)).
  pose proof (partition_tri s0 "x") as Hx.
  destruct (SymmetryElementM._partition s0 "x") as [ex s1].
  pose proof (partition_tri s1 "y") as Hy.
  destruct (SymmetryElementM._partition s1 "y") as [ey s2].
  pose proof (partition_tri s2 "z") as Hz.
  destruct (SymmetryElementM._partition s2 "z") as [ez s3].
  cbn in Hx, Hy, Hz.
  assert (Hl : forall t : option Q,
             length (fst ([ex; ey; ez], t)) = 3%nat /\
             forallb tri (fst ([ex; ey; ez], t)) = true).
  { intros t. split; [reflexivity |]. cbn. now rewrite Hx, Hy, Hz. }
  destruct (negb (PyStr.is_empty s3)).
  - destruct (SymmetryElementM._float s3); cbn; intros H; inversion H; subst; apply Hl.
  - intros H; inversion H; subst; apply Hl.
Qed.

Lemma rmap_Ok_Forall2 {A B} (f : A -> result B) l l' :
  rmap f l = Ok l' -> Forall2 (fun a b => f a = Ok b) l l'.
Proof.
  revert l'. induction l as [| x t IH]; cbn; intros l' H.
  - inversion H. constructor.
  - destruct (f x) eqn:Hx; cbn in H; [| discriminate].
    destruct (rmap f t) eqn:Ht; cbn in H; [| discriminate].
    inversion H; subst. constructor; auto.
Qed.

Lemma column_ok (lines : list (list Z)) j :
  Forall (fun l => length l = 3%nat /\ forallb tri l = true) lines ->
  forallb tri (SymmetryElementM.column lines j) = true.
Proof.
  intros H. unfold SymmetryElementM.column.
  induction H as [| l t [Hlen Htri] _ IH]; [reflexivity |].
  cbn. rewrite IH, andb_true_r.
  destruct l as [| a [| b [| c [| ? ?]]]]; try discriminate.
  cbn in Htri. apply andb_prop in Htri as [Ha Htri]. apply andb_prop in Htri as [Hb Htri].
  apply andb_prop in Htri as [Hc _].
  destruct j as [| [| [| j]]]; cbn; auto.
  destruct j; reflexivity.
Qed.

Lemma column_length (lines : list (list Z)) j :
  length (SymmetryElementM.column lines j) = length lines.
Proof. unfold SymmetryElementM.column. apply length_map. Qed.

Lemma forallb_tri_opp l : forallb tri (map Z.opp l) = forallb tri l.
Proof. induction l; cbn; [reflexivity |]. now rewrite tri_opp, IHl. Qed.

(** The constructor appends one well-formed element and changes nothing
    else in the list of elements, or raises and appends nothing. *)
Lemma init_outcome symms centric w :
  match SymmetryElementM.__init__ symms centric w with
  | (Ok r, w') =>
      r = length (elements w) /\
      exists e, elements w' = (elements w ++ [e])%list /\ grid_ok e = true /\
                se_symms e = symms
  | (Raise _, w') => elements w' = elements w
  end.
Proof.
  unfold SymmetryElementM.__init__.
  unfold bind at 1. cbn [SymmetryElementM.fresh_ID].
  rewrite lift_bind.
  destruct (rmap SymmetryElementM._parse_line symms) as [parsed |] eqn:Hp; [| reflexivity].
  apply rmap_Ok_Forall2 in Hp.
  assert (Hlen : length parsed = length symms) by (symmetry; eapply Forall2_length; eauto).
  assert (Hlines : Forall (fun l => length l = 3%nat /\ forallb tri l = true) (map fst parsed)).
  { apply Forall_map. eapply Forall2_Forall_r; [exact Hp |].
    apply Forall_forall. intros x _ y Hy. eapply parse_line_ok; eauto. }
  assert (Hgrid : forall t,
             grid_ok {| se_symms := symms; se_ID := symm_ID w;
                        se_matrix := SymmetryElementM.transpose (map fst parsed);
                        se_trans := t |} = true).
  { intros t. unfold grid_ok, SymmetryElementM.transpose. cbn.
    rewrite !column_length, length_map, Hlen, Nat.eqb_refl.
    rewrite !column_ok by exact Hlines. reflexivity. }
  assert (Hgridn : forall t,
             grid_ok {| se_symms := symms; se_ID := symm_ID w;
                        se_matrix := map (map Z.opp)
                                         (SymmetryElementM.transpose (map fst parsed));
                        se_trans := t |} = true).
  { intros t. unfold grid_ok, SymmetryElementM.transpose. cbn.
    rewrite !length_map, !column_length, length_map, Hlen, Nat.eqb_refl.
    rewrite !forallb_tri_opp, !column_ok by exact Hlines. reflexivity. }
  destruct centric.
  - rewrite lift_bind.
    destruct (SymmetryElementM.negate_trans (map snd parsed)); [| reflexivity].
    cbn. split; [reflexivity |]. eexists. split; [reflexivity |]. split; [apply Hgridn | reflexivity].
  - cbn. split; [reflexivity |]. eexists. split; [reflexivity |]. split; [apply Hgrid | reflexivity].
Qed.

Lemma grid_ok_with_trans t e : grid_ok (SymmetryElementM.with_trans t e) = grid_ok e.
Proof. reflexivity. Qed.

Lemma deref_run r w :
  SymmetryElementM.deref r w =
  match elements w !! r with Some e => (Ok e, w) | None => (Raise OutOfModel, w) end.
Proof. reflexivity. Qed.

Lemma applyLattSymm_outcome self latt w :
  match SymmetryElementM.applyLattSymm self latt w with
  | (Ok r, w') =>
      r = length (elements w) /\
      exists e0 text e,
        elements w !! self = Some e0 /\
        SymmetryElementM.toShelxl e0 = Ok text /\
        elements w' = (elements w ++ [e])%list /\
        grid_ok e = true /\
        se_symms e = PyStr.split_on "," text
  | (Raise _, w') => grows w w'
  end.
Proof.
  unfold SymmetryElementM.applyLattSymm.
  unfold bind at 1. rewrite deref_run.
  destruct (elements w !! self) as [e0 |] eqn:He0; [| apply grows_refl].
  rewrite lift_bind.
  destruct (SymmetryElementM.toShelxl e0) as [text |] eqn:Htext; [| apply grows_refl].
  unfold bind at 1.
  pose proof (init_outcome (PyStr.split_on "," text) false w) as Hinit.
  destruct (SymmetryElementM.__init__ (PyStr.split_on "," text) false w) as [[r | err] w1].
  2:{ apply grows_same. exact Hinit. }
  destruct Hinit as (-> & e & Hel & Hgrid & Hsym).
  assert (Hgrow1 : grows w w1).
  { exists [e]. split; [exact Hel |]. cbn. now rewrite Hgrid. }
  unfold bind at 1. rewrite deref_run.
  destruct (elements w1 !! self) as [e1 |]; [| exact Hgrow1].
  unfold bind at 1. rewrite deref_run.
  destruct (elements w1 !! latt) as [l1 |]; [| exact Hgrow1].
  repeat (rewrite lift_bind;
          match goal with
          | |- context [match ?r with Ok _ => _ | Raise _ => _ end] =>
              destruct r; [| exact Hgrow1]
          end).
  unfold bind, SymmetryElementM.set_trans, ret.
  assert (Hlook : elements w1 !! length (elements w) = Some e).
  { rewrite Hel. apply list_lookup_middle. reflexivity. }
  unfold ref in *. rewrite Hlook. cbn.
  split; [reflexivity |].
  exists e0, text. eexists. split; [reflexivity |]. split; [exact Htext |].
  split; [| split].
  - rewrite Hel. rewrite insert_app_r_alt by lia.
    rewrite Nat.sub_diag. cbn. reflexivity.
  - exact Hgrid.
  - exact Hsym.
Qed.

Lemma safe_init symms centric : safe (SymmetryElementM.__init__ symms centric).
Proof.
  intros w. pose proof (init_outcome symms centric w) as H.
  destruct (SymmetryElementM.__init__ symms centric w) as [[r | e] w']; cbn.
  - destruct H as (_ & e & Hel & Hg & _). exists [e]. split; [exact Hel |]. cbn. now rewrite Hg.
  - apply grows_same. exact H.
Qed.

Lemma safe_applyLattSymm self latt : safe (SymmetryElementM.applyLattSymm self latt).
Proof.
  intros w. pose proof (applyLattSymm_outcome self latt w) as H.
  destruct (SymmetryElementM.applyLattSymm self latt w) as [[r | e] w']; cbn.
  - destruct H as (_ & e0 & text & e & _ & _ & Hel & Hg & _).
    exists [e]. split; [exact Hel |]. cbn. now rewrite Hg.
  - exact H.
Qed.

Create HintDb safe.
#[local] Hint Resolve safe_ret safe_raise safe_lift safe_fresh_ID safe_deref safe_load
  safe_update safe_mol_init safe_load_pairs safe_current safe_set_current safe_get_world
  safe_new_pairs safe_append_pair safe_init safe_applyLattSymm : safe.

Ltac safe_step :=
  first
    [ solve [auto with safe]
    | apply safe_bind; [| intros ?]
    | apply safe_try_except
    | apply safe_for_each; intros ?
    | match goal with
      | |- safe (if ?b then _ else _) => destruct b
      | |- safe (match ?x with _ => _ end) => destruct x
      end ].

Ltac safe_auto := repeat safe_step.

Lemma safe_addSymm self symmData : safe (ShelxlMoleculeM.addSymm self symmData).
Proof.
  unfold ShelxlMoleculeM.addSymm, ShelxlMoleculeM.append_symm. safe_auto.
Qed.

Lemma safe_addEqiv self name data : safe (ShelxlMoleculeM.addEqiv self name data).
Proof. unfold ShelxlMoleculeM.addEqiv. safe_auto. Qed.

Lemma safe_finalizeDfix_loop e l t : safe (ShelxlMoleculeM._finalizeDfix_loop e l t).
Proof.
  revert t. induction l as [| [[target err] pairs] rest IH]; intros t; cbn.
  - apply safe_ret.
  - apply safe_bind; [auto with safe | intros ps; apply IH].
Qed.

Lemma safe_finalize self : safe (ShelxlMoleculeM.finalize self).
Proof.
  unfold ShelxlMoleculeM.finalize, ShelxlMoleculeM._finalizeDfix.
  apply safe_bind; [| intros; apply safe_ret].
  apply safe_bind; [auto with safe | intros; apply safe_finalizeDfix_loop].
Qed.

Lemma safe_atom_init line : safe (ShelxlAtomM.__init__ line).
Proof.
  unfold ShelxlAtomM.__init__, ShelxlMoleculeM.addQPeak, ShelxlMoleculeM.addAtom. safe_auto.
Qed.

Lemma safe_dfix_loop value err pairs data idx : safe (Parsers.dfix_loop value err pairs data idx).
Proof.
  induction idx as [| i rest IH]; cbn.
  - apply safe_ret.
  - unfold ShelxlMoleculeM.addDfix.
    repeat (apply safe_bind; [solve [auto with safe] | intros ?]). exact IH.
Qed.

Lemma safe_finished k body : safe (Parsers.finished k body).
Proof.
  destruct k; cbn [Parsers.finished];
    unfold Parsers.cell_finished, Parsers.cerr_finished, Parsers.sfac_finished,
      Parsers.latt_finished, Parsers.symm_finished, Parsers.dfix_finished,
      Parsers.eqiv_finished, ShelxlMoleculeM.setCell, ShelxlMoleculeM.setWavelength,
      ShelxlMoleculeM.setCerr, ShelxlMoleculeM.setZ, ShelxlMoleculeM.addSfac,
      ShelxlMoleculeM.addCustomSfac, ShelxlMoleculeM.setCentric, ShelxlMoleculeM.setLattOps.
  all: try solve [safe_auto].
  all: repeat first [ apply safe_addSymm | apply safe_addEqiv | apply safe_dfix_loop | safe_step ].
Qed.

Lemma safe_RETURNTYPE k body : safe (Parsers.RETURNTYPE k body).
Proof.
  destruct k; cbn; try apply safe_ret.
  apply safe_bind; [apply safe_atom_init | intros; apply safe_ret].
Qed.

Lemma safe_get k body p : safe (Parsers.get k body p).
Proof.
  unfold Parsers.get. destruct (negb _); [| apply safe_ret].
  apply safe_bind; [apply safe_finished | intros _].
  apply safe_bind; [apply safe_RETURNTYPE | intros; apply safe_ret].
Qed.

Lemma safe_line_call line : safe (LineParserM.__call__ line).
Proof.
  unfold LineParserM.__call__, LineParserM.do_nothing.
  destruct (PyStr.is_empty _); [apply safe_ret |].
  destruct (match PyStr.head _ with Some _ => _ | None => _ end); [apply safe_ret |].
  destruct (LineParserM.COMMANDS !! _) as [[| k] |].
  - apply safe_ret.
  - apply safe_try_except; apply safe_get.
  - apply safe_get.
Qed.

Lemma safe_call p line : safe (call p line).
Proof.
  destruct p as [| k body]; cbn.
  - apply safe_line_call.
  - destruct k;
      first [ apply safe_bind; [apply safe_atom_init | intros; apply safe_ret]
            | apply safe_bind; [apply safe_finished | intros; apply safe_ret] ].
Qed.

Lemma safe_read_loop fuel files rd p acc : safe (ShelxlParserM.read_loop fuel files rd p acc).
Proof.
  revert rd p acc. induction fuel as [| fuel IH]; intros rd p acc; cbn.
  - destruct (ReaderM.next rd) as [[line rd'] |]; [apply safe_raise | apply safe_ret].
  - destruct (ReaderM.next rd) as [[line rd'] |]; [| apply safe_ret].
    apply safe_bind; [apply safe_call | intros [p' tok]; apply IH].
Qed.

Lemma safe_read fuel files self fileName : safe (ShelxlParserM.read fuel files self fileName).
Proof.
  unfold ShelxlParserM.read.
  repeat (apply safe_bind; [solve [auto with safe | apply safe_read_loop] | intros ?]).
  destruct (CURRENTMOLECULE _); [| apply safe_raise].
  apply safe_bind; [apply safe_finalize | intros _].
  apply safe_bind; [apply safe_set_current | intros _; apply safe_ret].
Qed.

(** ** The serialized text has three expressions *)

Lemma app_cons x (a b : string) : String x a ++ b = String x (a ++ b).
Proof. reflexivity. Qed.

Lemma app_empty (b : string) : "" ++ b = b.
Proof. reflexivity. Qed.

Lemma app_empty_r (a : string) : a ++ "" = a.
Proof. induction a as [| x a IH]; [reflexivity |]. now rewrite app_cons, IH. Qed.

Lemma string_app_assoc (a b c : string) : (a ++ b) ++ c = a ++ (b ++ c).
Proof.
  induction a as [| x a IH]; [reflexivity |].
  now rewrite !app_cons, IH.
Qed.

Lemma contains_app c a b :
  PyStr.contains c (a ++ b) = PyStr.contains c a || PyStr.contains c b.
Proof.
  induction a as [| x a IH]; [reflexivity |].
  rewrite app_cons. simpl. rewrite IH. now rewrite orb_assoc.
Qed.

Lemma split_on_from_skip c cur s rest :
  PyStr.contains c s = false ->
  PyStr.split_on_from c cur (s ++ String c rest) =
  (cur ++ s) :: PyStr.split_on_from c "" rest.
Proof.
  revert cur. induction s as [| x s IH]; intros cur H.
  - rewrite app_empty, app_empty_r. simpl. now rewrite Ascii.eqb_refl.
  - simpl in H. apply orb_false_elim in H as [Hx Hs].
    rewrite app_cons. simpl. rewrite Hx. rewrite IH by exact Hs.
    now rewrite string_app_assoc.
Qed.

Lemma split_on_from_end c cur s :
  PyStr.contains c s = false ->
  PyStr.split_on_from c cur s = [cur ++ s].
Proof.
  revert cur. induction s as [| x s IH]; intros cur H.
  - now rewrite app_empty_r.
  - simpl in H. apply orb_false_elim in H as [Hx Hs].
    simpl. rewrite Hx, IH by exact Hs. now rewrite string_app_assoc.
Qed.

Lemma split_join3 a b c :
  PyStr.contains "," a = false ->
  PyStr.contains "," b = false ->
  PyStr.contains "," c = false ->
  PyStr.split_on "," (PyStr.join ", " [a; b; c]) = [a; " " ++ b; " " ++ c].
Proof.
  intros Ha Hb Hc. unfold PyStr.split_on. cbn [PyStr.join].
  rewrite !app_cons, !app_empty.
  rewrite split_on_from_skip by exact Ha. rewrite app_empty. f_equal.
  change (String " " (b ++ String "," (String " " c)))
    with ((" " ++ b) ++ String "," (" " ++ c)).
  rewrite split_on_from_skip by exact Hb. rewrite app_empty. f_equal.
  apply split_on_from_end. exact Hc.
Qed.

Lemma digit_char_no_comma n : Ascii.eqb (PyNum.digit_char (n mod 10)) "," = false.
Proof.
  pose proof (Z.mod_pos_bound n 10 ltac:(lia)) as Hb.
  remember (n mod 10) as d eqn:Hd. clear Hd.
  assert (H : d = 0 \/ d = 1 \/ d = 2 \/ d = 3 \/ d = 4 \/ d = 5 \/ d = 6 \/ d = 7 \/
              d = 8 \/ d = 9) by lia.
  repeat (destruct H as [-> | H]); try subst d; reflexivity.
Qed.

Lemma nat_digits_no_comma fuel n acc :
  PyStr.contains "," acc = false ->
  PyStr.contains "," (PyNum.nat_digits fuel n acc) = false.
Proof.
  revert n acc. induction fuel as [| fuel IH]; intros n acc H;
    cbn [PyNum.nat_digits]; [exact H |].
  assert (H' : PyStr.contains "," (String (PyNum.digit_char (n mod 10)) acc) = false).
  { cbn [PyStr.contains]. now rewrite digit_char_no_comma, H. }
  destruct (n <? 10); [exact H' | apply IH; exact H'].
Qed.

Lemma str_nat_no_comma n : PyStr.contains "," (PyNum.str_nat n) = false.
Proof. unfold PyNum.str_nat. apply nat_digits_no_comma. reflexivity. Qed.

Lemma zeros_no_comma n s :
  PyStr.contains "," s = false -> PyStr.contains "," (PyNum.zeros n s) = false.
Proof. intros H. induction n as [| n IH]; cbn [PyNum.zeros PyStr.contains]; [exact H | exact IH]. Qed.

Lemma str_float_no_comma q s : PyNum.str_float q = Ok s -> PyStr.contains "," s = false.
Proof.
  unfold PyNum.str_float.
  destruct (Qnum (Qred q) =? 0); [intros H; inversion H; reflexivity |].
  destruct (PyNum.dec_places 19 0 _) as [k |]; [| discriminate].
  destruct (negb _); [discriminate |].
  intros H. inversion H. clear H.
  rewrite !contains_app.
  rewrite str_nat_no_comma.
  assert (Hfs : PyStr.contains ","
            (if k =? 0 then "0"
             else PyNum.pad_zeros (Z.to_nat k)
                    (PyNum.str_nat ((Z.abs (Qnum (Qred q)) *
                       (10 ^ k / Z.pos (Qden (Qred q)))) mod 10 ^ k))) = false).
  { destruct (k =? 0); [reflexivity |].
    unfold PyNum.pad_zeros. apply zeros_no_comma, str_nat_no_comma. }
  rewrite Hfs.
  destruct (Qnum (Qred q) <? 0); reflexivity.
Qed.

Lemma axis_text_no_comma m axis :
  PyStr.contains "," axis = false ->
  PyStr.contains "," (SymmetryElementM.axis_text m axis) = false.
Proof.
  intros H. unfold SymmetryElementM.axis_text.
  destruct (m =? 0), (m <? 0); try reflexivity.
  - rewrite contains_app, H. reflexivity.
  - destruct (negb (PyStr.is_empty axis)); [| exact H].
    rewrite contains_app, H. reflexivity.
Qed.

Lemma line_text_no_comma e i s :
  SymmetryElementM.line_text e i = Ok s -> PyStr.contains "," s = false.
Proof.
  unfold SymmetryElementM.line_text.
  destruct (index (se_matrix e) i) as [op |]; [| discriminate]. cbn [rbind].
  destruct (index (se_trans e) i) as [t |]; [| discriminate]. cbn [rbind].
  destruct (if SymmetryElementM.truthy t then _ else _) as [text |] eqn:Ht; [| discriminate].
  cbn [rbind].
  destruct (index op 0) as [m0 |]; [| discriminate]. cbn [rbind].
  destruct (index op 1) as [m1 |]; [| discriminate]. cbn [rbind].
  destruct (index op 2) as [m2 |]; [| discriminate]. cbn [rbind].
  intros H. inversion H. clear H.
  assert (Htext : PyStr.contains "," text = false).
  { destruct (SymmetryElementM.truthy t).
    - destruct t as [q |].
      + eapply str_float_no_comma; eauto.
      + inversion Ht. reflexivity.
    - inversion Ht. reflexivity. }
  rewrite !contains_app, Htext, !axis_text_no_comma by reflexivity. reflexivity.
Qed.

Lemma toShelxl_three e text :
  SymmetryElementM.toShelxl e = Ok text -> length (PyStr.split_on "," text) = 3%nat.
Proof.
  unfold SymmetryElementM.toShelxl. cbn [rmap].
  destruct (SymmetryElementM.line_text e 0) as [a |] eqn:Ha; [| discriminate].
  destruct (SymmetryElementM.line_text e 1) as [b |] eqn:Hb; [| discriminate].
  destruct (SymmetryElementM.line_text e 2) as [c |] eqn:Hc; [| discriminate].
  cbn [rbind]. intros H. injection H as <-.
  change (a ++ ", " ++ b ++ ", " ++ c) with (PyStr.join ", " [a; b; c]).
  rewrite split_join3 by (eapply line_text_no_comma; eauto).
  reflexivity.
Qed.

(** C10, as stated, fails: the constructor takes any number of
    expressions. A symmetry instruction with two expressions is accepted,
    and its element has a matrix of three rows of two entries: six entries,
    not nine. *)
Lemma two_expressions_six_entries :
  let built := SymmetryElementM.__init__ ["X"; "Y"] false empty_world in
  let read := LineParserM.__call__ ("SYMM X,Y" ++ nl) parsing_world in
  fst built = Ok 0%nat /\
  se_matrix <$> elements (snd built) !! 0%nat = Some [[1; 0]; [0; 1]; [0; 0]] /\
  grid9 <$> elements (snd built) !! 0%nat = Some false /\
  fst read = Ok (LineParser, TokLine "SYMM X,Y") /\
  length (elements (snd read)) = S (length (elements parsing_world)) /\
  se_matrix <$> last (elements (snd read)) = Some [[1; 0]; [0; 1]; [0; 0]] /\
  grid9 <$> last (elements (snd read)) = Some false.
Proof. vm_compute. repeat split. Qed.

(** C10, amended: the elements of the lattice table, every element that
    the constructor builds (from a text, or negated with [centric]) and
    every lattice-translated copy have a matrix of three rows with one
    entry per expression, every entry -1, 0 or 1. The matrix of a built
    element has nine entries exactly when it was built from three
    expressions; that of a copy always has nine. Each of these operations,
    and a whole run of [read], only appends elements to the world and
    leaves every existing element as it was. *)
Theorem symmetry_elements_tri_valued :
  forallb grid_ok (elements initial_world) = true /\
  (forall symms centric w,
      match SymmetryElementM.__init__ symms centric w with
      | (Ok r, w') =>
          r = length (elements w) /\
          exists e, elements w' = (elements w ++ [e])%list /\ grid_ok e = true /\
                    se_symms e = symms /\
                    grid9 e = (length symms =? 3)%nat
      | (Raise _, w') => elements w' = elements w
      end) /\
  (forall self latt w,
      match SymmetryElementM.applyLattSymm self latt w with
      | (Ok r, w') =>
          r = length (elements w) /\
          exists e, elements w' = (elements w ++ [e])%list /\ grid9 e = true
      | (Raise _, w') => grows w w'
      end) /\
  (forall fuel files self fileName w,
      grows w (snd (ShelxlParserM.read fuel files self fileName w))).
Proof.
  split; [vm_compute; reflexivity |].
  split.
  { intros symms centric w.
    pose proof (init_outcome symms centric w) as H.
    destruct (SymmetryElementM.__init__ symms centric w) as [[r | err] w']; [| exact H].
    destruct H as (Hr & e & Hel & Hg & Hs).
    split; [exact Hr |]. exists e. repeat split; try assumption.
    unfold grid9. rewrite Hg, Hs. reflexivity. }
  split; [| exact safe_read].
  intros self latt w.
  pose proof (applyLattSymm_outcome self latt w) as H.
  destruct (SymmetryElementM.applyLattSymm self latt w) as [[r | err] w']; [| exact H].
  destruct H as (Hr & e0 & text & e & _ & Htext & Hel & Hg & Hs).
  split; [exact Hr |]. exists e. split; [exact Hel |].
  unfold grid9. rewrite Hg, Hs, (toShelxl_three _ _ Htext). reflexivity.
Qed.

(** ** The restraint table *)

Lemma entry_record rk fk v t r x :
  entry (ShelxlMoleculeM.record rk fk v t) r x =
  match entry t r x with
  | Some u => Some u
  | None => if decide ((rk, fk) = (r, x)) then Some v else None
  end.
Proof.
  unfold ShelxlMoleculeM.record, entry.
  destruct (decide (r = rk)) as [-> | Hr].
  - destruct (t !! rk) as [row |] eqn:Hrow; cbn.
    + destruct (row !! fk) as [u |] eqn:Hf.
      * rewrite lookup_insert_eq. cbn.
        destruct (row !! x) eqn:Hx; [reflexivity |].
        destruct (decide _) as [E | _]; [| reflexivity].
        injection E as ->. rewrite Hf in Hx. discriminate.
      * rewrite lookup_insert_eq. cbn.
        destruct (decide (fk = x)) as [-> | Hne].
        -- rewrite lookup_insert_eq, Hf. now rewrite decide_True.
        -- rewrite lookup_insert_ne by exact Hne.
           destruct (row !! x); [reflexivity |].
           rewrite decide_False; [reflexivity | congruence].
    + rewrite lookup_empty. rewrite lookup_insert_eq. cbn.
      destruct (decide (fk = x)) as [-> | Hne].
      * rewrite lookup_insert_eq. now rewrite decide_True.
      * rewrite lookup_insert_ne by exact Hne. rewrite lookup_empty.
        rewrite decide_False; [reflexivity | congruence].
  - assert (Hgoal : forall row', <[rk := row']> t !! r = t !! r)
      by (intros; apply lookup_insert_ne; congruence).
    rewrite decide_False by (intros E; injection E as E1 E2; congruence).
    destruct (match t !! rk with Some r0 => r0 | None => ∅ end !! fk);
      rewrite Hgoal; (destruct (t !! r) as [row2 |]; cbn; [destruct (row2 !! x) |]; reflexivity).
Qed.

Lemma entry_record_pair v t p r x :
  entry (ShelxlMoleculeM.record_pair v t p) r x =
  match entry t r x with
  | Some u => Some u
  | None => first_filed (r, x) (map (fun k => (k, v)) (pair_keys p))
  end.
Proof.
  destruct p as [n1 n2]. unfold ShelxlMoleculeM.record_pair, pair_keys. cbn [fst snd map first_filed].
  rewrite !entry_record.
  destruct (entry t r x); [reflexivity |].
  destruct (decide ((PyStr.upper n1, n2) = (r, x))); [reflexivity |].
  reflexivity.
Qed.

Lemma first_filed_app k l1 l2 :
  first_filed k (l1 ++ l2) =
  match first_filed k l1 with Some v => Some v | None => first_filed k l2 end.
Proof.
  induction l1 as [| [k' v] l1 IH]; cbn; [reflexivity |].
  destruct (decide (k' = k)); [reflexivity | exact IH].
Qed.

Lemma entry_fold_pairs v ps t r x :
  entry (foldl (ShelxlMoleculeM.record_pair v) t ps) r x =
  match entry t r x with
  | Some u => Some u
  | None => first_filed (r, x) (flat_map (fun p => map (fun k => (k, v)) (pair_keys p)) ps)
  end.
Proof.
  revert t. induction ps as [| p ps IH]; intros t; cbn [foldl flat_map].
  - destruct (entry t r x); reflexivity.
  - rewrite IH, entry_record_pair, first_filed_app.
    destruct (entry t r x); [reflexivity |].
    destruct (first_filed _ _); reflexivity.
Qed.

Lemma finalizeDfix_loop_entries dfixErr dfixs t w t' w' :
  ShelxlMoleculeM._finalizeDfix_loop dfixErr dfixs t w = (Ok t', w') ->
  w' = w /\
  forall r x,
    entry t' r x =
    match entry t r x with
    | Some u => Some u
    | None => first_filed (r, x) (flat_map (restraint_entries (pair_lists w) dfixErr) dfixs)
    end.
Proof.
  revert t. induction dfixs as [| [[target err] pairs] rest IH]; intros t; cbn [ShelxlMoleculeM._finalizeDfix_loop].
  - intros H. injection H as <- <-. split; [reflexivity |]. intros r x. cbn.
    destruct (entry t r x); reflexivity.
  - unfold bind at 1. unfold ShelxlMoleculeM.load_pairs at 1.
    destruct (pair_lists w !! pairs) as [ps |] eqn:Hps; [| discriminate].
    intros H. apply IH in H as [-> H]. split; [reflexivity |].
    intros r x. rewrite H, entry_fold_pairs. cbn [flat_map].
    rewrite first_filed_app. unfold restraint_entries at 2. rewrite Hps.
    destruct (entry t r x); [reflexivity |].
    destruct (first_filed _ _); reflexivity.
Qed.

Lemma entry_initial_table atoms r x :
  entry (ShelxlMoleculeM.initial_table atoms) r x = None.
Proof.
  unfold ShelxlMoleculeM.initial_table.
  assert (H : forall t : gmap string (gmap string (Q * Q)),
             (forall r x, entry t r x = None) ->
             forall r x, entry (foldl (fun t a => <[PyStr.upper (at_name a) := ∅]> t) t atoms)
                               r x = None).
  { induction atoms as [| a atoms IH]; intros t Ht r' x'; cbn [foldl]; [apply Ht |].
    apply IH. intros r0 x0. unfold entry.
    destruct (decide (PyStr.upper (at_name a) = r0)) as [-> | Hne].
    - rewrite lookup_insert_eq. cbn. apply lookup_empty.
    - rewrite lookup_insert_ne by exact Hne. apply Ht. }
  apply H. intros r0 x0. unfold entry. rewrite lookup_empty. reflexivity.
Qed.

(** X6: every entry of the restraint table is the first value that was
    filed under its row and its column, in the order of the restraints and
    of their pairs; building the table changes nothing else. *)
Theorem finalizeDfix_first_filed (self : ref) (w : World) (m : ShelxlMolecule) t' w' :
  molecules w !! self = Some m ->
  ShelxlMoleculeM._finalizeDfix self w = (Ok t', w') ->
  w' = w /\
  forall r x,
    entry t' r x =
    first_filed (r, x)
      (flat_map (restraint_entries (pair_lists w) (mol_dfixErr m)) (mol_dfixs m)).
Proof.
  intros Hm Hrun.
  unfold ShelxlMoleculeM._finalizeDfix in Hrun.
  unfold bind, ShelxlMoleculeM.load in Hrun. rewrite Hm in Hrun.
  apply finalizeDfix_loop_entries in Hrun as [-> H].
  split; [reflexivity |]. intros r x.
  rewrite H, entry_initial_table. reflexivity.
Qed.

Lemma first_filed_pair_sym v p r x :
  PyStr.upper (fst p) = fst p -> PyStr.upper (snd p) = snd p ->
  first_filed (r, x) (map (fun k => (k, v)) (pair_keys p)) =
  first_filed (x, r) (map (fun k => (k, v)) (pair_keys p)).
Proof.
  destruct p as [n1 n2]. cbn [fst snd]. intros H1 H2.
  unfold pair_keys. cbn [fst snd map first_filed]. rewrite H1, H2.
  repeat case_decide; simplify_eq; congruence.
Qed.

Lemma first_filed_pairs_sym v ps r x :
  upper_pairs ps ->
  first_filed (r, x) (flat_map (fun p => map (fun k => (k, v)) (pair_keys p)) ps) =
  first_filed (x, r) (flat_map (fun p => map (fun k => (k, v)) (pair_keys p)) ps).
Proof.
  induction 1 as [| p ps [H1 H2] _ IH]; [reflexivity |].
  cbn [flat_map]. rewrite !first_filed_app, IH.
  rewrite (first_filed_pair_sym v p r x H1 H2). reflexivity.
Qed.

Lemma first_filed_restraints_sym store dfixErr dfixs r x :
  Forall (fun d => forall ps, store !! snd d = Some ps -> upper_pairs ps) dfixs ->
  first_filed (r, x) (flat_map (restraint_entries store dfixErr) dfixs) =
  first_filed (x, r) (flat_map (restraint_entries store dfixErr) dfixs).
Proof.
  induction 1 as [| [[target err] pairs] rest Hd _ IH]; [reflexivity |].
  cbn [flat_map]. rewrite !first_filed_app, IH.
  unfold restraint_entries. cbn [snd] in Hd.
  destruct (store !! pairs) as [ps |].
  - rewrite (first_filed_pairs_sym _ ps r x (Hd ps eq_refl)). reflexivity.
  - reflexivity.
Qed.

(** X7: when the names in all pairs are in upper case already, the
    restraint table is symmetric. *)
Theorem finalizeDfix_symmetric_upper (self : ref) (w : World) (m : ShelxlMolecule) t' w' :
  molecules w !! self = Some m ->
  Forall (fun d => forall ps, pair_lists w !! snd d = Some ps -> upper_pairs ps)
         (mol_dfixs m) ->
  ShelxlMoleculeM._finalizeDfix self w = (Ok t', w') ->
  forall a b, entry t' a b = entry t' b a.
Proof.
  intros Hm Hup Hrun a b.
  unfold ShelxlMoleculeM._finalizeDfix in Hrun.
  unfold bind, ShelxlMoleculeM.load in Hrun. rewrite Hm in Hrun.
  apply finalizeDfix_loop_entries in Hrun as [_ H].
  rewrite !H, !entry_initial_table.
  apply first_filed_restraints_sym. exact Hup.
Qed.

(** X8: restraints that follow never change an entry that the restraints
    before them have filed. *)
Theorem finalizeDfix_first_write_wins dfixErr d1 d2 t w t1 t12 r x v :
  fst (ShelxlMoleculeM._finalizeDfix_loop dfixErr d1 t w) = Ok t1 ->
  fst (ShelxlMoleculeM._finalizeDfix_loop dfixErr (d1 ++ d2) t w) = Ok t12 ->
  entry t1 r x = Some v ->
  entry t12 r x = Some v.
Proof.
  intros H1 H12.
  destruct (ShelxlMoleculeM._finalizeDfix_loop dfixErr d1 t w) as [r1 w1] eqn:E1.
  destruct (ShelxlMoleculeM._finalizeDfix_loop dfixErr (d1 ++ d2) t w) as [r12 w12] eqn:E12.
  cbn in H1, H12. subst r1 r12.
  apply finalizeDfix_loop_entries in E1 as [_ E1].
  apply finalizeDfix_loop_entries in E12 as [_ E12].
  rewrite E1, E12, flat_map_app, first_filed_app.
  destruct (entry t r x); [trivial |].
  destruct (first_filed _ _); [trivial | discriminate].
Qed.

(** *** The loop of the distance-restraint parser *)

Lemma chunk2_step (data : list string) s a b :
  data !! (2 * s)%nat = Some a -> data !! (2 * s + 1)%nat = Some b ->
  chunk2 (drop (2 * s) data) = (a, b) :: chunk2 (drop (2 * S s) data).
Proof.
  intros Ha Hb.
  rewrite (drop_S data a (2 * s)) by exact Ha.
  rewrite (drop_S data b (S (2 * s))) by (rewrite <- Hb; f_equal; lia).
  cbn [chunk2]. do 3 f_equal. lia.
Qed.

Lemma dfix_loop_run value err (pairs : ref) (data : list string) k : forall s w mol m l0,
  CURRENTMOLECULE w = Some mol ->
  molecules w !! mol = Some m ->
  pair_lists w !! pairs = Some l0 ->
  (2 * (s + k) <= length data)%nat ->
  Parsers.dfix_loop value err pairs data (seq s k) w =
  (Ok tt,
   with_molecules
     (<[mol := ShelxlMoleculeM.set_dfixs
                 (mol_dfixs m ++ replicate k (value, err, pairs))%list m]> (molecules w))
     (with_pair_lists
        (<[pairs := (l0 ++ take k (chunk2 (drop (2 * s) data)))%list]> (pair_lists w)) w)).
Proof.
  unfold ref in *.
  induction k as [| k IH]; intros s w mol m l0 Hcur Hm Hl Hlen.
  - cbn [seq Parsers.dfix_loop replicate take]. rewrite !app_nil_r.
    replace (ShelxlMoleculeM.set_dfixs (mol_dfixs m) m) with m by (destruct m; reflexivity).
    rewrite (list_insert_id _ _ _ Hm), (list_insert_id _ _ _ Hl).
    destruct w; reflexivity.
  - cbn [seq Parsers.dfix_loop].
    destruct (lookup_lt_is_Some_2 data (2 * s)%nat ltac:(lia)) as [a Ha].
    destruct (lookup_lt_is_Some_2 data (2 * s + 1)%nat ltac:(lia)) as [b Hb].
    rewrite lift_bind. unfold index at 1. rewrite Ha.
    rewrite lift_bind. unfold index at 1. rewrite Hb.
    assert (Hmol : (mol < length (molecules w))%nat) by (eapply lookup_lt_Some; eauto).
    assert (Hp : (pairs < length (pair_lists w))%nat) by (eapply lookup_lt_Some; eauto).
    unfold bind at 1. unfold Parsers.append_pair at 1. unfold ref. rewrite Hl.
    unfold bind at 1. unfold current at 1. cbn [CURRENTMOLECULE with_pair_lists].
    unfold ref. rewrite Hcur.
    unfold bind at 1. unfold ShelxlMoleculeM.addDfix, ShelxlMoleculeM.update at 1.
    cbn [molecules with_pair_lists]. unfold ref. rewrite Hm.
    rewrite (IH (S s) _ mol
               (ShelxlMoleculeM.set_dfixs (mol_dfixs m ++ [(value, err, pairs)])%list m)
               (l0 ++ [(a, b)])%list).
    + cbn [molecules pair_lists with_molecules with_pair_lists CURRENTMOLECULE symm_ID elements
           ShelxlMoleculeM.set_dfixs mol_dfixs].
      rewrite !list_insert_insert_eq.
      rewrite (chunk2_step data s a b Ha Hb). cbn [take replicate].
      unfold ShelxlMoleculeM.set_dfixs. cbn.
      rewrite <- !app_assoc. reflexivity.
    + exact Hcur.
    + cbn. apply list_lookup_insert_eq. exact Hmol.
    + cbn. apply list_lookup_insert_eq. exact Hp.
    + lia.
Qed.

Lemma chunk2_length (l : list string) : length (chunk2 l) = (length l / 2)%nat.
Proof.
  assert (H : forall n (l : list string), (length l < n)%nat ->
             length (chunk2 l) = (length l / 2)%nat).
  { induction n as [| n IH]; intros l0 Hl; [lia |].
    destruct l0 as [| a [| b t]]; [reflexivity | reflexivity |].
    cbn [chunk2 length]. rewrite IH by (cbn in Hl; lia).
    change (S (S (length t))) with (2 + length t)%nat.
    replace (2 + length t)%nat with (length t + 1 * 2)%nat by lia.
    rewrite Nat.div_add by lia. lia. }
  apply (H (S (length l))). lia.
Qed.

(** X9: the loop of the DFIX finisher registers one restraint per pair of
    words, and all of them hold the same list, which in the end has every
    pair of the line. *)
Theorem dfix_loop_shares_one_list value err (pairs : ref) (data : list string) w mol m :
  CURRENTMOLECULE w = Some mol ->
  molecules w !! mol = Some m ->
  pair_lists w !! pairs = Some [] ->
  let w' := snd (Parsers.dfix_loop value err pairs data (seq 0 (length data / 2)) w) in
  fst (Parsers.dfix_loop value err pairs data (seq 0 (length data / 2)) w) = Ok tt /\
  pair_lists w' !! pairs = Some (chunk2 data) /\
  mol_dfixs <$> molecules w' !! mol =
    Some (mol_dfixs m ++ replicate (length (chunk2 data)) (value, err, pairs))%list.
Proof.
  intros Hcur Hm Hl w'. subst w'.
  assert (Hmol : (mol < length (molecules w))%nat) by (eapply lookup_lt_Some; eauto).
  assert (Hp : (pairs < length (pair_lists w))%nat) by (eapply lookup_lt_Some; eauto).
  rewrite (dfix_loop_run value err pairs data (length data / 2) 0 w mol m [] Hcur Hm Hl).
  2:{ pose proof (Nat.div_mod_eq (length data) 2). pose proof (Nat.mod_upper_bound (length data) 2). lia. }
  cbn [fst snd]. split; [reflexivity |].
  cbn [pair_lists molecules with_molecules with_pair_lists].
  rewrite !list_lookup_insert_eq by assumption.
  rewrite drop_0, <- chunk2_length, firstn_all. cbn. split; reflexivity.
Qed.

(** ** Frame properties of the parser *)

(** The constructor in closed form. *)
Lemma init_run symms centric w :
  SymmetryElementM.__init__ symms centric w =
  let w1 := with_symm_ID (symm_ID w + 1) w in
  match rmap SymmetryElementM._parse_line symms with
  | Raise e => (Raise e, w1)
  | Ok parsed =>
      let matrix := SymmetryElementM.transpose (map fst parsed) in
      if centric then
        match SymmetryElementM.negate_trans (map snd parsed) with
        | Raise e => (Raise e, w1)
        | Ok t =>
            (Ok (length (elements w)),
             with_elements
               (elements w ++
                [{| se_symms := symms; se_ID := symm_ID w;
                    se_matrix := map (map Z.opp) matrix; se_trans := t |}])%list w1)
        end
      else
        (Ok (length (elements w)),
         with_elements
           (elements w ++
            [{| se_symms := symms; se_ID := symm_ID w;
                se_matrix := matrix; se_trans := map snd parsed |}])%list w1)
  end.
Proof.
  unfold SymmetryElementM.__init__.
  unfold bind at 1. cbn [SymmetryElementM.fresh_ID].
  rewrite lift_bind.
  destruct (rmap SymmetryElementM._parse_line symms) as [parsed |]; [| reflexivity].
  destruct centric; [| reflexivity].
  rewrite lift_bind.
  destruct (SymmetryElementM.negate_trans (map snd parsed)); reflexivity.
Qed.

Lemma init_same_molecules symms centric :
  keeps same_molecules (SymmetryElementM.__init__ symms centric).
Proof.
  intros w. rewrite init_run. cbv zeta.
  destruct (rmap _ symms); [| repeat split].
  destruct centric; [| repeat split].
  destruct (SymmetryElementM.negate_trans _); repeat split.
Qed.

Lemma same_molecules_refl w : same_molecules w w.
Proof. repeat split. Qed.

Lemma same_molecules_trans w1 w2 w3 :
  same_molecules w1 w2 -> same_molecules w2 w3 -> same_molecules w1 w3.
Proof. intros (A1 & B1 & C1) (A2 & B2 & C2). repeat split; congruence. Qed.

Lemma applyLattSymm_same_molecules self latt :
  keeps same_molecules (SymmetryElementM.applyLattSymm self latt).
Proof.
  intros w. unfold SymmetryElementM.applyLattSymm.
  unfold bind at 1. rewrite deref_run.
  destruct (elements w !! self); [| apply same_molecules_refl].
  rewrite lift_bind.
  destruct (SymmetryElementM.toShelxl _) as [text |]; [| apply same_molecules_refl].
  unfold bind at 1.
  pose proof (init_same_molecules (PyStr.split_on "," text) false w) as Hinit.
  destruct (SymmetryElementM.__init__ _ false w) as [[r | err] w1]; cbn [snd] in *;
    [| exact Hinit].
  unfold bind at 1. rewrite deref_run.
  destruct (elements w1 !! self); [| exact Hinit].
  unfold bind at 1. rewrite deref_run.
  destruct (elements w1 !! latt); [| exact Hinit].
  repeat (rewrite lift_bind;
          match goal with
          | |- context [match ?r with Ok _ => _ | Raise _ => _ end] =>
              destruct r; [| exact Hinit]
          end).
  unfold bind, SymmetryElementM.set_trans, ret.
  destruct (elements w1 !! r); cbn; [| exact Hinit].
  destruct Hinit as (A & B & C). repeat split; assumption.
Qed.

Section Frame.

Variable R : World -> World -> Prop.
Hypothesis R_refl : forall w, R w w.
Hypothesis R_trans : forall w1 w2 w3, R w1 w2 -> R w2 w3 -> R w1 w3.
Hypothesis K_init : forall symms centric, keeps R (SymmetryElementM.__init__ symms centric).
Hypothesis K_apply : forall self latt, keeps R (SymmetryElementM.applyLattSymm self latt).
Hypothesis K_update : forall self f, keeps R (ShelxlMoleculeM.update self f).
Hypothesis K_new_pairs : keeps R Parsers.new_pairs.
Hypothesis K_append_pair : forall r p, keeps R (Parsers.append_pair r p).

Lemma keeps_ret {A} (a : A) : keeps R (ret a).
Proof. intros w. apply R_refl. Qed.

Lemma keeps_raise {A} e : keeps R (@raise A e).
Proof. intros w. apply R_refl. Qed.

Lemma keeps_lift {A} (r : result A) : keeps R (lift r).
Proof. intros w. apply R_refl. Qed.

Lemma keeps_bind {A B} (c : M A) (k : A -> M B) :
  keeps R c -> (forall a, keeps R (k a)) -> keeps R (bind c k).
Proof.
  intros Hc Hk w. unfold bind.
  specialize (Hc w). destruct (c w) as [[a | e] w1]; cbn in *.
  - eapply R_trans; [exact Hc | apply Hk].
  - exact Hc.
Qed.

Lemma keeps_try_except {A} (c h : M A) e :
  keeps R c -> keeps R h -> keeps R (try_except c e h).
Proof.
  intros Hc Hh w. unfold try_except.
  specialize (Hc w). destruct (c w) as [[a | e'] w1]; cbn in *.
  - exact Hc.
  - destruct (decide (e' = e)); cbn.
    + eapply R_trans; [exact Hc | apply Hh].
    + exact Hc.
Qed.

Lemma keeps_for_each {A} (l : list A) (body : A -> M unit) :
  (forall a, keeps R (body a)) -> keeps R (for_each l body).
Proof.
  intros Hb. induction l as [| x t IH]; cbn.
  - apply keeps_ret.
  - apply keeps_bind; [apply Hb | intros _; exact IH].
Qed.

Lemma keeps_load r : keeps R (ShelxlMoleculeM.load r).
Proof. intros w. unfold ShelxlMoleculeM.load. destruct (_ !! _); apply R_refl. Qed.

Lemma keeps_load_pairs r : keeps R (ShelxlMoleculeM.load_pairs r).
Proof. intros w. unfold ShelxlMoleculeM.load_pairs. destruct (_ !! _); apply R_refl. Qed.

Lemma keeps_current : keeps R current.
Proof. intros w. unfold current. destruct (CURRENTMOLECULE w); apply R_refl. Qed.

Lemma keeps_get_world : keeps R get_world.
Proof. intros w. apply R_refl. Qed.

Ltac keeps_step :=
  match goal with
  | |- keeps R (ret _) => apply keeps_ret
  | |- keeps R (raise _) => apply keeps_raise
  | |- keeps R (lift _) => apply keeps_lift
  | |- keeps R (ShelxlMoleculeM.load _) => apply keeps_load
  | |- keeps R (ShelxlMoleculeM.load_pairs _) => apply keeps_load_pairs
  | |- keeps R current => apply keeps_current
  | |- keeps R get_world => apply keeps_get_world
  | |- keeps R (SymmetryElementM.__init__ _ _) => apply K_init
  | |- keeps R (SymmetryElementM.applyLattSymm _ _) => apply K_apply
  | |- keeps R (ShelxlMoleculeM.update _ _) => apply K_update
  | |- keeps R Parsers.new_pairs => apply K_new_pairs
  | |- keeps R (Parsers.append_pair _ _) => apply K_append_pair
  | |- keeps R (bind _ _) => apply keeps_bind; [| intros ?]
  | |- keeps R (try_except _ _ _) => apply keeps_try_except
  | |- keeps R (for_each _ _) => apply keeps_for_each; intros ?
  | |- keeps R (if ?b then _ else _) => destruct b
  | |- keeps R (match ?x with _ => _ end) => destruct x
  end.

Lemma keeps_addSymm self symmData : keeps R (ShelxlMoleculeM.addSymm self symmData).
Proof.
  unfold ShelxlMoleculeM.addSymm, ShelxlMoleculeM.append_symm. repeat keeps_step.
Qed.

Lemma keeps_addEqiv self name data : keeps R (ShelxlMoleculeM.addEqiv self name data).
Proof. unfold ShelxlMoleculeM.addEqiv. repeat keeps_step. Qed.

Lemma keeps_finalizeDfix_loop e l t : keeps R (ShelxlMoleculeM._finalizeDfix_loop e l t).
Proof.
  revert t. induction l as [| [[target err] pairs] rest IH]; intros t; cbn.
  - apply keeps_ret.
  - apply keeps_bind; [apply keeps_load_pairs | intros ps; apply IH].
Qed.

Lemma keeps_finalize self : keeps R (ShelxlMoleculeM.finalize self).
Proof.
  unfold ShelxlMoleculeM.finalize, ShelxlMoleculeM._finalizeDfix.
  apply keeps_bind; [| intros; apply keeps_ret].
  apply keeps_bind; [apply keeps_load | intros; apply keeps_finalizeDfix_loop].
Qed.

Lemma keeps_atom_init line : keeps R (ShelxlAtomM.__init__ line).
Proof.
  unfold ShelxlAtomM.__init__, ShelxlMoleculeM.addQPeak, ShelxlMoleculeM.addAtom.
  repeat keeps_step.
Qed.

Lemma keeps_dfix_loop value err pairs data idx :
  keeps R (Parsers.dfix_loop value err pairs data idx).
Proof.
  induction idx as [| i rest IH]; cbn.
  - apply keeps_ret.
  - unfold ShelxlMoleculeM.addDfix.
    repeat (apply keeps_bind; [solve [keeps_step] | intros ?]). exact IH.
Qed.

Lemma keeps_finished k body : keeps R (Parsers.finished k body).
Proof.
  destruct k; cbn [Parsers.finished];
    unfold Parsers.cell_finished, Parsers.cerr_finished, Parsers.sfac_finished,
      Parsers.latt_finished, Parsers.symm_finished, Parsers.dfix_finished,
      Parsers.eqiv_finished, ShelxlMoleculeM.setCell, ShelxlMoleculeM.setWavelength,
      ShelxlMoleculeM.setCerr, ShelxlMoleculeM.setZ, ShelxlMoleculeM.addSfac,
      ShelxlMoleculeM.addCustomSfac, ShelxlMoleculeM.setCentric, ShelxlMoleculeM.setLattOps.
  all: repeat match goal with
              | |- keeps R (ShelxlMoleculeM.addSymm _ _) => apply keeps_addSymm
              | |- keeps R (ShelxlMoleculeM.addEqiv _ _ _) => apply keeps_addEqiv
              | |- keeps R (Parsers.dfix_loop _ _ _ _ _) => apply keeps_dfix_loop
              | _ => keeps_step
              end.
Qed.

Lemma keeps_RETURNTYPE k body : keeps R (Parsers.RETURNTYPE k body).
Proof.
  destruct k; cbn; try apply keeps_ret.
  apply keeps_bind; [apply keeps_atom_init | intros; apply keeps_ret].
Qed.

Lemma keeps_get k body p : keeps R (Parsers.get k body p).
Proof.
  unfold Parsers.get. destruct (negb _); [| apply keeps_ret].
  apply keeps_bind; [apply keeps_finished | intros _].
  apply keeps_bind; [apply keeps_RETURNTYPE | intros; apply keeps_ret].
Qed.

Lemma keeps_line_call line : keeps R (LineParserM.__call__ line).
Proof.
  unfold LineParserM.__call__, LineParserM.do_nothing.
  destruct (PyStr.is_empty _); [apply keeps_ret |].
  destruct (match PyStr.head _ with Some _ => _ | None => _ end); [apply keeps_ret |].
  destruct (LineParserM.COMMANDS !! _) as [[| k] |].
  - apply keeps_ret.
  - apply keeps_try_except; apply keeps_get.
  - apply keeps_get.
Qed.

Lemma keeps_call p line : keeps R (call p line).
Proof.
  destruct p as [| k body]; cbn.
  - apply keeps_line_call.
  - destruct k;
      first [ apply keeps_bind; [apply keeps_atom_init | intros; apply keeps_ret]
            | apply keeps_bind; [apply keeps_finished | intros; apply keeps_ret] ].
Qed.

Lemma keeps_read_loop fuel files rd p acc :
  keeps R (ShelxlParserM.read_loop fuel files rd p acc).
Proof.
  revert rd p acc. induction fuel as [| fuel IH]; intros rd p acc; cbn.
  - destruct (ReaderM.next rd) as [[line rd'] |]; [apply keeps_raise | apply keeps_ret].
  - destruct (ReaderM.next rd) as [[line rd'] |]; [| apply keeps_ret].
    apply keeps_bind; [apply keeps_call | intros [p' tok]; apply IH].
Qed.

End Frame.

(** *** What a run of [read] does to [CURRENTMOLECULE] *)

Lemma same_current_refl w : same_current w w.
Proof. split; reflexivity. Qed.

Lemma same_current_trans w1 w2 w3 :
  same_current w1 w2 -> same_current w2 w3 -> same_current w1 w3.
Proof. intros [A1 B1] [A2 B2]. split; congruence. Qed.

Lemma same_molecules_current w w' : same_molecules w w' -> same_current w w'.
Proof. intros (A & _ & C). split; [exact C | now rewrite A]. Qed.

Lemma update_same_current self f : keeps same_current (ShelxlMoleculeM.update self f).
Proof.
  intros w. unfold ShelxlMoleculeM.update.
  destruct (molecules w !! self); cbn; [| apply same_current_refl].
  split; [reflexivity | apply length_insert].
Qed.

Lemma new_pairs_same_current : keeps same_current Parsers.new_pairs.
Proof. intros w. split; reflexivity. Qed.

Lemma append_pair_same_current r p : keeps same_current (Parsers.append_pair r p).
Proof.
  intros w. unfold Parsers.append_pair.
  destruct (pair_lists w !! r); split; reflexivity.
Qed.

Lemma read_loop_same_current fuel files rd p acc :
  keeps same_current (ShelxlParserM.read_loop fuel files rd p acc).
Proof.
  apply keeps_read_loop.
  - exact same_current_refl.
  - exact same_current_trans.
  - intros symms centric w. apply same_molecules_current, init_same_molecules.
  - intros self latt w. apply same_molecules_current, applyLattSymm_same_molecules.
  - exact update_same_current.
  - exact new_pairs_same_current.
  - exact append_pair_same_current.
Qed.

Lemma finalize_same_current self : keeps same_current (ShelxlMoleculeM.finalize self).
Proof.
  apply keeps_finalize.
  - exact same_current_refl.
  - exact same_current_trans.
Qed.

(** X10: a parse that ends without an exception returns nothing, leaves
    the atoms of the parser as they were, has created one molecule and has
    reset the current molecule; a parse that ends in an exception leaves
    the molecule it created as the current one. *)
Theorem read_outcome fuel files self fileName w :
  match ShelxlParserM.read fuel files self fileName w with
  | (Ok (p, v), w') =>
      v = None /\ atoms p = atoms self /\
      CURRENTMOLECULE w' = None /\
      length (molecules w') = S (length (molecules w))
  | (Raise e, w') =>
      CURRENTMOLECULE w' = Some (length (molecules w))
  end.
Proof.
  unfold ShelxlParserM.read.
  unfold bind at 1. cbn [ShelxlMoleculeM.__init__].
  unfold bind at 1. cbn [set_current].
  set (w0 := with_CURRENTMOLECULE _ _).
  assert (Hw0 : CURRENTMOLECULE w0 = Some (length (molecules w)) /\
                length (molecules w0) = S (length (molecules w))).
  { subst w0. cbn. split; [reflexivity |]. rewrite length_app. cbn. lia. }
  destruct Hw0 as [Hc0 Hl0].
  rewrite lift_bind.
  destruct (files !! fileName) as [content |]; [| exact Hc0].
  unfold bind at 1.
  pose proof (read_loop_same_current fuel files {| rd_fp := content; rd_inserted := None |}
                LineParser (lines self) w0) as [Hc1 Hl1].
  destruct (ShelxlParserM.read_loop _ _ _ _ _ w0) as [[toks | e] w1]; cbn [snd] in *.
  2:{ congruence. }
  unfold bind at 1. cbn [get_world].
  rewrite Hc1, Hc0.
  unfold bind at 1.
  pose proof (finalize_same_current (length (molecules w)) w1) as [Hc2 Hl2].
  destruct (ShelxlMoleculeM.finalize _ w1) as [[[] | e] w2]; cbn [snd] in *.
  2:{ congruence. }
  cbn. repeat split. congruence.
Qed.

(** ** Identity labels *)

Lemma id_step_refl w : id_step w w.
Proof.
  exists []. rewrite app_nil_r. repeat split; [constructor | constructor | lia].
Qed.

Lemma id_step_trans w1 w2 w3 : id_step w1 w2 -> id_step w2 w3 -> id_step w1 w3.
Proof.
  intros (i1 & E1 & N1 & F1 & L1) (i2 & E2 & N2 & F2 & L2).
  exists (i1 ++ i2)%list. repeat split.
  - rewrite E2, E1. now rewrite <- app_assoc.
  - apply NoDup_app. repeat split; [exact N1 | | exact N2].
    intros x Hx1 Hx2.
    rewrite Forall_forall in F1, F2.
    specialize (F1 x Hx1). specialize (F2 x Hx2). lia.
  - apply Forall_app. split.
    + eapply Forall_impl; [exact F1 |]. cbn. intros; lia.
    + eapply Forall_impl; [exact F2 |]. cbn. intros; lia.
  - lia.
Qed.

Lemma id_step_same w w' :
  elements w' = elements w -> symm_ID w <= symm_ID w' -> id_step w w'.
Proof.
  intros E L. exists []. rewrite E, app_nil_r.
  repeat split; [constructor | constructor | exact L].
Qed.

Lemma init_id_step symms centric : keeps id_step (SymmetryElementM.__init__ symms centric).
Proof.
  intros w. rewrite init_run. cbv zeta.
  assert (Hfail : id_step w (with_symm_ID (symm_ID w + 1) w))
    by (apply id_step_same; cbn; [reflexivity | lia]).
  assert (Hok : forall e, se_ID e = symm_ID w ->
            id_step w (with_elements (elements w ++ [e])
                         (with_symm_ID (symm_ID w + 1) w))).
  { intros e He. exists [symm_ID w]. cbn.
    rewrite map_app. cbn. rewrite He. repeat split.
    - apply NoDup_singleton.
    - constructor; [lia | constructor].
    - lia. }
  destruct (rmap _ symms); [| exact Hfail].
  destruct centric; [| apply Hok; reflexivity].
  destruct (SymmetryElementM.negate_trans _); [apply Hok; reflexivity | exact Hfail].
Qed.

Lemma deref_id_step r : keeps id_step (SymmetryElementM.deref r).
Proof. intros w. rewrite deref_run. destruct (_ !! _); apply id_step_refl. Qed.

Lemma map_insert_same {A B} (f : A -> B) (l : list A) (r : nat) e e' :
  l !! r = Some e -> f e' = f e -> map f (<[r := e']> l) = map f l.
Proof.
  revert r. induction l as [| x l IH]; intros [| r] H Hf; cbn in *; try discriminate.
  - injection H as ->. now rewrite Hf.
  - now rewrite IH.
Qed.

Lemma set_trans_id_step r t : keeps id_step (SymmetryElementM.set_trans r t).
Proof.
  intros w. unfold SymmetryElementM.set_trans.
  destruct (elements w !! r) as [e |] eqn:He; cbn; [| apply id_step_refl].
  exists []. rewrite app_nil_r.
  split; [| split; [constructor | split; [constructor | cbn; lia]]].
  apply (map_insert_same se_ID _ _ e); [exact He | reflexivity].
Qed.

Lemma applyLattSymm_id_step self latt :
  keeps id_step (SymmetryElementM.applyLattSymm self latt).
Proof.
  unfold SymmetryElementM.applyLattSymm.
  repeat (apply (keeps_bind id_step id_step_trans);
          [first [ apply deref_id_step | apply init_id_step | apply set_trans_id_step
                 | apply (keeps_lift id_step id_step_refl) ]
          | intros ?]).
  apply (keeps_ret id_step id_step_refl).
Qed.

Lemma update_id_step self f : keeps id_step (ShelxlMoleculeM.update self f).
Proof.
  intros w. unfold ShelxlMoleculeM.update.
  destruct (molecules w !! self); apply id_step_same; cbn; (reflexivity || lia).
Qed.

Lemma new_pairs_id_step : keeps id_step Parsers.new_pairs.
Proof. intros w. apply id_step_same; cbn; (reflexivity || lia). Qed.

Lemma append_pair_id_step r p : keeps id_step (Parsers.append_pair r p).
Proof.
  intros w. unfold Parsers.append_pair.
  destruct (pair_lists w !! r); apply id_step_same; cbn; (reflexivity || lia).
Qed.

Lemma read_id_step fuel files self fileName :
  keeps id_step (ShelxlParserM.read fuel files self fileName).
Proof.
  unfold ShelxlParserM.read.
  apply (keeps_bind id_step id_step_trans).
  { intros w. apply id_step_same; cbn; (reflexivity || lia). }
  intros mol.
  apply (keeps_bind id_step id_step_trans).
  { intros w. apply id_step_same; cbn; (reflexivity || lia). }
  intros _.
  apply (keeps_bind id_step id_step_trans);
    [apply (keeps_lift id_step id_step_refl) | intros content].
  apply (keeps_bind id_step id_step_trans).
  { apply (keeps_read_loop id_step id_step_refl id_step_trans init_id_step
             applyLattSymm_id_step update_id_step new_pairs_id_step append_pair_id_step). }
  intros toks.
  apply (keeps_bind id_step id_step_trans);
    [apply (keeps_get_world id_step id_step_refl) | intros w0].
  destruct (CURRENTMOLECULE w0); [| apply (keeps_raise id_step id_step_refl)].
  apply (keeps_bind id_step id_step_trans);
    [apply (keeps_finalize id_step id_step_refl id_step_trans) | intros _].
  apply (keeps_bind id_step id_step_trans).
  { intros w. apply id_step_same; cbn; (reflexivity || lia). }
  intros _. apply (keeps_ret id_step id_step_refl).
Qed.

Lemma id_step_ids_ok w w' : id_step w w' -> ids_ok w -> ids_ok w'.
Proof.
  intros (ids & E & N & F & L) [Hlt Hnd]. unfold ids_ok. rewrite E. split.
  - apply Forall_app. split.
    + eapply Forall_impl; [exact Hlt |]. cbn. intros; lia.
    + eapply Forall_impl; [exact F |]. cbn. intros; lia.
  - apply NoDup_app. repeat split; [exact Hnd | | exact N].
    intros x Hx1 Hx2. rewrite Forall_forall in Hlt, F.
    specialize (Hlt x Hx1). specialize (F x Hx2). lia.
Qed.

(** X11: a parse keeps the labels of the symmetry elements distinct and
    below the counter, and the counter never goes back. *)
Theorem identity_labels_unique fuel files self fileName w :
  ids_ok w ->
  ids_ok (snd (ShelxlParserM.read fuel files self fileName w)) /\
  symm_ID w <= symm_ID (snd (ShelxlParserM.read fuel files self fileName w)).
Proof.
  intros H. pose proof (read_id_step fuel files self fileName w) as Hs.
  split; [eapply id_step_ids_ok; eauto |].
  destruct Hs as (_ & _ & _ & _ & L). exact L.
Qed.

(** X12: the constructor of a symmetry element advances the counter by
    one also when it raises; on success the new element carries the old
    counter value, on failure no element is stored. *)
Theorem constructor_consumes_a_label symms centric w :
  symm_ID (snd (SymmetryElementM.__init__ symms centric w)) = symm_ID w + 1 /\
  match SymmetryElementM.__init__ symms centric w with
  | (Ok r, w') => se_ID <$> elements w' !! r = Some (symm_ID w)
  | (Raise _, w') => elements w' = elements w
  end.
Proof.
  rewrite init_run. cbv zeta.
  destruct (rmap _ symms); [| split; reflexivity].
  destruct centric.
  - destruct (SymmetryElementM.negate_trans _); (split; [reflexivity |]); [| reflexivity].
    cbn. rewrite list_lookup_middle by reflexivity. reflexivity.
  - split; [reflexivity |]. cbn. rewrite list_lookup_middle by reflexivity. reflexivity.
Qed.

(** ** Lattice translation and the symmetry list *)

Lemma deref_bind {B} r (k : SymmetryElement -> M B) w :
  bind (SymmetryElementM.deref r) k w =
  match elements w !! r with
  | Some e => k e w
  | None => (Raise OutOfModel, w)
  end.
Proof. unfold bind. rewrite deref_run. destruct (elements w !! r); reflexivity. Qed.

(** A successful lattice translation in closed form. *)
Lemma applyLattSymm_Ok self latt w r w' :
  (latt < length (elements w))%nat ->
  SymmetryElementM.applyLattSymm self latt w = (Ok r, w') ->
  exists e0 l text parsed a0 a1 a2 b0 b1 b2,
    elements w !! self = Some e0 /\
    elements w !! latt = Some l /\
    SymmetryElementM.toShelxl e0 = Ok text /\
    rmap SymmetryElementM._parse_line (PyStr.split_on "," text) = Ok parsed /\
    se_trans e0 !! 0%nat = Some (Some a0) /\ se_trans e0 !! 1%nat = Some (Some a1) /\
    se_trans e0 !! 2%nat = Some (Some a2) /\
    se_trans l !! 0%nat = Some (Some b0) /\ se_trans l !! 1%nat = Some (Some b1) /\
    se_trans l !! 2%nat = Some (Some b2) /\
    r = length (elements w) /\
    w' = with_elements
           (elements w ++
            [{| se_symms := PyStr.split_on "," text; se_ID := symm_ID w;
                se_matrix := SymmetryElementM.transpose (map fst parsed);
                se_trans := [Some (PyNum.fadd a0 b0); Some (PyNum.fadd a1 b1);
                             Some (PyNum.fadd a2 b2)] |}])%list
           (with_symm_ID (symm_ID w + 1) w).
Proof.
  intros Hlive. unfold SymmetryElementM.applyLattSymm.
  rewrite deref_bind.
  destruct (elements w !! self) as [e0 |] eqn:He0; [| discriminate].
  rewrite lift_bind.
  destruct (SymmetryElementM.toShelxl e0) as [text |] eqn:Htext; [| discriminate].
  destruct (rmap SymmetryElementM._parse_line (PyStr.split_on "," text)) as [parsed |] eqn:Hp.
  2:{ rewrite (bind_Raise _ _ w e (with_symm_ID (symm_ID w + 1) w));
        [discriminate | rewrite init_run, Hp; reflexivity]. }
  set (e := {| se_symms := PyStr.split_on "," text; se_ID := symm_ID w;
               se_matrix := SymmetryElementM.transpose (map fst parsed);
               se_trans := map snd parsed |}).
  set (w1 := with_elements (elements w ++ [e])%list (with_symm_ID (symm_ID w + 1) w)).
  rewrite (bind_Ok _ _ w (length (elements w)) w1)
    by (rewrite init_run, Hp; reflexivity).
  assert (Hself : elements w1 !! self = Some e0).
  { subst w1. cbn [elements with_elements]. unfold ref in *.
    rewrite lookup_app_l by (eapply lookup_lt_Some; eauto). exact He0. }
  rewrite deref_bind, Hself.
  rewrite deref_bind. unfold ref in *.
  destruct (elements w1 !! latt) as [l |] eqn:Hl1; [| discriminate].
  assert (Hnew : elements w1 !! length (elements w) = Some e).
  { subst w1. cbn. apply list_lookup_middle. reflexivity. }
  assert (entry_inv : forall (ta tb : list (option Q)) i v,
             rbind (index ta i) (fun a => rbind (index tb i)
                (fun b => SymmetryElementM.add_entry a b)) = Ok v ->
             exists a b, ta !! i = Some (Some a) /\ tb !! i = Some (Some b) /\
                         v = Some (PyNum.fadd a b)).
  { intros ta tb i v. unfold index.
    destruct (ta !! i) as [[a |] |]; cbn; try discriminate;
      destruct (tb !! i) as [[b |] |]; cbn; try discriminate.
    intros H. injection H as <-. eauto. }
  rewrite lift_bind.
  destruct (rbind (index (se_trans e0) 0) _) as [t0 |] eqn:H0; [| discriminate].
  rewrite lift_bind.
  destruct (rbind (index (se_trans e0) 1) _) as [t1 |] eqn:H1; [| discriminate].
  rewrite lift_bind.
  destruct (rbind (index (se_trans e0) 2) _) as [t2 |] eqn:H2; [| discriminate].
  apply entry_inv in H0 as (a0 & b0 & Ha0 & Hb0 & ->).
  apply entry_inv in H1 as (a1 & b1 & Ha1 & Hb1 & ->).
  apply entry_inv in H2 as (a2 & b2 & Ha2 & Hb2 & ->).
  unfold bind, SymmetryElementM.set_trans, ret. unfold ref in *. rewrite Hnew.
  intros H. injection H as <- <-.
  assert (Hl : elements w !! latt = Some l).
  { subst w1. cbn in Hl1. rewrite lookup_app_l in Hl1 by exact Hlive. exact Hl1. }
  exists e0, l, text, parsed, a0, a1, a2, b0, b1, b2.
  repeat split; try assumption.
  subst w1. cbn. rewrite insert_app_r_alt by lia. rewrite Nat.sub_diag. reflexivity.
Qed.


Lemma bind_Ok_inv {A B} (c : M A) (k : A -> M B) w b w' :
  bind c k w = (Ok b, w') -> exists a w1, c w = (Ok a, w1) /\ k a w1 = (Ok b, w').
Proof.
  unfold bind. destruct (c w) as [[a | e] w1]; [eauto | discriminate].
Qed.

Lemma set_symms_twice l1 l2 m :
  ShelxlMoleculeM.set_symms l2 (ShelxlMoleculeM.set_symms l1 m) = ShelxlMoleculeM.set_symms l2 m.
Proof. reflexivity. Qed.

Lemma append_symm_Ok_inv self s w w' :
  ShelxlMoleculeM.append_symm self s w = (Ok tt, w') ->
  exists m, molecules w !! self = Some m /\
    w' = with_molecules
           (<[self := ShelxlMoleculeM.set_symms (mol_symms m ++ [s])%list m]> (molecules w)) w.
Proof.
  unfold ShelxlMoleculeM.append_symm, ShelxlMoleculeM.update.
  destruct (molecules w !! self) as [m |]; [| discriminate].
  intros H. injection H as <-. eauto.
Qed.

(** The loop of [addSymm] over the lattice operations appends one address
    per operation. *)
Lemma lattice_loop_appends self newSymm ops : forall w w' m,
  for_each ops (fun symm =>
      lattSymm <- SymmetryElementM.applyLattSymm newSymm symm ;;
      ShelxlMoleculeM.append_symm self lattSymm) w = (Ok tt, w') ->
  molecules w !! self = Some m ->
  exists new,
    length new = length ops /\
    molecules w' !! self = Some (ShelxlMoleculeM.set_symms (mol_symms m ++ new)%list m).
Proof.
  induction ops as [| symm ops IH]; intros w w' m Hrun Hm.
  - cbn in Hrun. injection Hrun as <-. exists []. split; [reflexivity |].
    rewrite app_nil_r, Hm. f_equal. destruct m; reflexivity.
  - cbn [for_each] in Hrun.
    apply bind_Ok_inv in Hrun as ([] & w2 & Hstep & Hrest).
    apply bind_Ok_inv in Hstep as (r & w1 & Happly & Happend).
    pose proof (applyLattSymm_same_molecules newSymm symm w) as (Hmol & _ & _).
    rewrite Happly in Hmol. cbn [snd] in Hmol.
    apply append_symm_Ok_inv in Happend as (m1 & Hm1 & ->).
    unfold ref in *. rewrite Hmol, Hm in Hm1. injection Hm1 as <-.
    assert (Hlt : (self < length (molecules w1))%nat)
      by (rewrite Hmol; eapply lookup_lt_Some; eauto).
    destruct (IH _ _ (ShelxlMoleculeM.set_symms (mol_symms m ++ [r])%list m) Hrest)
      as (new & Hlen & Hres).
    { cbn. apply list_lookup_insert_eq. exact Hlt. }
    exists (r :: new). split; [cbn; lia |].
    rewrite Hres. cbn [mol_symms ShelxlMoleculeM.set_symms].
    rewrite set_symms_twice. rewrite <- app_assoc. reflexivity.
Qed.

(** X16: a symmetry instruction that is processed without an exception
    appends [1 + n] operations for [n] lattice translations, twice
    that with the centrosymmetric flag, and changes nothing else in the
    molecule. *)
Theorem addSymm_count self symmData w w' m :
  molecules w !! self = Some m ->
  ShelxlMoleculeM.addSymm self symmData w = (Ok tt, w') ->
  exists new,
    molecules w' !! self = Some (ShelxlMoleculeM.set_symms (mol_symms m ++ new)%list m) /\
    length new =
      ((1 + length (mol_lattOps m)) * (if mol_centric m then 2 else 1))%nat.
Proof.
  intros Hm Hrun. unfold ShelxlMoleculeM.addSymm in Hrun.
  apply bind_Ok_inv in Hrun as (newSymm & w1 & Hinit & Hrun).
  pose proof (init_same_molecules symmData false w) as (Hmol1 & _ & _).
  rewrite Hinit in Hmol1. cbn [snd] in Hmol1.
  apply bind_Ok_inv in Hrun as ([] & w2 & Happ & Hrun).
  apply append_symm_Ok_inv in Happ as (m1 & Hm1 & ->).
  unfold ref in *. rewrite Hmol1, Hm in Hm1. injection Hm1 as <-.
  assert (Hlt : (self < length (molecules w1))%nat)
    by (rewrite Hmol1; eapply lookup_lt_Some; eauto).
  set (ma := ShelxlMoleculeM.set_symms (mol_symms m ++ [newSymm])%list m) in *.
  set (wa := with_molecules _ w1) in *.
  assert (Hma : molecules wa !! self = Some ma)
    by (subst wa; cbn; apply list_lookup_insert_eq; exact Hlt).
  apply bind_Ok_inv in Hrun as (m2 & w3 & Hload & Hrun).
  unfold ShelxlMoleculeM.load in Hload. unfold ref in *. rewrite Hma in Hload.
  injection Hload as <- <-.
  apply bind_Ok_inv in Hrun as ([] & w4 & Hloop & Hrun).
  destruct (lattice_loop_appends _ _ _ _ _ ma Hloop Hma) as (new1 & Hlen1 & Hmb).
  apply bind_Ok_inv in Hrun as (m3 & w5 & Hload & Hrun).
  unfold ShelxlMoleculeM.load in Hload. unfold ref in *. rewrite Hmb in Hload.
  injection Hload as <- <-.
  cbn [mol_centric mol_lattOps mol_symms ShelxlMoleculeM.set_symms ma] in *.
  destruct (mol_centric m).
  - apply bind_Ok_inv in Hrun as (c & w6 & Hinit2 & Hrun).
    pose proof (init_same_molecules symmData true w4) as (Hmol2 & _ & _).
    rewrite Hinit2 in Hmol2. cbn [snd] in Hmol2.
    apply bind_Ok_inv in Hrun as ([] & w7 & Happ & Hrun).
    apply append_symm_Ok_inv in Happ as (m4 & Hm4 & ->).
    unfold ref in *. rewrite Hmol2, Hmb in Hm4. injection Hm4 as <-.
    assert (Hlt6 : (self < length (molecules w6))%nat)
      by (rewrite Hmol2; eapply lookup_lt_Some; eauto).
    apply bind_Ok_inv in Hrun as (m5 & w8 & Hload & Hrun).
    unfold ShelxlMoleculeM.load in Hload. cbn [molecules with_molecules] in Hload.
    unfold ref in *. rewrite list_lookup_insert_eq in Hload by exact Hlt6.
    injection Hload as <- <-.
    cbn [mol_lattOps ShelxlMoleculeM.set_symms] in Hrun.
    destruct (lattice_loop_appends _ _ _ _ _ _ Hrun
                ltac:(cbn; apply list_lookup_insert_eq; exact Hlt6))
      as (new2 & Hlen2 & Hfinal).
    exists ([newSymm] ++ new1 ++ [c] ++ new2)%list. unfold ref in *. split.
    + rewrite Hfinal. cbn [mol_symms ShelxlMoleculeM.set_symms].
      f_equal. unfold ShelxlMoleculeM.set_symms. cbn. f_equal.
      rewrite <- !app_assoc. reflexivity.
    + rewrite !length_app. cbn [length]. cbn in Hlen1, Hlen2. rewrite Hlen1, Hlen2. lia.
  - cbn in Hrun. injection Hrun as <-.
    exists ([newSymm] ++ new1)%list. unfold ref in *. split.
    + rewrite Hmb. f_equal. unfold ShelxlMoleculeM.set_symms. cbn. f_equal.
      rewrite <- !app_assoc. reflexivity.
    + rewrite length_app. cbn [length]. cbn in Hlen1. rewrite Hlen1. lia.
Qed.

(** X17: an equivalence is stored under its name, in place of an earlier one of
    the same name; the other names keep their elements. *)
Theorem addEqiv_last_write_wins self name data w w' m :
  molecules w !! self = Some m ->
  ShelxlMoleculeM.addEqiv self name data w = (Ok tt, w') ->
  exists m',
    molecules w' !! self = Some m' /\
    mol_eqivs m' !! name = Some (length (elements w)) /\
    (forall other, other <> name -> mol_eqivs m' !! other = mol_eqivs m !! other) /\
    length (elements w') = S (length (elements w)).
Proof.
  intros Hm Hrun. unfold ShelxlMoleculeM.addEqiv in Hrun.
  apply bind_Ok_inv in Hrun as (symm & w1 & Hinit & Hupd).
  pose proof (init_same_molecules data false w) as (Hmol & _ & _).
  pose proof (init_outcome data false w) as Hout.
  rewrite Hinit in Hmol, Hout. cbn [snd] in Hmol.
  destruct Hout as (-> & e & Hel & _ & _).
  unfold ShelxlMoleculeM.update in Hupd. unfold ref in *. rewrite Hmol, Hm in Hupd.
  injection Hupd as <-.
  eexists. split.
  - cbn. apply list_lookup_insert_eq. eapply lookup_lt_Some; eauto.
  - cbn. split; [apply lookup_insert_eq |]. split.
    + intros other Hne. apply lookup_insert_ne. congruence.
    + rewrite Hel, length_app. cbn. lia.
Qed.

(** ** Atom records *)

Lemma exponent_raises s e : PyNum.exponent s = Raise e -> e = ValueError.
Proof.
  unfold PyNum.exponent. destruct s as [| c t]; [discriminate |].
  destruct (_ || _); [| intros [= <-]; reflexivity].
  destruct (PyNum.sign t) as [neg t1].
  destruct (PyNum.digits 0 0 t1) as [[v n] rest].
  destruct (n =? 0)%nat; [intros [= <-]; reflexivity |].
  destruct (PyStr.is_empty rest); [discriminate | intros [= <-]; reflexivity].
Qed.

Lemma float_raises s e : PyNum.float s = Raise e -> e = ValueError \/ e = OutOfModel.
Proof.
  unfold PyNum.float.
  destruct (PyStr.contains "_" _); [intros [= <-]; auto |].
  destruct (PyNum.sign _) as [neg s1].
  destruct (PyNum.special s1); [intros [= <-]; auto |].
  destruct (PyNum.digits 0 0 s1) as [[ip ni] s2].
  destruct (match s2 with String "." t => _ | _ => _ end) as [[fp nf] s3].
  destruct ((ni + nf)%nat =? 0)%nat; [intros [= <-]; auto |].
  destruct (PyNum.exponent s3) eqn:He; cbn; [discriminate |].
  intros [= <-]. left. eapply exponent_raises; eauto.
Qed.

Lemma rmap_raises {A B} (f : A -> result B) l e :
  rmap f l = Raise e -> exists x, In x l /\ f x = Raise e.
Proof.
  induction l as [| x t IH]; cbn; [discriminate |].
  destruct (f x) eqn:Hx; cbn.
  - destruct (rmap f t); cbn; [discriminate |].
    intros [= <-]. destruct (IH eq_refl) as (y & Hy & Hfy). eauto.
  - intros [= <-]. eauto.
Qed.

Lemma rmap_length {A B} (f : A -> result B) l l' : rmap f l = Ok l' -> length l' = length l.
Proof. intros H. apply rmap_Ok_Forall2 in H. symmetry. eapply Forall2_length; eauto. Qed.

Lemma short_record_raises (line : string) (w : World) :
  (length (PyStr.split line) < 6)%nat ->
  exists e, ShelxlAtomM.__init__ line w = (Raise e, w) /\
            (e = ValueError \/ e = IndexError \/ e = OutOfModel).
Proof.
  intros Hlen. unfold ShelxlAtomM.__init__.
  rewrite lift_bind.
  destruct (rmap PyNum.float (tail (PyStr.split line))) as [nums | e] eqn:Hn.
  2:{ exists e. split; [reflexivity |].
      apply rmap_raises in Hn as (x & _ & Hx). apply float_raises in Hx. tauto. }
  apply rmap_length in Hn.
  assert (Hnums : (length nums < 5)%nat).
  { rewrite Hn. destruct (PyStr.split line); cbn in *; lia. }
  exists IndexError. split; [| tauto].
  rewrite lift_bind. unfold index at 1.
  destruct (PyStr.split line !! 0%nat) as [name |]; [| reflexivity].
  rewrite lift_bind. unfold index at 1.
  destruct (nums !! 0%nat) as [sfac |]; [| reflexivity].
  rewrite lift_bind. unfold index at 1.
  rewrite (lookup_ge_None_2 nums 4) by lia. reflexivity.
Qed.

(** X18: a record of fewer than six words is never an atom: the constructor
    raises, and the molecule is not touched. *)
Theorem atom_needs_six_words (line : string) (w : World) :
  (length (PyStr.split line) < 6)%nat ->
  exists e, ShelxlAtomM.__init__ line w = (Raise e, w) /\
            (e = ValueError \/ e = IndexError \/ e = OutOfModel).
Proof. intros Hlen. apply short_record_raises. exact Hlen. Qed.

(** X19: what a successful constructor has read, in terms of what [float]
    gives for the words: the first word is the name, the second the
    scattering factor, the third to fifth the three coordinates, the words
    after the sixth the displacement parameters; there are at least six
    words. The atom is filed with the peaks of the current molecule when
    its name starts with q or Q, and with its atoms otherwise, and nothing
    else changes. *)
Theorem atom_fields (line : string) (w : World) (a : ShelxlAtom) (w' : World) :
  ShelxlAtomM.__init__ line w = (Ok a, w') ->
  exists name nums,
    PyStr.split line !! 0%nat = Some name /\
    rmap PyNum.float (tail (PyStr.split line)) = Ok nums /\
    (5 <= length nums)%nat /\
    at_name a = name /\
    Some (at_sfac a) = nums !! 0%nat /\
    at_frac a = take 3 (drop 1 nums) /\ length (at_frac a) = 3%nat /\
    at_adp a = drop 5 nums /\
    at_qPeak a = match PyStr.head name with
                 | Some c => Ascii.eqb (PyStr.upper_char c) "Q"
                 | None => false
                 end /\
    registered a w w'.
Proof.
  intros Hrun.
  pose proof (atom_init_outcome line w) as Hreg. rewrite Hrun in Hreg.
  revert Hrun. unfold ShelxlAtomM.__init__.
  rewrite lift_bind.
  destruct (rmap PyNum.float (tail (PyStr.split line))) as [nums |] eqn:Hn; [| discriminate].
  rewrite lift_bind. unfold index at 1.
  destruct (PyStr.split line !! 0%nat) as [name |] eqn:Hname; [| discriminate].
  rewrite lift_bind. unfold index at 1.
  destruct (nums !! 0%nat) as [sfac |] eqn:Hsfac; [| discriminate].
  rewrite lift_bind. unfold index at 1.
  destruct (nums !! 4%nat) as [d |] eqn:Hd; [| discriminate].
  assert (Hlen : (5 <= length nums)%nat) by (apply lookup_lt_Some in Hd; lia).
  assert (Hfrac : length (take 3 (drop 1 nums)) = 3%nat).
  { rewrite length_take, length_drop. lia. }
  intros Hrun. exists name, nums.
  split; [reflexivity |]. split; [reflexivity |]. split; [exact Hlen |].
  assert (Hshape :
    at_name a = name /\ at_sfac a = sfac /\ at_frac a = take 3 (drop 1 nums) /\
    at_adp a = drop 5 nums /\
    at_qPeak a = Ascii.eqb (PyStr.upper_char
                   match PyStr.head name with Some c => c | None => " "%char end) "Q").
  { destruct (Ascii.eqb _ "Q") eqn:Hq in Hrun |- *;
      apply bind_Ok_inv in Hrun as (mol & w1 & _ & Hrun);
      apply bind_Ok_inv in Hrun as ([] & w2 & _ & Hrun);
      injection Hrun as <- <-; cbn; rewrite ?Hq; repeat split. }
  destruct Hshape as (H1 & H2 & H3 & H4 & H6).
  rewrite H1, H2, H3, H4, H6.
  split; [reflexivity |]. split; [symmetry; exact Hsfac |].
  split; [reflexivity |]. split; [exact Hfrac |].
  split; [reflexivity |].
  split; [destruct name; reflexivity | exact Hreg].
Qed.

(** ** Expressions are read without regard to case and blanks *)

Lemma lower_upper_char c : PyStr.lower_char (PyStr.upper_char c) = PyStr.lower_char c.
Proof. destruct c as [[] [] [] [] [] [] [] []]; reflexivity. Qed.

Lemma lower_lower_char c : PyStr.lower_char (PyStr.lower_char c) = PyStr.lower_char c.
Proof. destruct c as [[] [] [] [] [] [] [] []]; reflexivity. Qed.

Lemma lower_char_blank c : Ascii.eqb (PyStr.lower_char c) " " = Ascii.eqb c " ".
Proof. destruct c as [[] [] [] [] [] [] [] []]; reflexivity. Qed.

Lemma lower_upper s : PyStr.lower (PyStr.upper s) = PyStr.lower s.
Proof.
  unfold PyStr.lower, PyStr.upper.
  induction s as [| c s IH]; [reflexivity |].
  cbn [PyStr.smap]. now rewrite lower_upper_char, IH.
Qed.

Lemma lower_lower s : PyStr.lower (PyStr.lower s) = PyStr.lower s.
Proof.
  unfold PyStr.lower.
  induction s as [| c s IH]; [reflexivity |].
  cbn [PyStr.smap]. now rewrite lower_lower_char, IH.
Qed.

Lemma lower_strip_blanks s :
  PyStr.lower (PyStr.replace " " "" s) = PyStr.replace " " "" (PyStr.lower s).
Proof.
  unfold PyStr.lower.
  induction s as [| c s IH]; [reflexivity |].
  cbn [PyStr.smap PyStr.replace].
  rewrite lower_char_blank.
  destruct (Ascii.eqb c " ").
  - rewrite !app_empty. exact IH.
  - cbn [PyStr.smap]. now rewrite IH.
Qed.

Lemma strip_blanks_twice s :
  PyStr.replace " " "" (PyStr.replace " " "" s) = PyStr.replace " " "" s.
Proof.
  induction s as [| c s IH]; [reflexivity |].
  cbn [PyStr.replace].
  destruct (Ascii.eqb c " ") eqn:Hc.
  - rewrite !app_empty. exact IH.
  - cbn [PyStr.replace]. now rewrite Hc, IH.
Qed.

(** X20: upper case, lower case and blanks make no difference to the row and
    the translation read from an expression. *)
Theorem parse_line_ignores_case_and_blanks (s : string) :
  SymmetryElementM._parse_line (PyStr.upper s) = SymmetryElementM._parse_line s /\
  SymmetryElementM._parse_line (PyStr.lower s) = SymmetryElementM._parse_line s /\
  SymmetryElementM._parse_line (PyStr.replace " " "" s) = SymmetryElementM._parse_line s.
Proof.
  unfold SymmetryElementM._parse_line.
  rewrite lower_upper, lower_lower, lower_strip_blanks, strip_blanks_twice.
  repeat split.
Qed.

(** ** The finishers of CELL, SFAC and LATT *)

Lemma current_bind {B} (k : ref -> M B) w mol :
  CURRENTMOLECULE w = Some mol -> bind current k w = k mol w.
Proof. intros H. unfold bind, current. now rewrite H. Qed.

Lemma update_bind {B} self f (k : unit -> M B) w m :
  molecules w !! self = Some m ->
  bind (ShelxlMoleculeM.update self f) k w =
  k tt (with_molecules (<[self := f m]> (molecules w)) w).
Proof. intros H. unfold bind, ShelxlMoleculeM.update. now rewrite H. Qed.

(** X21: the finisher of CELL takes the first number as the wavelength and all
    the others, however many, as the cell. Without a number it empties the
    cell and then raises; a word that is no number raises before anything
    is stored. *)
Theorem cell_finished_outcome body w mol m :
  CURRENTMOLECULE w = Some mol ->
  molecules w !! mol = Some m ->
  Parsers.cell_finished body w =
  match Parsers.floats_after_keyword body with
  | Ok (d0 :: rest) =>
      (Ok tt,
       with_molecules
         (<[mol := ShelxlMoleculeM.set_waveLength (Some d0)
                     (ShelxlMoleculeM.set_cell rest m)]> (molecules w)) w)
  | Ok [] =>
      (Raise IndexError,
       with_molecules (<[mol := ShelxlMoleculeM.set_cell [] m]> (molecules w)) w)
  | Raise e => (Raise e, w)
  end.
Proof.
  intros Hcur Hm.
  assert (Hlt : (mol < length (molecules w))%nat) by (eapply lookup_lt_Some; eauto).
  unfold Parsers.cell_finished, ShelxlMoleculeM.setCell, ShelxlMoleculeM.setWavelength.
  rewrite lift_bind.
  destruct (Parsers.floats_after_keyword body) as [[| d0 rest] | e]; [| | reflexivity].
  - rewrite (current_bind _ _ mol Hcur), (update_bind _ _ _ _ m Hm).
    rewrite lift_bind. reflexivity.
  - rewrite (current_bind _ _ mol Hcur), (update_bind _ _ _ _ m Hm).
    rewrite lift_bind. cbn [index lookup list_lookup tail].
    rewrite (current_bind _ _ mol) by exact Hcur.
    unfold ShelxlMoleculeM.update. cbn [molecules with_molecules]. unfold ref in *.
    rewrite list_lookup_insert_eq by exact Hlt.
    cbn [with_molecules molecules symm_ID elements pair_lists CURRENTMOLECULE].
    rewrite list_insert_insert_eq. reflexivity.
Qed.

(** The loop of [SfacParser.finished] over plain symbols. *)
Lemma addSfac_loop words : forall w mol m,
  CURRENTMOLECULE w = Some mol ->
  molecules w !! mol = Some m ->
  for_each words (fun sfac => mol <- current ;; ShelxlMoleculeM.addSfac mol sfac) w =
  (Ok tt,
   with_molecules
     (<[mol := ShelxlMoleculeM.set_sfacs (mol_sfacs m ++ words)%list m]> (molecules w)) w).
Proof.
  induction words as [| sfac words IH]; intros w mol m Hcur Hm.
  - cbn. rewrite app_nil_r.
    replace (ShelxlMoleculeM.set_sfacs (mol_sfacs m) m) with m by (destruct m; reflexivity).
    unfold ref in *. rewrite (list_insert_id _ _ _ Hm). destruct w; reflexivity.
  - assert (Hlt : (mol < length (molecules w))%nat) by (eapply lookup_lt_Some; eauto).
    cbn [for_each].
    rewrite bind_assoc, (current_bind _ _ mol Hcur).
    unfold ShelxlMoleculeM.addSfac at 1. rewrite (update_bind _ _ _ _ m Hm).
    rewrite (IH _ mol (ShelxlMoleculeM.set_sfacs (mol_sfacs m ++ [sfac])%list m)).
    + cbn [with_molecules molecules symm_ID elements pair_lists CURRENTMOLECULE
           mol_sfacs ShelxlMoleculeM.set_sfacs].
      unfold ref in *. rewrite list_insert_insert_eq.
      unfold ShelxlMoleculeM.set_sfacs. cbn. rewrite <- app_assoc. reflexivity.
    + exact Hcur.
    + cbn. unfold ref in *. apply list_lookup_insert_eq. exact Hlt.
Qed.

(** X22: when no word after SFAC is a number, every word is registered as an
    element symbol, in the order of the line, and nothing else changes. *)
Theorem sfac_finished_plain body w mol m :
  CURRENTMOLECULE w = Some mol ->
  molecules w !! mol = Some m ->
  Parsers.any_float (tail (PyStr.split body)) = Ok false ->
  Parsers.sfac_finished body w =
  (Ok tt,
   with_molecules
     (<[mol := ShelxlMoleculeM.set_sfacs
                 (mol_sfacs m ++ tail (PyStr.split body))%list m]> (molecules w)) w).
Proof.
  intros Hcur Hm Hplain. unfold Parsers.sfac_finished.
  rewrite lift_bind, Hplain. cbn [negb].
  apply addSfac_loop; assumption.
Qed.

(** X23: with a number among the words the line is one custom record: the first
    word is its symbol and every other word must be a number. *)
Theorem sfac_finished_custom body w mol m symbol rest nums :
  CURRENTMOLECULE w = Some mol ->
  molecules w !! mol = Some m ->
  tail (PyStr.split body) = symbol :: rest ->
  Parsers.any_float (symbol :: rest) = Ok true ->
  rmap PyNum.float rest = Ok nums ->
  Parsers.sfac_finished body w =
  (Ok tt,
   with_molecules
     (<[mol := ShelxlMoleculeM.set_sfacs (mol_sfacs m ++ [symbol])%list
                 (ShelxlMoleculeM.set_customSfacData
                    (<[symbol := (symbol, nums)]> (mol_customSfacData m)) m)]>
        (molecules w)) w).
Proof.
  intros Hcur Hm Hwords Hcustom Hnums.
  assert (Hlt : (mol < length (molecules w))%nat) by (eapply lookup_lt_Some; eauto).
  unfold Parsers.sfac_finished. rewrite Hwords.
  rewrite lift_bind, Hcustom. cbn [negb].
  rewrite (current_bind _ _ mol Hcur).
  unfold ShelxlMoleculeM.addCustomSfac.
  rewrite lift_bind. cbn [index lookup list_lookup tail].
  rewrite lift_bind, Hnums.
  rewrite (update_bind _ _ _ _ m Hm).
  unfold ShelxlMoleculeM.update. cbn [molecules with_molecules]. unfold ref in *.
  rewrite list_lookup_insert_eq by exact Hlt.
  cbn [with_molecules molecules symm_ID elements pair_lists CURRENTMOLECULE].
  rewrite list_insert_insert_eq. reflexivity.
Qed.

Lemma LATTDICT_table :
  LATTDICT =
  <[7 := [6%nat]]> (<[6 := [5%nat]]> (<[5 := [4%nat]]> (<[4 := [1; 2; 3]%nat]>
    (<[3 := []]> (<[2 := [0%nat]]> (<[1 := []]> ∅)))))).
Proof. reflexivity. Qed.

Lemma LATTDICT_outside (n : Z) : ~ (1 <= n <= 7) -> LATTDICT !! n = None.
Proof.
  intros H. rewrite LATTDICT_table.
  repeat (rewrite lookup_insert_ne by lia). apply lookup_empty.
Qed.

(** A number outside the table raises [KeyError], after the flag has been
    set for a positive number. *)
Lemma latt_finished_outside body N w mol m :
  Parsers.latt_number body = Ok N ->
  ~ (1 <= Z.abs N <= 7) ->
  CURRENTMOLECULE w = Some mol ->
  molecules w !! mol = Some m ->
  Parsers.latt_finished body w =
  (Raise KeyError,
   if (0 <? N)%Z
   then with_molecules (<[mol := ShelxlMoleculeM.set_centric true m]> (molecules w)) w
   else w).
Proof.
  intros HN Hout Hcur Hm. unfold Parsers.latt_finished.
  rewrite lift_bind, HN. rewrite (LATTDICT_outside _ Hout).
  destruct (0 <? N)%Z.
  - rewrite bind_assoc, (current_bind _ _ mol Hcur).
    unfold ShelxlMoleculeM.setCentric. rewrite (update_bind _ _ _ _ m Hm).
    rewrite lift_bind. reflexivity.
  - unfold bind at 1. cbn [ret]. rewrite lift_bind. reflexivity.
Qed.

(** ** The dispatcher *)

(** X24: of the keys of the table exactly seven open a sub-parser, each its
    own; LATT, which the dictionary display lists twice, is one of them. *)
Theorem structured_keywords_complete (key : string) (k : kind) :
  LineParserM.COMMANDS !! key = Some (Open k) <-> In (key, k) structured_keywords.
Proof.
  split.
  - intros H. apply elem_of_map_to_list in H.
    apply list_elem_of_In in H.
    assert (Hall : forallb (fun kv => match snd kv with
                                      | Open k' =>
                                          bool_decide (In (fst kv, k') structured_keywords)
                                      | doNothing => true
                                      end) (map_to_list LineParserM.COMMANDS) = true)
      by (vm_compute; reflexivity).
    rewrite forallb_forall in Hall. specialize (Hall _ H). cbn [fst snd] in Hall.
    apply bool_decide_eq_true_1 in Hall. exact Hall.
  - intros H. cbn in H.
    repeat (destruct H as [H | H]; [injection H as <- <-; vm_compute; reflexivity |]).
    destruct H.
Qed.

(** X25: a blank line, a line that starts with a space and a line whose
    keyword is mapped to [doNothing] give a [ShelxlLine] of the line
    without its terminator, and change nothing. *)
Theorem inert_lines (line : string) (w : World) :
  let l := PyStr.rstrip_char "010" line in
  PyStr.is_empty l = true \/
  PyStr.head l = Some " "%char \/
  LineParserM.COMMANDS !! PyStr.rstrip (PyStr.take 4 l) = Some doNothing ->
  LineParserM.__call__ line w = (Ok (LineParser, TokLine l), w).
Proof.
  intros l H. unfold LineParserM.__call__. fold l.
  destruct (PyStr.is_empty l) eqn:He; [reflexivity |].
  destruct H as [H | [H | H]]; [discriminate | |].
  - destruct l as [| c t]; [discriminate |]. cbn in H. injection H as ->. reflexivity.
  - destruct (match PyStr.head (PyStr.take 4 l) with
              | Some c => Ascii.eqb c " "
              | None => false
              end); [reflexivity |].
    rewrite H. reflexivity.
Qed.

Lemma latt_outside_run (line : string) N w mol m :
  let l := PyStr.rstrip_char "010" line in
  PyStr.take 4 l = "LATT" ->
  PyStr.endswith "=" l = false ->
  Parsers.latt_number l = Ok N ->
  ~ (1 <= Z.abs N <= 7) ->
  CURRENTMOLECULE w = Some mol ->
  molecules w !! mol = Some m ->
  LineParserM.__call__ line w =
  (a <- ShelxlAtomM.__init__ l ;; ret (LineParser, TokAtom a))
    (if (0 <? N)%Z
     then with_molecules (<[mol := ShelxlMoleculeM.set_centric true m]> (molecules w)) w
     else w).
Proof.
  intros l Hkey Heq HN Hout Hcur Hm.
  unfold LineParserM.__call__. fold l.
  assert (Hne : PyStr.is_empty l = false).
  { destruct l; [discriminate | reflexivity]. }
  rewrite Hne, Hkey.
  change (match PyStr.head "LATT" with Some c => Ascii.eqb c " " | None => false end)
    with false. cbv iota.
  assert (Hcmd : LineParserM.COMMANDS !! PyStr.rstrip "LATT" = Some (Open LattParser))
    by (vm_compute; reflexivity).
  rewrite Hcmd.
  unfold try_except, Parsers.get. rewrite Heq. cbn [negb Parsers.finished].
  unfold bind at 1.
  rewrite (latt_finished_outside l N w mol m HN Hout Hcur Hm).
  cbn [decide]. destruct (decide (KeyError = KeyError)) as [_ | Hc]; [| congruence].
  cbn [Parsers.finished Parsers.RETURNTYPE]. unfold bind at 1. cbn [ret].
  rewrite bind_assoc. unfold bind, ret.
  destruct (ShelxlAtomM.__init__ l _) as [[a | e] w']; reflexivity.
Qed.

(** X26: a LATT line whose number is outside the table is read again as
    an atom record named LATT: the [KeyError] of the finisher is caught like
    a missing keyword, after the flag has been set for a positive number,
    and the outcome of the line is that of the atom constructor. A line of
    fewer than six words, as every lattice instruction of the file format
    is, therefore raises, which ends the parse, and it leaves the flag
    set. *)
Theorem latt_outside_reread_as_atom (line : string) N w mol m :
  let l := PyStr.rstrip_char "010" line in
  let w1 := if (0 <? N)%Z
            then with_molecules
                   (<[mol := ShelxlMoleculeM.set_centric true m]> (molecules w)) w
            else w in
  PyStr.take 4 l = "LATT" ->
  PyStr.endswith "=" l = false ->
  Parsers.latt_number l = Ok N ->
  ~ (1 <= Z.abs N <= 7) ->
  CURRENTMOLECULE w = Some mol ->
  molecules w !! mol = Some m ->
  LineParserM.__call__ line w =
    (a <- ShelxlAtomM.__init__ l ;; ret (LineParser, TokAtom a)) w1 /\
  ((length (PyStr.split l) < 6)%nat ->
   exists e, LineParserM.__call__ line w = (Raise e, w1) /\
             (e = ValueError \/ e = IndexError \/ e = OutOfModel)).
Proof.
  intros l w1 Hkey Heq HN Hout Hcur Hm.
  pose proof (latt_outside_run line N w mol m Hkey Heq HN Hout Hcur Hm) as Hrun.
  fold l w1 in Hrun. split; [exact Hrun |].
  intros Hshort. rewrite Hrun.
  destruct (short_record_raises l w1 Hshort) as (e & He & Hcases).
  exists e. split; [| exact Hcases].
  unfold bind. rewrite He. reflexivity.
Qed.

(** ** The line source *)

Lemma readlines_base fuel fp ins :
  (length fp <= fuel)%nat ->
  (ins = None \/ ins = Some []) ->
  ReaderOps.readlines fuel {| rd_fp := fp; rd_inserted := ins |} = fp.
Proof.
  revert fp. induction fuel as [| fuel IH]; intros fp Hlen Hins.
  - destruct fp; [reflexivity | cbn in Hlen; lia].
  - destruct fp as [| n fp].
    + cbn. destruct Hins as [-> | ->]; reflexivity.
    + cbn in Hlen. cbn [ReaderOps.readlines].
      assert (Hnext : ReaderM.next {| rd_fp := n :: fp; rd_inserted := ins |} =
                      Some (n, {| rd_fp := fp; rd_inserted := ins |}))
        by (destruct Hins as [-> | ->]; reflexivity).
      rewrite Hnext. f_equal. apply IH; [lia | exact Hins].
Qed.

Lemma readlines_pending_first fuel (rd : Reader) :
  (length (ReaderOps.pending rd) + length (rd_fp rd) <= fuel)%nat ->
  ReaderOps.readlines fuel rd = (ReaderOps.pending rd ++ rd_fp rd)%list.
Proof.
  destruct rd as [fp ins]. unfold ReaderOps.pending. cbn [rd_fp rd_inserted].
  destruct ins as [l |].
  - revert fuel. induction l as [| n l IH]; intros fuel Hlen.
    + cbn in Hlen. cbn [app]. apply readlines_base; [lia | auto].
    + cbn in Hlen. destruct fuel as [| fuel]; [lia |].
      cbn [ReaderOps.readlines ReaderM.next rd_inserted rd_fp app].
      f_equal. apply IH. lia.
  - intros Hlen. cbn in Hlen. cbn [app]. apply readlines_base; [lia | auto].
Qed.

(** X27: a reader that is left alone yields what is left of the inserted
    file first and then what is left of the base file, every line once. *)
Theorem readlines_order fuel (rd : Reader) :
  (length (ReaderOps.pending rd) + length (rd_fp rd) <= fuel)%nat ->
  ReaderOps.readlines fuel rd = (ReaderOps.pending rd ++ rd_fp rd)%list /\
  length (ReaderOps.readlines fuel rd) =
    (length (ReaderOps.pending rd) + length (rd_fp rd))%nat.
Proof.
  intros Hlen. rewrite (readlines_pending_first fuel rd Hlen).
  split; [reflexivity | apply length_app].
Qed.

(** X28: there is one slot for an inserted file: an insertion made while
    another file is being read replaces it, and the lines that were left of
    the earlier file are never read. A missing file changes nothing. *)
Theorem insert_replaces_pending files fileName (rd : Reader) fuel :
  match files !! fileName with
  | Some content =>
      (length content + length (rd_fp rd) <= fuel)%nat ->
      ReaderOps.readlines fuel (ReaderM.insert files fileName rd) =
      (content ++ rd_fp rd)%list
  | None => ReaderM.insert files fileName rd = rd
  end.
Proof.
  unfold ReaderM.insert. destruct (files !! fileName) as [content |]; [| reflexivity].
  intros Hlen.
  apply (readlines_pending_first fuel {| rd_fp := rd_fp rd; rd_inserted := Some content |}).
  exact Hlen.
Qed.

(** X29: reading never empties the slot: [fileInserted] stays true after the
    last line of the inserted file, until [remove] is called, and [remove]
    takes the reader back to the base file. *)
Theorem fileInserted_until_remove (rd : Reader) :
  (forall n rd', ReaderM.next rd = Some (n, rd') ->
                 ReaderOps.fileInserted rd' = ReaderOps.fileInserted rd) /\
  match ReaderOps.remove rd with
  | Ok rd' =>
      ReaderOps.fileInserted rd = true /\ ReaderOps.fileInserted rd' = false /\
      forall fuel, (length (rd_fp rd) <= fuel)%nat -> ReaderOps.readlines fuel rd' = rd_fp rd
  | Raise e => e = AttributeError /\ ReaderOps.fileInserted rd = false
  end.
Proof.
  split.
  - intros n rd'. unfold ReaderM.next, ReaderOps.fileInserted.
    destruct rd as [fp [[| x l] |]]; cbn.
    + destruct fp; [discriminate |]. intros [= <- <-]. reflexivity.
    + intros [= <- <-]. reflexivity.
    + destruct fp; [discriminate |]. intros [= <- <-]. reflexivity.
  - unfold ReaderOps.remove, ReaderOps.fileInserted.
    destruct (rd_inserted rd); [| split; reflexivity].
    cbn. repeat split. intros fuel Hlen. apply readlines_base; [exact Hlen | auto].
Qed.

(** ** Serializing and reading back transposes the matrix *)

Lemma parse_line_row s p : SymmetryElementM._parse_line s = Ok p -> fst p = row_of s.
Proof.
  unfold SymmetryElementM._parse_line, row_of.
  destruct (SymmetryElementM._partition _ "x") as [ex s1].
  destruct (SymmetryElementM._partition s1 "y") as [ey s2].
  destruct (SymmetryElementM._partition s2 "z") as [ez s3].
  destruct (negb (PyStr.is_empty s3)).
  - destruct (SymmetryElementM._float s3); cbn; [| discriminate].
    intros [= <-]. reflexivity.
  - intros [= <-]. reflexivity.
Qed.

Lemma all_chars_app p a b : all_chars p (a ++ b) = all_chars p a && all_chars p b.
Proof.
  induction a as [| c a IH]; [reflexivity |].
  rewrite app_cons. cbn [all_chars]. now rewrite IH, andb_assoc.
Qed.

Lemma all_chars_weaken (p q : ascii -> bool) s :
  (forall c, p c = true -> q c = true) -> all_chars p s = true -> all_chars q s = true.
Proof.
  intros Hpq. induction s as [| c s IH]; [reflexivity |].
  cbn [all_chars]. intros H. apply andb_prop in H as [Hc Hs].
  now rewrite (Hpq c Hc), IH.
Qed.

Lemma all_chars_contains p s c :
  all_chars p s = true -> p c = false -> PyStr.contains c s = false.
Proof.
  intros Hs Hc. induction s as [| a s IH]; [reflexivity |].
  cbn [all_chars PyStr.contains] in *. apply andb_prop in Hs as [Ha Hs].
  rewrite (IH Hs), orb_false_r.
  destruct (Ascii.eqb_spec a c) as [-> | _]; [congruence | reflexivity].
Qed.

Lemma number_char_lower c : number_char c = true -> PyStr.lower_char c = c.
Proof. destruct c as [[] [] [] [] [] [] [] []]; cbn; intros H; try discriminate; reflexivity. Qed.

Lemma lower_number s : all_chars number_char s = true -> PyStr.lower s = s.
Proof.
  unfold PyStr.lower. induction s as [| c s IH]; [reflexivity |].
  cbn [all_chars PyStr.smap]. intros H. apply andb_prop in H as [Hc Hs].
  now rewrite (number_char_lower c Hc), IH.
Qed.

Lemma replace_absent c r s : PyStr.contains c s = false -> PyStr.replace c r s = s.
Proof.
  induction s as [| a s IH]; [reflexivity |].
  cbn [PyStr.contains PyStr.replace]. intros H. apply orb_false_elim in H as [Ha Hs].
  now rewrite Ha, IH.
Qed.

Lemma replace_app c r a b :
  PyStr.replace c r (a ++ b) = PyStr.replace c r a ++ PyStr.replace c r b.
Proof.
  induction a as [| x a IH]; [reflexivity |].
  rewrite app_cons. cbn [PyStr.replace].
  destruct (Ascii.eqb x c).
  - now rewrite IH, string_app_assoc.
  - now rewrite app_cons, IH.
Qed.

Lemma lower_app a b : PyStr.lower (a ++ b) = PyStr.lower a ++ PyStr.lower b.
Proof.
  unfold PyStr.lower. induction a as [| x a IH]; [reflexivity |].
  rewrite app_cons. cbn [PyStr.smap]. now rewrite app_cons, IH.
Qed.

Lemma partition_absent c s :
  PyStr.contains c s = false -> PyStr.partition c s = (s, "", "").
Proof.
  induction s as [| a s IH]; [reflexivity |].
  cbn [PyStr.contains PyStr.partition]. intros H. apply orb_false_elim in H as [Ha Hs].
  now rewrite Ha, (IH Hs).
Qed.

Lemma partition_found c a b :
  PyStr.contains c a = false ->
  PyStr.partition c (a ++ String c b) = (a, String c "", b).
Proof.
  induction a as [| x a IH]; intros H.
  - rewrite app_empty. cbn [PyStr.partition]. now rewrite Ascii.eqb_refl.
  - cbn [PyStr.contains] in H. apply orb_false_elim in H as [Hx Ha].
    rewrite app_cons. cbn [PyStr.partition]. now rewrite Hx, (IH Ha).
Qed.

Lemma last_app_single a c : PyStr.last (a ++ String c "") = Some c.
Proof.
  induction a as [| x a IH]; [reflexivity |].
  rewrite app_cons. cbn [PyStr.last]. rewrite IH.
  destruct (a ++ String c "") eqn:E; [| reflexivity].
  destruct a; discriminate.
Qed.

Lemma init_app_single a c : PyStr.init (a ++ String c "") = a.
Proof.
  induction a as [| x a IH]; [reflexivity |].
  rewrite app_cons. cbn [PyStr.init]. rewrite IH.
  destruct (a ++ String c "") eqn:E; [destruct a; discriminate | reflexivity].
Qed.

(** *** One axis at a time *)

Section PartitionSteps.

Variable T : string.
Variable c : ascii.
Hypothesis T_no_c : PyStr.contains c T = false.
Hypothesis T_no_plus : PyStr.contains "+" T = false.
Hypothesis T_last : PyStr.last T <> Some "-"%char.
Hypothesis c_not_minus : Ascii.eqb "-" c = false.
Hypothesis c_not_plus : Ascii.eqb "+" c = false.

Lemma step_absent rest :
  PyStr.contains c rest = false ->
  SymmetryElementM._partition (T ++ rest) c = (0, T ++ rest).
Proof.
  intros Hrest. unfold SymmetryElementM._partition.
  rewrite partition_absent by (rewrite contains_app, T_no_c, Hrest; reflexivity).
  reflexivity.
Qed.

Lemma step_minus rest :
  SymmetryElementM._partition (T ++ String "-" (String c rest)) c = (-1, T ++ rest).
Proof.
  unfold SymmetryElementM._partition.
  change (T ++ String "-" (String c rest)) with (T ++ (String "-" "" ++ String c rest)).
  rewrite <- string_app_assoc.
  rewrite partition_found.
  2:{ rewrite contains_app, T_no_c. cbn [PyStr.contains]. now rewrite c_not_minus. }
  cbn [PyStr.is_empty negb]. rewrite last_app_single, init_app_single.
  reflexivity.
Qed.

Lemma step_plus rest :
  SymmetryElementM._partition (T ++ String "+" (String c rest)) c =
  (1, T ++ PyStr.replace "+" "" rest).
Proof.
  unfold SymmetryElementM._partition.
  change (T ++ String "+" (String c rest)) with (T ++ (String "+" "" ++ String c rest)).
  rewrite <- string_app_assoc.
  rewrite partition_found.
  2:{ rewrite contains_app, T_no_c. cbn [PyStr.contains]. now rewrite c_not_plus. }
  cbn [PyStr.is_empty negb]. rewrite last_app_single.
  change (Ascii.eqb "+" "-") with false. cbv iota.
  rewrite !replace_app, (replace_absent "+" "" T T_no_plus).
  cbn [PyStr.replace]. change (Ascii.eqb "+" "+") with true. cbv iota.
  rewrite !app_empty, app_empty_r. reflexivity.
Qed.

Lemma step_bare rest :
  SymmetryElementM._partition (T ++ String c rest) c =
  (1, T ++ PyStr.replace "+" "" rest).
Proof.
  unfold SymmetryElementM._partition.
  rewrite partition_found by exact T_no_c.
  cbn [PyStr.is_empty negb].
  assert (Hsign : Ascii.eqb (match PyStr.last T with Some a => a | None => "+"%char end)
                            "-" = false).
  { destruct (PyStr.last T) as [a |] eqn:Hl; [| reflexivity].
    destruct (Ascii.eqb_spec a "-") as [-> | _]; [congruence | reflexivity]. }
  rewrite Hsign, replace_app, (replace_absent "+" "" T T_no_plus). reflexivity.
Qed.

End PartitionSteps.

Lemma axis_text_cases m (axis : string) :
  (SymmetryElementM.axis_text m axis = "" /\ Z.sgn m = 0 /\ m = 0) \/
  (SymmetryElementM.axis_text m axis = "-" ++ axis /\ Z.sgn m = -1 /\ m <> 0) \/
  (SymmetryElementM.axis_text m axis =
     (if negb (PyStr.is_empty axis) then "+" ++ axis else axis) /\ Z.sgn m = 1 /\ m <> 0).
Proof.
  unfold SymmetryElementM.axis_text.
  destruct (Z.eqb_spec m 0) as [-> | Hne].
  - left. repeat split.
  - destruct (Z.ltb_spec m 0).
    + right. left. repeat split; [lia | exact Hne].
    + right. right. repeat split; [lia | exact Hne].
Qed.

Ltac compute_unplus :=
  repeat match goal with
         | |- context [PyStr.replace "+" "" ?s] =>
             let t := eval vm_compute in (PyStr.replace "+" "" s) in
             change (PyStr.replace "+" "" s) with t
         end.

(** The row read back from one serialized expression holds the signs of
    the three matrix entries that were written. *)
Lemma row_of_serialized (T : string) (m0 m1 m2 : Z) (pre : string) :
  all_chars number_char T = true ->
  PyStr.last T <> Some "-"%char ->
  pre = "" \/ pre = " " ->
  row_of (pre ++ T ++ SymmetryElementM.axis_text m0 "X" ++
          SymmetryElementM.axis_text m1 "Y" ++ SymmetryElementM.axis_text m2 "Z") =
  [Z.sgn m0; Z.sgn m1; Z.sgn m2].
Proof.
  intros HT Hlast Hpre.
  assert (Hx : PyStr.contains "x" T = false) by (eapply all_chars_contains; eauto).
  assert (Hy : PyStr.contains "y" T = false) by (eapply all_chars_contains; eauto).
  assert (Hz : PyStr.contains "z" T = false) by (eapply all_chars_contains; eauto).
  assert (Hp : PyStr.contains "+" T = false) by (eapply all_chars_contains; eauto).
  assert (Hb : PyStr.contains " " T = false) by (eapply all_chars_contains; eauto).
  unfold row_of.
  rewrite !lower_app, !replace_app, (lower_number T HT), (replace_absent " " "" T Hb).
  assert (Hpre' : PyStr.replace " " "" (PyStr.lower pre) = "")
    by (destruct Hpre as [-> | ->]; reflexivity).
  rewrite Hpre', app_empty.
  destruct (axis_text_cases m0 "X") as [(-> & -> & _) | [(-> & -> & _) | (-> & -> & _)]];
  destruct (axis_text_cases m1 "Y") as [(-> & -> & _) | [(-> & -> & _) | (-> & -> & _)]];
  destruct (axis_text_cases m2 "Z") as [(-> & -> & _) | [(-> & -> & _) | (-> & -> & _)]];
  match goal with
  | |- context [T ++ ?a ++ ?b ++ ?c] =>
      let t := eval vm_compute in (a ++ b ++ c) in
      change (T ++ a ++ b ++ c) with (T ++ t)
  end;
  repeat (first
    [ rewrite (step_minus T "x" Hx eq_refl)
    | rewrite (step_plus T "x" Hx Hp eq_refl)
    | rewrite (step_bare T "x" Hx Hp Hlast)
    | rewrite (step_absent T "x" Hx) by reflexivity
    | rewrite (step_minus T "y" Hy eq_refl)
    | rewrite (step_plus T "y" Hy Hp eq_refl)
    | rewrite (step_bare T "y" Hy Hp Hlast)
    | rewrite (step_absent T "y" Hy) by reflexivity
    | rewrite (step_minus T "z" Hz eq_refl)
    | rewrite (step_plus T "z" Hz Hp eq_refl)
    | rewrite (step_bare T "z" Hz Hp Hlast)
    | rewrite (step_absent T "z" Hz) by reflexivity ];
    compute_unplus);
  reflexivity.
Qed.

(** *** The text of a printed number *)

Lemma digit_char_digit n : digit_only (PyNum.digit_char (n mod 10)) = true.
Proof.
  pose proof (Z.mod_pos_bound n 10 ltac:(lia)) as Hb.
  remember (n mod 10) as d eqn:Hd. clear Hd.
  assert (H : d = 0 \/ d = 1 \/ d = 2 \/ d = 3 \/ d = 4 \/ d = 5 \/ d = 6 \/ d = 7 \/
              d = 8 \/ d = 9) by lia.
  repeat (destruct H as [-> | H]); try subst d; reflexivity.
Qed.

Lemma nat_digits_digits fuel n acc :
  all_chars digit_only acc = true ->
  all_chars digit_only (PyNum.nat_digits fuel n acc) = true.
Proof.
  revert n acc. induction fuel as [| fuel IH]; intros n acc H;
    cbn [PyNum.nat_digits]; [exact H |].
  assert (H' : all_chars digit_only (String (PyNum.digit_char (n mod 10)) acc) = true).
  { cbn [all_chars]. now rewrite digit_char_digit, H. }
  destruct (n <? 10); [exact H' | apply IH; exact H'].
Qed.

Lemma nat_digits_nonempty fuel n acc :
  PyStr.is_empty acc = false -> PyStr.is_empty (PyNum.nat_digits fuel n acc) = false.
Proof.
  revert n acc. induction fuel as [| fuel IH]; intros n acc H;
    cbn [PyNum.nat_digits]; [exact H |].
  destruct (n <? 10); [reflexivity | apply IH; reflexivity].
Qed.

Lemma str_nat_digits n : all_chars digit_only (PyNum.str_nat n) = true.
Proof. unfold PyNum.str_nat. apply nat_digits_digits. reflexivity. Qed.

Lemma str_nat_nonempty n : PyStr.is_empty (PyNum.str_nat n) = false.
Proof.
  unfold PyNum.str_nat. cbn [PyNum.nat_digits].
  destruct (n <? 10); [reflexivity | apply nat_digits_nonempty; reflexivity].
Qed.

Lemma zeros_digits k s :
  all_chars digit_only s = true -> all_chars digit_only (PyNum.zeros k s) = true.
Proof.
  intros H. induction k as [| k IH]; cbn [PyNum.zeros all_chars]; [exact H |].
  rewrite IH. reflexivity.
Qed.

Lemma zeros_nonempty k s :
  PyStr.is_empty s = false -> PyStr.is_empty (PyNum.zeros k s) = false.
Proof. intros H. destruct k; [exact H | reflexivity]. Qed.

Lemma last_app_nonempty a b : PyStr.is_empty b = false -> PyStr.last (a ++ b) = PyStr.last b.
Proof.
  intros Hb. induction a as [| x a IH]; [reflexivity |].
  rewrite app_cons. cbn [PyStr.last]. rewrite IH.
  destruct (a ++ b) eqn:E; [| reflexivity].
  destruct a; [rewrite app_empty in E; subst b; discriminate | discriminate].
Qed.

Lemma last_of_digits s :
  all_chars digit_only s = true -> PyStr.last s <> Some "-"%char.
Proof.
  induction s as [| x s IH]; [discriminate |].
  cbn [all_chars PyStr.last]. intros H. apply andb_prop in H as [Hx Hs].
  destruct s as [| y s'].
  - intros [= ->]. discriminate.
  - apply IH. exact Hs.
Qed.

Lemma digit_is_number_char ch : digit_only ch = true -> number_char ch = true.
Proof. unfold digit_only, number_char. destruct (PyNum.digit ch); [reflexivity | discriminate]. Qed.

(** A printed number is made of digits, one point and at most a leading
    minus sign, and it ends in a digit. *)
Lemma str_float_text q s :
  PyNum.str_float q = Ok s ->
  all_chars number_char s = true /\ PyStr.last s <> Some "-"%char.
Proof.
  unfold PyNum.str_float.
  destruct (Qnum (Qred q) =? 0); [intros [= <-]; split; [reflexivity | discriminate] |].
  destruct (PyNum.dec_places 19 0 _) as [k |]; [| discriminate].
  destruct (negb _); [discriminate |].
  set (m := Z.abs (Qnum (Qred q)) * (10 ^ k / Z.pos (Qden (Qred q)))).
  set (fs := if k =? 0 then "0" else PyNum.pad_zeros (Z.to_nat k) (PyNum.str_nat (m mod 10 ^ k))).
  assert (Hfs : all_chars digit_only fs = true /\ PyStr.is_empty fs = false).
  { subst fs. destruct (k =? 0); [split; reflexivity |].
    unfold PyNum.pad_zeros. split.
    - apply zeros_digits, str_nat_digits.
    - apply zeros_nonempty, str_nat_nonempty. }
  destruct Hfs as [Hfs1 Hfs2].
  intros [= <-]. split.
  - rewrite !all_chars_app.
    rewrite (all_chars_weaken _ _ _ digit_is_number_char (str_nat_digits _)).
    rewrite (all_chars_weaken _ _ _ digit_is_number_char Hfs1).
    destruct (Qnum (Qred q) <? 0); reflexivity.
  - rewrite !last_app_nonempty; [apply last_of_digits; exact Hfs1 | exact Hfs2 | |].
    + destruct fs; [discriminate | reflexivity].
    + destruct (PyNum.str_nat (m / 10 ^ k)); reflexivity.
Qed.

(** One serialized expression: the printed translation, if it is not
    zero, and the three axis texts of the row. *)
Lemma line_text_shape e i s :
  SymmetryElementM.line_text e i = Ok s ->
  exists T m0 m1 m2 row,
    se_matrix e !! i = Some row /\
    row !! 0%nat = Some m0 /\ row !! 1%nat = Some m1 /\ row !! 2%nat = Some m2 /\
    all_chars number_char T = true /\ PyStr.last T <> Some "-"%char /\
    s = T ++ SymmetryElementM.axis_text m0 "X" ++ SymmetryElementM.axis_text m1 "Y" ++
        SymmetryElementM.axis_text m2 "Z".
Proof.
  unfold SymmetryElementM.line_text, index.
  destruct (se_matrix e !! i) as [op |] eqn:Hop; [| discriminate]. cbn [rbind].
  destruct (se_trans e !! i) as [t |]; [| discriminate]. cbn [rbind].
  destruct (if SymmetryElementM.truthy t then _ else _) as [T |] eqn:HT; [| discriminate].
  cbn [rbind].
  destruct (op !! 0%nat) as [m0 |] eqn:H0; [| discriminate]. cbn [rbind].
  destruct (op !! 1%nat) as [m1 |] eqn:H1; [| discriminate]. cbn [rbind].
  destruct (op !! 2%nat) as [m2 |] eqn:H2; [| discriminate]. cbn [rbind].
  intros [= <-]. exists T, m0, m1, m2, op.
  assert (Htext : all_chars number_char T = true /\ PyStr.last T <> Some "-"%char).
  { destruct (SymmetryElementM.truthy t).
    - destruct t as [q |].
      + eapply str_float_text; eauto.
      + injection HT as <-. split; [reflexivity | discriminate].
    - injection HT as <-. split; [reflexivity | discriminate]. }
  destruct Htext as [Ht1 Ht2]. repeat split; assumption || reflexivity.
Qed.

Lemma take3_lookup {A} (l : list A) x y z :
  l !! 0%nat = Some x -> l !! 1%nat = Some y -> l !! 2%nat = Some z -> take 3 l = [x; y; z].
Proof.
  destruct l as [| x' [| y' [| z' t]]]; cbn; try discriminate.
  intros [= ->] [= ->] [= ->]. reflexivity.
Qed.

(** The rows read back from the serialized text of an element are the
    signs of the rows of its matrix, three entries of three rows. *)
Lemma reparse_rows (e : SymmetryElement) text parsed :
  SymmetryElementM.toShelxl e = Ok text ->
  rmap SymmetryElementM._parse_line (PyStr.split_on "," text) = Ok parsed ->
  map fst parsed = map (fun row => map Z.sgn (take 3 row)) (take 3 (se_matrix e)).
Proof.
  unfold SymmetryElementM.toShelxl. cbn [rmap].
  destruct (SymmetryElementM.line_text e 0) as [s0 |] eqn:H0; [| discriminate].
  destruct (SymmetryElementM.line_text e 1) as [s1 |] eqn:H1; [| discriminate].
  destruct (SymmetryElementM.line_text e 2) as [s2 |] eqn:H2; [| discriminate].
  cbn [rbind]. intros H. injection H as <-.
  change (s0 ++ ", " ++ s1 ++ ", " ++ s2) with (PyStr.join ", " [s0; s1; s2]).
  rewrite split_join3 by (eapply line_text_no_comma; eauto).
  cbn [rmap].
  destruct (SymmetryElementM._parse_line s0) as [p0 |] eqn:P0; [| discriminate].
  destruct (SymmetryElementM._parse_line (" " ++ s1)) as [p1 |] eqn:P1; [| discriminate].
  destruct (SymmetryElementM._parse_line (" " ++ s2)) as [p2 |] eqn:P2; [| discriminate].
  cbn [rbind]. intros H. injection H as <-. cbn [map].
  apply parse_line_row in P0, P1, P2. rewrite P0, P1, P2.
  apply line_text_shape in H0 as (T0 & a0 & a1 & a2 & r0 & Hr0 & A0 & A1 & A2 & Ht0 & Hl0 & ->).
  apply line_text_shape in H1 as (T1 & b0 & b1 & b2 & r1 & Hr1 & B0 & B1 & B2 & Ht1 & Hl1 & ->).
  apply line_text_shape in H2 as (T2 & c0 & c1 & c2 & r2 & Hr2 & C0 & C1 & C2 & Ht2 & Hl2 & ->).
  rewrite (take3_lookup _ _ _ _ Hr0 Hr1 Hr2). cbn [map].
  rewrite (take3_lookup _ _ _ _ A0 A1 A2), (take3_lookup _ _ _ _ B0 B1 B2),
    (take3_lookup _ _ _ _ C0 C1 C2). cbn [map].
  rewrite <- (row_of_serialized T0 a0 a1 a2 "" Ht0 Hl0 (or_introl eq_refl)).
  rewrite <- (row_of_serialized T1 b0 b1 b2 " " Ht1 Hl1 (or_intror eq_refl)).
  rewrite <- (row_of_serialized T2 c0 c1 c2 " " Ht2 Hl2 (or_intror eq_refl)).
  reflexivity.
Qed.

(** X15: the text that [toShelxl] writes splits at its commas into
    expressions that [_parse_line] reads back as the rows of the matrix,
    three entries of three rows, each entry reduced to its sign. *)
Theorem toShelxl_reparse_rows (e : SymmetryElement) text parsed :
  SymmetryElementM.toShelxl e = Ok text ->
  rmap SymmetryElementM._parse_line (PyStr.split_on "," text) = Ok parsed ->
  length parsed = 3%nat /\
  map fst parsed = map (fun row => map Z.sgn (take 3 row)) (take 3 (se_matrix e)).
Proof.
  intros Htext Hparsed.
  pose proof (reparse_rows e text parsed Htext Hparsed) as H.
  split; [| exact H].
  rewrite <- (length_map fst), H, length_map.
  unfold SymmetryElementM.toShelxl in Htext. cbn [rmap] in Htext.
  destruct (SymmetryElementM.line_text e 0) as [s0 |] eqn:H0; [| discriminate].
  destruct (SymmetryElementM.line_text e 1) as [s1 |] eqn:H1; [| discriminate].
  destruct (SymmetryElementM.line_text e 2) as [s2 |] eqn:H2; [| discriminate].
  apply line_text_shape in H0 as (_ & _ & _ & _ & r0 & Hr0 & _).
  apply line_text_shape in H1 as (_ & _ & _ & _ & r1 & Hr1 & _).
  apply line_text_shape in H2 as (_ & _ & _ & _ & r2 & Hr2 & _).
  rewrite (take3_lookup _ _ _ _ Hr0 Hr1 Hr2). reflexivity.
Qed.

Lemma tri_sgn z : tri z = true -> Z.sgn z = z.
Proof.
  unfold tri. intros H.
  assert (Hz : z = -1 \/ z = 0 \/ z = 1).
  { destruct (Z.eqb_spec z (-1)); [lia |].
    destruct (Z.eqb_spec z 0); [lia |].
    destruct (Z.eqb_spec z 1); [lia |]. cbn in H. discriminate. }
  destruct Hz as [-> | [-> | ->]]; reflexivity.
Qed.

Lemma grid9_rows e :
  grid9 e = true ->
  map (fun row => map Z.sgn (take 3 row)) (take 3 (se_matrix e)) = se_matrix e.
Proof.
  unfold grid9, grid_ok. intros H.
  apply andb_prop in H as [H H3]. apply andb_prop in H as [Hlen Hrows].
  apply Nat.eqb_eq in Hlen, H3. rewrite H3 in Hrows.
  destruct (se_matrix e) as [| r0 [| r1 [| r2 [| ? ?]]]]; try discriminate.
  cbn [take map forallb] in *.
  assert (Hrow : forall r, (length r =? 3)%nat && forallb tri r = true ->
                           map Z.sgn (take 3 r) = r).
  { intros r Hr. apply andb_prop in Hr as [Hl Ht]. apply Nat.eqb_eq in Hl.
    destruct r as [| a [| b [| c [| ? ?]]]]; try discriminate.
    cbn in Ht. apply andb_prop in Ht as [Ha Ht]. apply andb_prop in Ht as [Hb Ht].
    apply andb_prop in Ht as [Hc _].
    cbn. now rewrite (tri_sgn a Ha), (tri_sgn b Hb), (tri_sgn c Hc). }
  apply andb_prop in Hrows as [R0 Hrows]. apply andb_prop in Hrows as [R1 Hrows].
  apply andb_prop in Hrows as [R2 _].
  now rewrite (Hrow r0 R0), (Hrow r1 R1), (Hrow r2 R2).
Qed.

(** X14: the lattice-translated copy of an element with a matrix of three
    rows of three entries, each -1, 0 or 1, has the transposed matrix. *)
Theorem lattice_copy_transposes self latt w r w' e0 :
  (latt < length (elements w))%nat ->
  elements w !! self = Some e0 ->
  grid9 e0 = true ->
  SymmetryElementM.applyLattSymm self latt w = (Ok r, w') ->
  se_matrix <$> elements w' !! r = Some (SymmetryElementM.transpose (se_matrix e0)).
Proof.
  intros Hlive He0 Hgrid Hrun.
  apply applyLattSymm_Ok in Hrun as
    (e0' & l & text & parsed & a0 & a1 & a2 & b0 & b1 & b2 &
     He0' & Hl & Htext & Hparsed & _ & _ & _ & _ & _ & _ & -> & ->); [| exact Hlive].
  unfold ref in *. rewrite He0 in He0'. injection He0' as <-.
  cbn [elements with_elements]. rewrite list_lookup_middle by reflexivity.
  cbn [fmap option_fmap option_map se_matrix]. f_equal. f_equal.
  rewrite (reparse_rows e0 text parsed Htext Hparsed).
  apply grid9_rows. exact Hgrid.
Qed.

(** ** Instances of the laws above on concrete inputs *)

(** The world after [DFIX 1.5 C1 C2 C2 C3] and [DFIX 1.4 0.01 C2 C1]. *)
Lemma finalizeDfix_first_filed_witness :
  let w := snd (Parsers.dfix_finished "DFIX 1.4 0.01 C2 C1"
                  (snd (Parsers.dfix_finished "DFIX 1.5 C1 C2 C2 C3" parsing_world))) in
  exists m t',
    (molecules w !! 0%nat = Some m /\
     ShelxlMoleculeM._finalizeDfix 0%nat w = (Ok t', w)) /\
    (w = w /\
     forall r x,
       entry t' r x =
       first_filed (r, x)
         (flat_map (restraint_entries (pair_lists w) (mol_dfixErr m)) (mol_dfixs m))).
Proof.
  intros w.
  assert (H1 : exists m, molecules w !! 0%nat = Some m) by (eexists; vm_compute; reflexivity).
  destruct H1 as [m H1].
  assert (H2 : exists t', ShelxlMoleculeM._finalizeDfix 0%nat w = (Ok t', w))
    by (eexists; vm_compute; reflexivity).
  destruct H2 as [t' H2].
  exists m, t'. split; [split; assumption |].
  exact (finalizeDfix_first_filed 0%nat w m t' w H1 H2).
Defined.

(** The same world: all names are in upper case. *)
Lemma finalizeDfix_symmetric_upper_witness :
  let w := snd (Parsers.dfix_finished "DFIX 1.4 0.01 C2 C1"
                  (snd (Parsers.dfix_finished "DFIX 1.5 C1 C2 C2 C3" parsing_world))) in
  exists m t',
    (molecules w !! 0%nat = Some m /\
     Forall (fun d => forall ps, pair_lists w !! snd d = Some ps -> upper_pairs ps)
            (mol_dfixs m) /\
     ShelxlMoleculeM._finalizeDfix 0%nat w = (Ok t', w)) /\
    forall a b, entry t' a b = entry t' b a.
Proof.
  intros w.
  pose (m := ShelxlMoleculeM.set_dfixs
               [(3 # 2, None, 0%nat); (3 # 2, None, 0%nat); (7 # 5, Some (1 # 100), 1%nat)]
               ShelxlMoleculeM.fresh).
  assert (H1 : molecules w !! 0%nat = Some m) by (vm_compute; reflexivity).
  assert (Hp0 : pair_lists w !! 0%nat = Some [("C1", "C2"); ("C2", "C3")])
    by (vm_compute; reflexivity).
  assert (Hp1 : pair_lists w !! 1%nat = Some [("C2", "C1")]) by (vm_compute; reflexivity).
  assert (H2 : Forall (fun d => forall ps, pair_lists w !! snd d = Some ps -> upper_pairs ps)
                      (mol_dfixs m)).
  { unfold m. cbn [mol_dfixs ShelxlMoleculeM.set_dfixs].
    assert (U0 : forall ps, pair_lists w !! 0%nat = Some ps -> upper_pairs ps).
    { intros ps Hps. unfold ref in *. rewrite Hp0 in Hps. injection Hps as <-.
      repeat constructor. }
    assert (U1 : forall ps, pair_lists w !! 1%nat = Some ps -> upper_pairs ps).
    { intros ps Hps. unfold ref in *. rewrite Hp1 in Hps. injection Hps as <-.
      repeat constructor. }
    apply List.Forall_cons; [exact U0 |]. apply List.Forall_cons; [exact U0 |].
    apply List.Forall_cons; [exact U1 |]. apply List.Forall_nil. }
  assert (H3 : exists t', ShelxlMoleculeM._finalizeDfix 0%nat w = (Ok t', w))
    by (eexists; vm_compute; reflexivity).
  destruct H3 as [t' H3].
  exists m, t'. split; [repeat split; assumption |].
  exact (finalizeDfix_symmetric_upper 0%nat w m t' w H1 H2 H3).
Defined.

(** One restraint on C1 and C2, then a second one with another target. *)
Lemma finalizeDfix_first_write_wins_witness :
  let w := with_pair_lists [[("C1", "C2")]] empty_world in
  let d1 := [(3 # 2, None, 0%nat)] in
  let d2 := [(7 # 5, None, 0%nat)] in
  exists t1 t12,
    (fst (ShelxlMoleculeM._finalizeDfix_loop (1 # 50) d1 ∅ w) = Ok t1 /\
     fst (ShelxlMoleculeM._finalizeDfix_loop (1 # 50) (d1 ++ d2) ∅ w) = Ok t12 /\
     entry t1 "C1" "C2" = Some (3 # 2, 1 # 50)) /\
    entry t12 "C1" "C2" = Some (3 # 2, 1 # 50).
Proof.
  intros w d1 d2.
  assert (H1 : exists t1, fst (ShelxlMoleculeM._finalizeDfix_loop (1 # 50) d1 ∅ w) = Ok t1)
    by (eexists; vm_compute; reflexivity).
  destruct H1 as [t1 H1].
  assert (H2 : exists t12,
             fst (ShelxlMoleculeM._finalizeDfix_loop (1 # 50) (d1 ++ d2) ∅ w) = Ok t12)
    by (eexists; vm_compute; reflexivity).
  destruct H2 as [t12 H2].
  assert (H3 : entry t1 "C1" "C2" = Some (3 # 2, 1 # 50)).
  { assert (E : fst (ShelxlMoleculeM._finalizeDfix_loop (1 # 50) d1 ∅ w) =
                Ok (ShelxlMoleculeM.record_pair (3 # 2, 1 # 50) ∅ ("C1", "C2")))
      by (vm_compute; reflexivity).
    rewrite E in H1. injection H1 as <-. vm_compute. reflexivity. }
  exists t1, t12. split; [repeat split; assumption |].
  exact (finalizeDfix_first_write_wins (1 # 50) d1 d2 ∅ w t1 t12 "C1" "C2" (3 # 2, 1 # 50)
           H1 H2 H3).
Defined.

(** Four names after the target: two pairs in one list. *)
Lemma dfix_loop_shares_one_list_witness :
  let w := snd (Parsers.new_pairs parsing_world) in
  let data := ["C1"; "C2"; "C2"; "C3"] in
  (CURRENTMOLECULE w = Some 0%nat /\
   molecules w !! 0%nat = Some ShelxlMoleculeM.fresh /\
   pair_lists w !! 0%nat = Some []) /\
  let w' := snd (Parsers.dfix_loop (3 # 2) None 0%nat data (seq 0 (length data / 2)) w) in
  fst (Parsers.dfix_loop (3 # 2) None 0%nat data (seq 0 (length data / 2)) w) = Ok tt /\
  pair_lists w' !! 0%nat = Some (chunk2 data) /\
  mol_dfixs <$> molecules w' !! 0%nat =
    Some (mol_dfixs ShelxlMoleculeM.fresh ++
          replicate (length (chunk2 data)) (3 # 2, None, 0%nat))%list.
Proof.
  intros w data.
  assert (H1 : CURRENTMOLECULE w = Some 0%nat) by reflexivity.
  assert (H2 : molecules w !! 0%nat = Some ShelxlMoleculeM.fresh) by reflexivity.
  assert (H3 : pair_lists w !! 0%nat = Some []) by reflexivity.
  split; [repeat split; assumption |].
  exact (dfix_loop_shares_one_list (3 # 2) None 0%nat data w 0%nat ShelxlMoleculeM.fresh
           H1 H2 H3).
Defined.

(** A parse of two symmetry instructions in the world of a loaded module. *)
Lemma identity_labels_unique_witness :
  let files := file_of ["LATT 2"; "SYMM -X, -Y, 1/2+Z"; "SYMM -Y, X, Z"] in
  ids_ok initial_world /\
  (ids_ok (snd (ShelxlParserM.read 10 files new_parser "s1.ins" initial_world)) /\
   symm_ID initial_world <=
     symm_ID (snd (ShelxlParserM.read 10 files new_parser "s1.ins" initial_world))).
Proof.
  intros files.
  assert (H : ids_ok initial_world).
  { split.
    - apply (bool_decide_unpack _). vm_compute. exact I.
    - apply (bool_decide_unpack _). vm_compute. exact I. }
  split; [exact H |].
  exact (identity_labels_unique 10 files new_parser "s1.ins" initial_world H).
Defined.


(** The same two elements: the matrix of the first is not symmetric. *)
Lemma lattice_copy_transposes_witness :
  let w := snd (SymmetryElementM.__init__ ["1/2+X"; "1/2+Y"; "Z"] false
                  (snd (SymmetryElementM.__init__ ["-Y"; "1/2+X"; "1/4+Z"] false empty_world))) in
  exists e0 r w',
    ((1 < length (elements w))%nat /\
     elements w !! 0%nat = Some e0 /\
     grid9 e0 = true /\
     SymmetryElementM.applyLattSymm 0%nat 1%nat w = (Ok r, w')) /\
    se_matrix <$> elements w' !! r = Some (SymmetryElementM.transpose (se_matrix e0)).
Proof.
  intros w.
  assert (H1 : (1 < length (elements w))%nat) by (vm_compute; lia).
  assert (H2 : exists e0, elements w !! 0%nat = Some e0 /\ grid9 e0 = true)
    by (eexists; split; vm_compute; reflexivity).
  destruct H2 as (e0 & H2 & H3).
  assert (H4 : exists r w', SymmetryElementM.applyLattSymm 0%nat 1%nat w = (Ok r, w'))
    by (eexists _, _; vm_compute; reflexivity).
  destruct H4 as (r & w' & H4).
  exists e0, r, w'. split; [repeat split; assumption |].
  exact (lattice_copy_transposes 0%nat 1%nat w r w' e0 H1 H2 H3 H4).
Defined.

(** A four-fold screw axis. *)
Lemma toShelxl_reparse_rows_witness :
  let e := {| se_symms := ["-Y"; "X"; "1/4+Z"]; se_ID := 0;
              se_matrix := [[0; -1; 0]; [1; 0; 0]; [0; 0; 1]];
              se_trans := [Some 0%Q; Some 0%Q; Some (1 # 4)] |} in
  exists text parsed,
    (SymmetryElementM.toShelxl e = Ok text /\
     rmap SymmetryElementM._parse_line (PyStr.split_on "," text) = Ok parsed) /\
    (length parsed = 3%nat /\
     map fst parsed = map (fun row => map Z.sgn (take 3 row)) (take 3 (se_matrix e))).
Proof.
  intros e.
  assert (H1 : exists text, SymmetryElementM.toShelxl e = Ok text)
    by (eexists; vm_compute; reflexivity).
  destruct H1 as [text H1].
  assert (H2 : exists parsed,
             rmap SymmetryElementM._parse_line (PyStr.split_on "," text) = Ok parsed).
  { assert (E : text = "-Y, +X, 0.25+Z").
    { assert (E : SymmetryElementM.toShelxl e = Ok "-Y, +X, 0.25+Z") by (vm_compute; reflexivity).
      rewrite E in H1. injection H1 as <-. reflexivity. }
    rewrite E. eexists. vm_compute. reflexivity. }
  destruct H2 as [parsed H2].
  exists text, parsed. split; [split; assumption |].
  exact (toShelxl_reparse_rows e text parsed H1 H2).
Defined.

(** One instruction after [LATT 2]: a body centring and an inversion
    centre. *)
Lemma addSymm_count_witness :
  let w := snd (Parsers.latt_finished "LATT 2" parsing_world) in
  exists m w',
    (molecules w !! 0%nat = Some m /\
     ShelxlMoleculeM.addSymm 0%nat ["-X"; "-Y"; "1/2+Z"] w = (Ok tt, w')) /\
    exists new,
      molecules w' !! 0%nat = Some (ShelxlMoleculeM.set_symms (mol_symms m ++ new)%list m) /\
      length new = ((1 + length (mol_lattOps m)) * (if mol_centric m then 2 else 1))%nat.
Proof.
  intros w.
  assert (H1 : exists m, molecules w !! 0%nat = Some m) by (eexists; vm_compute; reflexivity).
  destruct H1 as [m H1].
  assert (H2 : exists w', ShelxlMoleculeM.addSymm 0%nat ["-X"; "-Y"; "1/2+Z"] w = (Ok tt, w'))
    by (eexists; vm_compute; reflexivity).
  destruct H2 as [w' H2].
  exists m, w'. split; [split; assumption |].
  exact (addSymm_count 0%nat ["-X"; "-Y"; "1/2+Z"] w w' m H1 H2).
Defined.

(** The same name twice. *)
Lemma addEqiv_last_write_wins_witness :
  let w := snd (ShelxlMoleculeM.addEqiv 0%nat "$1" ["X"; "Y"; "1+Z"] parsing_world) in
  exists m w',
    (molecules w !! 0%nat = Some m /\
     ShelxlMoleculeM.addEqiv 0%nat "$1" ["-X"; "-Y"; "Z"] w = (Ok tt, w')) /\
    exists m',
      molecules w' !! 0%nat = Some m' /\
      mol_eqivs m' !! "$1" = Some (length (elements w)) /\
      (forall other, other <> "$1" -> mol_eqivs m' !! other = mol_eqivs m !! other) /\
      length (elements w') = S (length (elements w)).
Proof.
  intros w.
  assert (H1 : exists m, molecules w !! 0%nat = Some m) by (eexists; vm_compute; reflexivity).
  destruct H1 as [m H1].
  assert (H2 : exists w', ShelxlMoleculeM.addEqiv 0%nat "$1" ["-X"; "-Y"; "Z"] w = (Ok tt, w'))
    by (eexists; vm_compute; reflexivity).
  destruct H2 as [w' H2].
  exists m, w'. split; [split; assumption |].
  exact (addEqiv_last_write_wins 0%nat "$1" ["-X"; "-Y"; "Z"] w w' m H1 H2).
Defined.

(** A record that stops after the second coordinate. *)
Lemma atom_needs_six_words_witness :
  (length (PyStr.split "C1 1 0.25 0.5") < 6)%nat /\
  exists e, ShelxlAtomM.__init__ "C1 1 0.25 0.5" parsing_world = (Raise e, parsing_world) /\
            (e = ValueError \/ e = IndexError \/ e = OutOfModel).
Proof.
  assert (H : (length (PyStr.split "C1 1 0.25 0.5") < 6)%nat) by (vm_compute; lia).
  split; [exact H |].
  exact (atom_needs_six_words "C1 1 0.25 0.5" parsing_world H).
Defined.

(** A carbon atom with an isotropic displacement parameter. *)
Lemma atom_fields_witness :
  let line := "C1 1 0.1 0.2 0.3 11.0 0.05" in
  exists a w',
    ShelxlAtomM.__init__ line parsing_world = (Ok a, w') /\
    exists name nums,
      PyStr.split line !! 0%nat = Some name /\
      rmap PyNum.float (tail (PyStr.split line)) = Ok nums /\
      (5 <= length nums)%nat /\
      at_name a = name /\
      Some (at_sfac a) = nums !! 0%nat /\
      at_frac a = take 3 (drop 1 nums) /\ length (at_frac a) = 3%nat /\
      at_adp a = drop 5 nums /\
      at_qPeak a = match PyStr.head name with
                   | Some c => Ascii.eqb (PyStr.upper_char c) "Q"
                   | None => false
                   end /\
      registered a parsing_world w'.
Proof.
  intros line.
  assert (H : exists a w', ShelxlAtomM.__init__ line parsing_world = (Ok a, w'))
    by (eexists _, _; vm_compute; reflexivity).
  destruct H as (a & w' & H).
  exists a, w'. split; [exact H |].
  exact (atom_fields line parsing_world a w' H).
Defined.

(** A cell instruction with its six parameters. *)
Lemma cell_finished_outcome_witness :
  let body := "CELL 0.71073 10.5 11 12 90 95.5 90" in
  (CURRENTMOLECULE parsing_world = Some 0%nat /\
   molecules parsing_world !! 0%nat = Some ShelxlMoleculeM.fresh) /\
  Parsers.cell_finished body parsing_world =
  match Parsers.floats_after_keyword body with
  | Ok (d0 :: rest) =>
      (Ok tt,
       with_molecules
         (<[0%nat := ShelxlMoleculeM.set_waveLength (Some d0)
                       (ShelxlMoleculeM.set_cell rest ShelxlMoleculeM.fresh)]>
            (molecules parsing_world)) parsing_world)
  | Ok [] =>
      (Raise IndexError,
       with_molecules
         (<[0%nat := ShelxlMoleculeM.set_cell [] ShelxlMoleculeM.fresh]>
            (molecules parsing_world)) parsing_world)
  | Raise e => (Raise e, parsing_world)
  end.
Proof.
  intros body.
  assert (H1 : CURRENTMOLECULE parsing_world = Some 0%nat) by reflexivity.
  assert (H2 : molecules parsing_world !! 0%nat = Some ShelxlMoleculeM.fresh) by reflexivity.
  split; [split; assumption |].
  exact (cell_finished_outcome body parsing_world 0%nat ShelxlMoleculeM.fresh H1 H2).
Defined.

(** Three element symbols. *)
Lemma sfac_finished_plain_witness :
  let body := "SFAC C H N" in
  (CURRENTMOLECULE parsing_world = Some 0%nat /\
   molecules parsing_world !! 0%nat = Some ShelxlMoleculeM.fresh /\
   Parsers.any_float (tail (PyStr.split body)) = Ok false) /\
  Parsers.sfac_finished body parsing_world =
  (Ok tt,
   with_molecules
     (<[0%nat := ShelxlMoleculeM.set_sfacs
                   (mol_sfacs ShelxlMoleculeM.fresh ++ tail (PyStr.split body))%list
                   ShelxlMoleculeM.fresh]> (molecules parsing_world)) parsing_world).
Proof.
  intros body.
  assert (H1 : CURRENTMOLECULE parsing_world = Some 0%nat) by reflexivity.
  assert (H2 : molecules parsing_world !! 0%nat = Some ShelxlMoleculeM.fresh) by reflexivity.
  assert (H3 : Parsers.any_float (tail (PyStr.split body)) = Ok false)
    by (vm_compute; reflexivity).
  split; [repeat split; assumption |].
  exact (sfac_finished_plain body parsing_world 0%nat ShelxlMoleculeM.fresh H1 H2 H3).
Defined.

(** A symbol with three numbers. *)
Lemma sfac_finished_custom_witness :
  let body := "SFAC C 2.31 20.8439 1.02" in
  let nums := [231 # 100; 208439 # 10000; 51 # 50] in
  (CURRENTMOLECULE parsing_world = Some 0%nat /\
   molecules parsing_world !! 0%nat = Some ShelxlMoleculeM.fresh /\
   tail (PyStr.split body) = "C" :: ["2.31"; "20.8439"; "1.02"] /\
   Parsers.any_float ("C" :: ["2.31"; "20.8439"; "1.02"]) = Ok true /\
   rmap PyNum.float ["2.31"; "20.8439"; "1.02"] = Ok nums) /\
  Parsers.sfac_finished body parsing_world =
  (Ok tt,
   with_molecules
     (<[0%nat := ShelxlMoleculeM.set_sfacs (mol_sfacs ShelxlMoleculeM.fresh ++ ["C"])%list
                   (ShelxlMoleculeM.set_customSfacData
                      (<["C" := ("C", nums)]> (mol_customSfacData ShelxlMoleculeM.fresh))
                      ShelxlMoleculeM.fresh)]>
        (molecules parsing_world)) parsing_world).
Proof.
  intros body nums.
  assert (H1 : CURRENTMOLECULE parsing_world = Some 0%nat) by reflexivity.
  assert (H2 : molecules parsing_world !! 0%nat = Some ShelxlMoleculeM.fresh) by reflexivity.
  assert (H3 : tail (PyStr.split body) = "C" :: ["2.31"; "20.8439"; "1.02"])
    by (vm_compute; reflexivity).
  assert (H4 : Parsers.any_float ("C" :: ["2.31"; "20.8439"; "1.02"]) = Ok true)
    by (vm_compute; reflexivity).
  assert (H5 : rmap PyNum.float ["2.31"; "20.8439"; "1.02"] = Ok nums)
    by (vm_compute; reflexivity).
  split; [repeat split; assumption |].
  exact (sfac_finished_custom body parsing_world 0%nat ShelxlMoleculeM.fresh "C"
           ["2.31"; "20.8439"; "1.02"] nums H1 H2 H3 H4 H5).
Defined.

(** A remark. *)
Lemma inert_lines_witness :
  let line := "REM C1 1 0.1 0.2 0.3 11.0 0.05" ++ nl in
  let l := PyStr.rstrip_char "010" line in
  (PyStr.is_empty l = true \/
   PyStr.head l = Some " "%char \/
   LineParserM.COMMANDS !! PyStr.rstrip (PyStr.take 4 l) = Some doNothing) /\
  LineParserM.__call__ line parsing_world = (Ok (LineParser, TokLine l), parsing_world).
Proof.
  intros line l.
  assert (H : PyStr.is_empty l = true \/
              PyStr.head l = Some " "%char \/
              LineParserM.COMMANDS !! PyStr.rstrip (PyStr.take 4 l) = Some doNothing)
    by (right; right; vm_compute; reflexivity).
  split; [exact H |].
  exact (inert_lines line parsing_world H).
Defined.

(** [LATT 9]: nine is no lattice type. *)
Lemma latt_outside_reread_as_atom_witness :
  let line := "LATT 9" ++ nl in
  let l := PyStr.rstrip_char "010" line in
  let w1 := if (0 <? 9)%Z
            then with_molecules
                   (<[0%nat := ShelxlMoleculeM.set_centric true ShelxlMoleculeM.fresh]>
                      (molecules parsing_world)) parsing_world
            else parsing_world in
  (PyStr.take 4 l = "LATT" /\
   PyStr.endswith "=" l = false /\
   Parsers.latt_number l = Ok 9 /\
   ~ (1 <= Z.abs 9 <= 7) /\
   CURRENTMOLECULE parsing_world = Some 0%nat /\
   molecules parsing_world !! 0%nat = Some ShelxlMoleculeM.fresh /\
   (length (PyStr.split l) < 6)%nat) /\
  LineParserM.__call__ line parsing_world =
    (a <- ShelxlAtomM.__init__ l ;; ret (LineParser, TokAtom a)) w1 /\
  exists e, LineParserM.__call__ line parsing_world = (Raise e, w1) /\
            (e = ValueError \/ e = IndexError \/ e = OutOfModel).
Proof.
  intros line l w1.
  assert (H1 : PyStr.take 4 l = "LATT") by reflexivity.
  assert (H2 : PyStr.endswith "=" l = false) by reflexivity.
  assert (H3 : Parsers.latt_number l = Ok 9) by (vm_compute; reflexivity).
  assert (H4 : ~ (1 <= Z.abs 9 <= 7)) by (simpl; lia).
  assert (H5 : CURRENTMOLECULE parsing_world = Some 0%nat) by reflexivity.
  assert (H6 : molecules parsing_world !! 0%nat = Some ShelxlMoleculeM.fresh) by reflexivity.
  assert (H7 : (length (PyStr.split l) < 6)%nat) by (vm_compute; lia).
  split; [repeat split; assumption |].
  destruct (latt_outside_reread_as_atom line 9 parsing_world 0%nat ShelxlMoleculeM.fresh
              H1 H2 H3 H4 H5 H6) as [Hrun Hshort].
  split; [exact Hrun | exact (Hshort H7)].
Defined.

(** One line of an inserted file is left, two of the base file. *)
Lemma readlines_order_witness :
  let rd := {| rd_fp := ["b1"; "b2"]; rd_inserted := Some ["i1"] |} in
  (length (ReaderOps.pending rd) + length (rd_fp rd) <= 5)%nat /\
  (ReaderOps.readlines 5 rd = (ReaderOps.pending rd ++ rd_fp rd)%list /\
   length (ReaderOps.readlines 5 rd) =
     (length (ReaderOps.pending rd) + length (rd_fp rd))%nat).
Proof.
  intros rd.
  assert (H : (length (ReaderOps.pending rd) + length (rd_fp rd) <= 5)%nat)
    by (simpl; lia).
  split; [exact H |].
  exact (readlines_order 5 rd H).
Defined.
